(** * Order-book engine: book state machine, OFI calculator, wall tracker

    A shallow embedding of [orderbook.py], [ofi_calculator.py] and
    [wall_tracker.py], and the properties of the specification proved (or
    refuted) on it; then the constructor and the message handler of
    [collector.py], which drive the three, and further properties of the
    four files.

    Numbers.  Update ids and counters are Python [int]s: [Z].  Prices,
    quantities and clock readings are Python [float]s: a float is the
    rational it denotes, in canonical form ([Qc]), so that [==] on floats is
    Leibniz equality and a float used as a dictionary key is a [gmap] key.
    The arithmetic that the book and the wall tracker compare (the notional
    of a level and of a wall, the mid price, the spread, the product of the
    20 % test and the distance of the market test) rounds through the class
    [py.Float]: what is proved of it holds for every rounding that keeps
    zero, the binary64 rounding [py.binary64] of a Python float among them.
    The ages, scores and health of a wall, [round] and the OFI calculator
    are computed without rounding: what is proved of them reads the floats
    as exact rationals.  There is no NaN, no infinity and no overflow;
    [math.sqrt] is a parameter of the development.  A float in a boolean
    position is true exactly when it is not zero, a [None] is false.

    Dictionaries.  The price maps of [_apply_update] and of the OFI deltas
    are read through [sorted] or summed, so their order does not show: they
    are [gmap]s.  The wall map is iterated to emit events: it is a list of
    items in insertion order.

    Exceptions.  The division by the price in the wall tracker raises on a
    zero price: [update] returns [py.Raise] with the wall map as the
    interrupted call leaves it.  The constructor of the calculator returns
    [None] where the source raises.

    Time.  [time.time()] is an argument [now] of every operation that reads
    the clock: one reading per call. *)

From Stdlib Require Import ZArith QArith Qcanon Lia.
From stdpp Require Import base numbers option list sorting gmap strings.

Local Open Scope Z_scope.
Local Open Scope Qc_scope.

(** ** Python values shared by the three modules *)

Module py.

(** A decimal literal [n/d] of the source, e.g. [1.2] is [lit 12 10]. *)
Definition lit (n : Z) (d : positive) : Qc := Q2Qc (n # d).

(** The arithmetic of the machine on floats: an operation of the source
    is the exact operation followed by the rounding [rnd] to a float, and a
    decimal literal is the float nearest to it.  Comparisons, [abs], [max],
    [min] and the sign change are exact on floats.  The statements hold for
    every rounding that keeps zero; [exact] rounds nothing, [binary64] is
    the rounding of a Python float. *)
Class Float := {
  rnd : Qc → Qc;
  rnd_0 : rnd 0 = 0
}.

Section float.

Context {F : Float}.

Definition flt (n : Z) (d : positive) : Qc := rnd (lit n d).
Definition add (x y : Qc) : Qc := rnd (x + y).
Definition sub (x y : Qc) : Qc := rnd (x - y).
Definition mul (x y : Qc) : Qc := rnd (x * y).
Definition div (x y : Qc) : Qc := rnd (x / y).

End float.

Definition exact : Float := {| rnd := λ x, x; rnd_0 := eq_refl |}.

(** The integer nearest to [n / d] for [0 < d], a tie going to the even
    one. *)
Definition nearest_even (n d : Z) : Z :=
  let f := (n `div` d)%Z in
  let r := (n `mod` d)%Z in
  match (2 * r ?= d)%Z with
  | Lt => f
  | Gt => (f + 1)%Z
  | Eq => if Z.even f then f else (f + 1)%Z
  end.

(** Round to nearest, ties to even, on the binary64 grid: 53 significant
    bits from the exponent [e] of the number, the exponent not below
    [-1022] (subnormal numbers below it).  Numbers are taken to stay below
    the overflow threshold. *)
Definition binary64_round (x : Qc) : Qc :=
  let n := Qnum (this x) in
  let d := Z.pos (Qden (this x)) in
  if bool_decide (n = 0)%Z then 0
  else
    let a := Z.abs n in
    let e0 := (Z.log2 a - Z.log2 d)%Z in
    let below :=
      if bool_decide (0 ≤ e0)%Z then bool_decide (a < d * 2 ^ e0)%Z
      else bool_decide (a * 2 ^ (- e0) < d)%Z in
    let e := if below then (e0 - 1)%Z else e0 in
    let k := (Z.max e (-1022) - 52)%Z in
    let v :=
      if bool_decide (0 ≤ k)%Z
      then Qc_of_Z (nearest_even a (d * 2 ^ k) * 2 ^ k)
      else Q2Qc (nearest_even (a * 2 ^ (- k)) d # Z.to_pos (2 ^ (- k))) in
    if bool_decide (n < 0)%Z then - v else v.

Definition binary64 : Float :=
  {| rnd := binary64_round; rnd_0 := eq_refl |}.

(** [bool(x)] for [x : float]. *)
Definition truthy (x : Qc) : bool := negb (bool_decide (x = 0)).

(** [bool(x)] for [x : Optional[float]]. *)
Definition truthy_opt (x : option Qc) : bool :=
  match x with
  | Some v => truthy v
  | None => false
  end.

(** [l[:n]] for a Python [int] [n]: a negative [n] counts from the end. *)
Definition slice_to {A} (n : Z) (l : list A) : list A :=
  if bool_decide (0 ≤ n)%Z then take (Z.to_nat n) l
  else take (length l - Z.to_nat (- n)) l.

(** [abs(x)] and [max(x, y)] on floats. *)
Definition abs (x : Qc) : Qc := if bool_decide (x < 0) then - x else x.
Definition max (x y : Qc) : Qc := if bool_decide (x < y) then y else x.

Definition min (x y : Qc) : Qc := if bool_decide (y < x) then y else x.

(** [sum(xs)] on floats. *)
Definition sum (xs : list Qc) : Qc := foldl Qcplus 0 xs.

(** [round(x, ndigits)]: the nearest multiple of [10^-ndigits], a tie
    going to the even one. *)
Definition round (x : Qc) (ndigits : nat) : Qc :=
  let s := (10 ^ Z.of_nat ndigits)%Z in
  let y := x * Qc_of_Z s in
  let n := Qnum (this y) in
  let d := Z.pos (Qden (this y)) in
  let f := (n `div` d)%Z in
  let r := (n `mod` d)%Z in
  let k := match (2 * r ?= d)%Z with
           | Lt => f
           | Gt => (f + 1)%Z
           | Eq => if Z.even f then f else (f + 1)%Z
           end in
  Qc_of_Z k / Qc_of_Z s.

(** The outcome of a call that can raise. *)
Inductive result (A : Type) : Type :=
  | Ok (a : A)
  | Raise (exn : string).
Global Arguments Ok {A} a.
Global Arguments Raise {A} exn.

End py.

(** ** orderbook.py *)

Module orderbook.

Record PriceLevel := { price : Qc; quantity : Qc }.

Definition notional {F : py.Float} (l : PriceLevel) : Qc :=
  py.mul (price l) (quantity l).

Record OrderBook := {
  symbol : string;
  bids : list PriceLevel;
  asks : list PriceLevel;
  last_update_id : Z;
  timestamp : Qc
}.

Definition best_bid (ob : OrderBook) : option Qc :=
  match bids ob with
  | l :: _ => Some (price l)
  | [] => None
  end.

Definition best_ask (ob : OrderBook) : option Qc :=
  match asks ob with
  | l :: _ => Some (price l)
  | [] => None
  end.

Definition mid_price {F : py.Float} (ob : OrderBook) : option Qc :=
  if py.truthy_opt (best_bid ob) && py.truthy_opt (best_ask ob)
  then b ← best_bid ob; a ← best_ask ob;
       Some (py.div (py.add b a) (py.flt 2 1))
  else None.

Definition spread_bps {F : py.Float} (ob : OrderBook) : option Qc :=
  if py.truthy_opt (best_bid ob) && py.truthy_opt (best_ask ob)
     && py.truthy_opt (mid_price ob)
  then b ← best_bid ob; a ← best_ask ob; m ← mid_price ob;
       Some (py.mul (py.div (py.sub a b) m) (py.flt 10000 1))
  else None.

(** The manager.  [m_symbol] is the manager's own [symbol] attribute. *)
Record OrderBookManager := {
  m_symbol : string;
  depth : Z;
  rest_url : string;
  orderbook : OrderBook;
  _last_u : Z;
  _initialized : bool
}.

(** [rest_base] is what [_rest_base()] reads from the environment; it
    stands in for a [rest_url] that is [None] or empty. *)
Definition __init__ (rest_base : string) (symbol : string) (depth : Z)
    (rest_url : option string) : OrderBookManager :=
  {| m_symbol := symbol; depth := depth;
     rest_url := match rest_url with
                 | Some url => if bool_decide (url = "") then rest_base
                               else url
                 | None => rest_base
                 end;
     orderbook := {| symbol := symbol; bids := []; asks := [];
                     last_update_id := 0; timestamp := 0 |};
     _last_u := 0; _initialized := false |}.

(** The body of the REST answer, its price and quantity strings already
    read as floats. *)
Record DepthSnapshot := {
  lastUpdateId : Z;
  snap_bids : list (Qc * Qc);
  snap_asks : list (Qc * Qc)
}.

Definition level_of (pq : Qc * Qc) : PriceLevel :=
  {| price := pq.1; quantity := pq.2 |}.

Definition initialize (self : OrderBookManager) (data : DepthSnapshot)
    (now : Qc) : OrderBookManager :=
  {| m_symbol := m_symbol self; depth := depth self;
     rest_url := rest_url self;
     orderbook := {| symbol := symbol (orderbook self);
                     bids := level_of <$> snap_bids data;
                     asks := level_of <$> snap_asks data;
                     last_update_id := lastUpdateId data;
                     timestamp := now |};
     _last_u := lastUpdateId data;
     _initialized := true |}.

(** A depth event: ["U"] and ["pu"] are read with [event.get], ["u"],
    ["b"] and ["a"] with [event[...]]; the level strings are already read
    as floats. *)
Record DepthEvent := {
  ev_U : option Z;
  ev_u : Z;
  ev_pu : option Z;
  ev_b : list (Qc * Qc);
  ev_a : list (Qc * Qc)
}.

(** [{level.price: level for level in book_side}]: a later level with
    the same price replaces an earlier one. *)
Definition price_map_of (book_side : list PriceLevel) : gmap Qc PriceLevel :=
  foldl (λ acc level, <[price level := level]> acc) ∅ book_side.

(** One turn of the loop over [updates]. *)
Definition apply_entry (price_map : gmap Qc PriceLevel) (upd : Qc * Qc)
  : gmap Qc PriceLevel :=
  let price := upd.1 in
  let qty := upd.2 in
  if bool_decide (qty = 0) then delete price price_map
  else <[price := {| price := price; quantity := qty |}]> price_map.

(** The order of [sorted(..., key=lambda x: x.price, reverse=reverse)]. *)
Definition by_price (reverse : bool) : relation PriceLevel :=
  λ x y, if reverse then price y ≤ price x else price x ≤ price y.

Global Instance by_price_dec reverse : RelDecision (by_price reverse).
Proof. intros x y. unfold by_price. destruct reverse; apply _. Defined.

Definition values (price_map : gmap Qc PriceLevel) : list PriceLevel :=
  (map_to_list price_map).*2.

Definition _apply_update (updates : list (Qc * Qc))
    (book_side : list PriceLevel) (reverse : bool) : list PriceLevel :=
  let price_map := price_map_of book_side in
  let price_map := foldl apply_entry price_map updates in
  merge_sort (by_price reverse) (values price_map).

(** Lines 96 to 104 of [process_update]: the mutation of the book. *)
Definition apply_event (self : OrderBookManager) (event : DepthEvent)
    (now : Qc) : OrderBookManager :=
  let ob := orderbook self in
  let new_bids := _apply_update (ev_b event) (bids ob) true in
  let new_asks := _apply_update (ev_a event) (asks ob) false in
  {| m_symbol := m_symbol self; depth := depth self;
     rest_url := rest_url self;
     orderbook := {| symbol := symbol ob;
                     bids := py.slice_to (depth self) new_bids;
                     asks := py.slice_to (depth self) new_asks;
                     last_update_id := ev_u event;
                     timestamp := now |};
     _last_u := ev_u event;
     _initialized := _initialized self |}.

(** Lines 106 to 108: the test that makes [process_update] return
    [False] after the mutation. *)
Definition crossed (ob : OrderBook) : bool :=
  if py.truthy_opt (best_bid ob) && py.truthy_opt (best_ask ob)
  then match best_bid ob, best_ask ob with
       | Some b, Some a => bool_decide (a ≤ b)
       | _, _ => false
       end
  else false.

Definition process_update (self : OrderBookManager) (event : DepthEvent)
    (now : Qc) : bool * OrderBookManager :=
  if negb (_initialized self) then (false, self)
  else
    let U := default (ev_u event) (ev_U event) in
    let u := ev_u event in
    let pu := default (_last_u self) (ev_pu event) in
    let rest :=
      let self' := apply_event self event now in
      if crossed (orderbook self') then (false, self')
      else (true, self') in
    if bool_decide (_last_u self = last_update_id (orderbook self)) then
      if negb (bool_decide (U ≤ _last_u self + 1)%Z
               && bool_decide (_last_u self + 1 ≤ u)%Z)
      then (false, self)
      else rest
    else
      if negb (bool_decide (pu = _last_u self)) then (false, self)
      else rest.

Definition get_snapshot (self : OrderBookManager) : OrderBook :=
  orderbook self.

(** A run of the manager over a feed: the answer and the manager after
    each call, in order. *)
Fixpoint run (self : OrderBookManager) (feed : list (DepthEvent * Qc))
  : list (bool * OrderBookManager) :=
  match feed with
  | [] => []
  | (event, now) :: feed' =>
      let r := process_update self event now in
      r :: run r.2 feed'
  end.

End orderbook.

(** ** ofi_calculator.py *)

Module ofi_calculator.

Record OFIState := {
  raw : Qc;
  ema : Qc;
  std : Qc;
  z_score : Qc;
  signal : string
}.

(** [OFIState()]: the dataclass defaults. *)
Definition OFIState_default : OFIState :=
  {| raw := 0; ema := 0; std := 1; z_score := 0; signal := "NEUTRAL" |}.

(** [{p: q for p, q in levels}]: a later pair with the same price wins. *)
Definition dict_of (levels : list (Qc * Qc)) : gmap Qc Qc :=
  foldl (λ acc pq, <[pq.1 := pq.2]> acc) ∅ levels.

(** The loop [for price in set(prev.keys()) | set(curr.keys())]. *)
Definition side_delta (prev curr : gmap Qc Qc) : Qc :=
  foldl (λ delta price,
           delta + (default 0 (curr !! price) - default 0 (prev !! price)))
        0 (elements (dom prev ∪ dom curr)).

Definition _get_signal (z_score : Qc) : string :=
  if bool_decide (py.lit 2 1 < z_score) then "STRONG_BUY"
  else if bool_decide (py.lit 1 1 < z_score) then "BUY"
  else if bool_decide (z_score < py.lit (-2) 1) then "STRONG_SELL"
  else if bool_decide (z_score < py.lit (-1) 1) then "SELL"
  else "NEUTRAL".

(** [deque.append] on a deque of capacity [maxlen]: the oldest entries
    leave on overflow, and a deque of capacity 0 stays empty. *)
Definition deque_append (maxlen : nat) (d : list Qc) (x : Qc) : list Qc :=
  let d' := d ++ [x] in
  drop (length d' - maxlen) d'.

Record OFICalculator := {
  depth : Z;
  ema_span : Z;
  alpha : Qc;
  _prev_bids : option (list (Qc * Qc));
  _prev_asks : option (list (Qc * Qc));
  _ema : Qc;
  _history : list Qc;
  maxlen : nat;
  _initialized : bool
}.

(** The constructor raises when [ema_span + 1] is zero (the division of
    [alpha]) and when [history_size] is negative (the deque): [None]. *)
Definition __init__ (depth ema_span history_size : Z) : option OFICalculator :=
  if bool_decide (ema_span + 1 = 0)%Z then None
  else if bool_decide (history_size < 0)%Z then None
  else Some {| depth := depth; ema_span := ema_span;
               alpha := py.lit 2 1 / Qc_of_Z (ema_span + 1);
               _prev_bids := None; _prev_asks := None;
               _ema := 0; _history := []; maxlen := Z.to_nat history_size;
               _initialized := false |}.

Definition _calculate_raw_ofi (self : OFICalculator)
    (bids asks : list (Qc * Qc)) : Qc :=
  let prev_bid_map := dict_of (default [] (_prev_bids self)) in
  let prev_ask_map := dict_of (default [] (_prev_asks self)) in
  let curr_bid_map := dict_of bids in
  let curr_ask_map := dict_of asks in
  let bid_delta := side_delta prev_bid_map curr_bid_map in
  let ask_delta := side_delta prev_ask_map curr_ask_map in
  bid_delta - ask_delta.

Definition pairs_of (levels : list orderbook.PriceLevel) : list (Qc * Qc) :=
  (λ l, (orderbook.price l, orderbook.quantity l)) <$> levels.

Section with_sqrt.

(** [math.sqrt]. *)
Variable sqrt : Qc → Qc.

Definition _std (values : list Qc) : Qc :=
  match values with
  | [] => 0
  | _ =>
      let n := Qc_of_Z (Z.of_nat (length values)) in
      let mean := py.sum values / n in
      let var := py.sum ((λ v, (v - mean) * (v - mean)) <$> values) / n in
      sqrt var
  end.

Definition update (self : OFICalculator) (ob : orderbook.OrderBook)
  : OFIState * OFICalculator :=
  let bids := pairs_of (py.slice_to (depth self) (orderbook.bids ob)) in
  let asks := pairs_of (py.slice_to (depth self) (orderbook.asks ob)) in
  match _prev_bids self with
  | None =>
      (OFIState_default,
       {| depth := depth self; ema_span := ema_span self;
          alpha := alpha self;
          _prev_bids := Some bids; _prev_asks := Some asks;
          _ema := _ema self; _history := _history self;
          maxlen := maxlen self; _initialized := _initialized self |})
  | Some _ =>
      let raw_ofi := _calculate_raw_ofi self bids asks in
      let ema' :=
        if negb (_initialized self) then raw_ofi
        else alpha self * raw_ofi + (1 - alpha self) * _ema self in
      let history' := deque_append (maxlen self) (_history self) raw_ofi in
      let '(std, z_score) :=
        if bool_decide (20 ≤ length history')%nat then
          let std := _std history' in
          (std, if bool_decide (0 < std) then ema' / std else 0)
        else (1, 0) in
      let signal := _get_signal z_score in
      ({| raw := raw_ofi; ema := ema'; std := std; z_score := z_score;
          signal := signal |},
       {| depth := depth self; ema_span := ema_span self;
          alpha := alpha self;
          _prev_bids := Some bids; _prev_asks := Some asks;
          _ema := ema'; _history := history';
          maxlen := maxlen self; _initialized := true |})
  end.

Definition reset (self : OFICalculator) : OFICalculator :=
  {| depth := depth self; ema_span := ema_span self; alpha := alpha self;
     _prev_bids := None; _prev_asks := None; _ema := 0; _history := [];
     maxlen := maxlen self; _initialized := false |}.

(** The calls of [update] on a sequence of snapshots: the state returned
    by each call and the calculator after it. *)
Fixpoint run (self : OFICalculator) (snapshots : list orderbook.OrderBook)
  : list (OFIState * OFICalculator) :=
  match snapshots with
  | [] => []
  | ob :: snapshots' =>
      let r := update self ob in
      r :: run r.2 snapshots'
  end.

End with_sqrt.

End ofi_calculator.

(** ** wall_tracker.py *)

Module wall_tracker.

Inductive WallSide := BID | ASK.

Global Instance WallSide_eq_dec : EqDecision WallSide.
Proof. solve_decision. Defined.

(** [side.value]. *)
Definition value (s : WallSide) : string :=
  match s with
  | BID => "bid"
  | ASK => "ask"
  end.

Record Wall := {
  price : Qc;
  side : WallSide;
  initial_qty : Qc;
  current_qty : Qc;
  first_seen : Qc;
  last_seen : Qc;
  replenish_count : Z;
  test_count : Z;
  peak_qty : Qc
}.

(** [Wall(price=, side=, initial_qty=, current_qty=, first_seen=,
    last_seen=)] with [__post_init__]. *)
Definition Wall_new (price : Qc) (side : WallSide)
    (initial_qty current_qty first_seen last_seen : Qc) : Wall :=
  {| price := price; side := side; initial_qty := initial_qty;
     current_qty := current_qty; first_seen := first_seen;
     last_seen := last_seen; replenish_count := 0%Z; test_count := 0%Z;
     peak_qty := py.max 0 initial_qty |}.

Definition age_minutes (w : Wall) (now : Qc) : Qc :=
  (now - first_seen w) / py.lit 60 1.

Section with_float.

Context {F : py.Float}.

Definition notional (w : Wall) : Qc := py.mul (price w) (current_qty w).

Definition health (w : Wall) : Qc :=
  if bool_decide (peak_qty w = 0) then 0
  else py.min 1 (current_qty w / peak_qty w).

Definition persistence_score (w : Wall) (now : Qc) : Qc :=
  if bool_decide (test_count w = 0)%Z then age_minutes w now * py.lit 5 10
  else
    let replenish_ratio :=
      Qc_of_Z (replenish_count w) / Qc_of_Z (Z.max 1 (test_count w)) in
    age_minutes w now * (1 + replenish_ratio).

(** [WALL_PARAMS.get(timeframe, WALL_PARAMS["1h"])]: the minimal age and
    the minimal persistence. *)
Definition WALL_PARAMS (timeframe : string) : Qc * Qc :=
  if bool_decide (timeframe = "4h") then (py.lit 120 1, py.lit 150 1)
  else if bool_decide (timeframe = "15min") then (py.lit 10 1, py.lit 15 1)
  else (py.lit 30 1, py.lit 40 1).

Definition is_real (w : Wall) (timeframe : string) (now : Qc) : bool :=
  let params := WALL_PARAMS timeframe in
  bool_decide (params.1 ≤ age_minutes w now)
  && bool_decide (params.2 ≤ persistence_score w now).

(** The dictionary of [to_dict], a field per key. *)
Record WallDict := {
  d_price : Qc;
  d_side : string;
  d_current_qty : Qc;
  d_notional : Qc;
  d_age_minutes : Qc;
  d_persistence_score : Qc;
  d_health : Qc;
  d_replenish_count : Z;
  d_test_count : Z
}.

Definition to_dict (w : Wall) (now : Qc) : WallDict :=
  {| d_price := price w;
     d_side := value (side w);
     d_current_qty := current_qty w;
     d_notional := notional w;
     d_age_minutes := py.round (age_minutes w now) 1;
     d_persistence_score := py.round (persistence_score w now) 1;
     d_health := py.round (health w) 2;
     d_replenish_count := replenish_count w;
     d_test_count := test_count w |}.

(** An event dictionary: ["type"], ["wall"] and, on a removal,
    ["reason"]. *)
Record WallEvent := {
  type : string;
  wall : WallDict;
  reason : option string
}.

(** The wall map: a Python dictionary, its items in insertion order. *)
Definition Key : Type := Qc * WallSide.

Fixpoint dict_get (d : list (Key * Wall)) (k : Key) : option Wall :=
  match d with
  | [] => None
  | (k', w) :: d' => if decide (k = k') then Some w else dict_get d' k
  end.

(** [d[k] = w]: a key already there keeps its place, a new key goes
    last. *)
Fixpoint dict_set (d : list (Key * Wall)) (k : Key) (w : Wall)
  : list (Key * Wall) :=
  match d with
  | [] => [(k, w)]
  | (k', w') :: d' =>
      if decide (k = k') then (k', w) :: d' else (k', w') :: dict_set d' k w
  end.

Definition dict_del (d : list (Key * Wall)) (k : Key) : list (Key * Wall) :=
  filter (λ kw, kw.1 ≠ k) d.

Record WallTracker := {
  symbol : string;
  threshold : Qc;
  walls : list (Key * Wall)
}.

Definition __init__ (symbol : string) (threshold_usd : Qc) : WallTracker :=
  {| symbol := symbol; threshold := threshold_usd; walls := [] |}.

Definition set_walls (self : WallTracker) (walls : list (Key * Wall))
  : WallTracker :=
  {| symbol := symbol self; threshold := threshold self; walls := walls |}.

(** The attribute assignments of the loop body, on the wall object. *)
Definition bump_replenish (w : Wall) : Wall :=
  {| price := price w; side := side w; initial_qty := initial_qty w;
     current_qty := current_qty w; first_seen := first_seen w;
     last_seen := last_seen w;
     replenish_count := (replenish_count w + 1)%Z;
     test_count := test_count w; peak_qty := peak_qty w |}.

Definition bump_test (w : Wall) : Wall :=
  {| price := price w; side := side w; initial_qty := initial_qty w;
     current_qty := current_qty w; first_seen := first_seen w;
     last_seen := last_seen w; replenish_count := replenish_count w;
     test_count := (test_count w + 1)%Z; peak_qty := peak_qty w |}.

Definition refresh (w : Wall) (qty now : Qc) : Wall :=
  {| price := price w; side := side w; initial_qty := initial_qty w;
     current_qty := qty; first_seen := first_seen w;
     last_seen := now; replenish_count := replenish_count w;
     test_count := test_count w; peak_qty := py.max (peak_qty w) qty |}.

(** The body of the loop of [_process_side] on one level: the wall map
    after it and the events it appends, or the exception of the division
    by a zero price, raised after the replenish count was written. *)
Definition process_level (threshold : Qc) (side : WallSide)
    (current_price : option Qc) (now : Qc)
    (walls : list (Key * Wall)) (level : orderbook.PriceLevel)
  : list (Key * Wall) * py.result (list WallEvent) :=
  let price := orderbook.price level in
  let qty := orderbook.quantity level in
  let notional := orderbook.notional level in
  let key := (price, side) in
  if bool_decide (threshold ≤ notional) then
    match dict_get walls key with
    | Some wall0 =>
        let old_qty := current_qty wall0 in
        let replenished :=
          bool_decide (py.mul old_qty (py.flt 12 10) < qty) in
        let wall1 := if replenished then bump_replenish wall0 else wall0 in
        let events :=
          if replenished
          then [ {| type := "WALL_REPLENISH"; wall := to_dict wall1 now;
                    reason := None |} ]
          else [] in
        match current_price with
        | Some cp =>
            if py.truthy cp then
              if bool_decide (price = 0)
              then (dict_set walls key wall1, py.Raise "ZeroDivisionError")
              else
                let distance := py.div (py.abs (py.sub cp price)) price in
                let wall2 :=
                  if bool_decide (distance < py.flt 3 1000)
                  then bump_test wall1 else wall1 in
                (dict_set walls key (refresh wall2 qty now), py.Ok events)
            else (dict_set walls key (refresh wall1 qty now), py.Ok events)
        | None => (dict_set walls key (refresh wall1 qty now), py.Ok events)
        end
    | None =>
        let wall0 := Wall_new price side qty qty now now in
        (dict_set walls key wall0,
         py.Ok [ {| type := "NEW_WALL"; wall := to_dict wall0 now;
                    reason := None |} ])
    end
  else (walls, py.Ok []).

Fixpoint _process_side (threshold : Qc) (now : Qc)
    (walls : list (Key * Wall)) (levels : list orderbook.PriceLevel)
    (side : WallSide) (current_price : option Qc)
  : list (Key * Wall) * py.result (list WallEvent) :=
  match levels with
  | [] => (walls, py.Ok [])
  | level :: levels' =>
      match process_level threshold side current_price now walls level with
      | (walls', py.Ok events) =>
          match _process_side threshold now walls' levels' side
                              current_price with
          | (walls'', py.Ok events') => (walls'', py.Ok (events ++ events'))
          | (walls'', py.Raise exn) => (walls'', py.Raise exn)
          end
      | (walls', py.Raise exn) => (walls', py.Raise exn)
      end
  end.

(** The keys of the levels of the book, [all_prices]. *)
Definition all_prices (ob : orderbook.OrderBook) : list Key :=
  ((λ l, (orderbook.price l, BID)) <$> orderbook.bids ob)
  ++ ((λ l, (orderbook.price l, ASK)) <$> orderbook.asks ob).

Definition removed_event (now : Qc) (kw : Key * Wall) : WallEvent :=
  {| type := "WALL_REMOVED";
     wall := to_dict kw.2 now;
     reason := Some (if bool_decide (0 < test_count kw.2)%Z
                     then "consumed" else "cancelled") |}.

Definition _cleanup_dead_walls (now : Qc) (walls : list (Key * Wall))
    (ob : orderbook.OrderBook) : list (Key * Wall) * list WallEvent :=
  let dead := filter (λ kw, kw.1 ∉ all_prices ob) walls in
  let events := removed_event now <$> dead in
  let dead_keys := dead.*1 in
  (foldl dict_del walls dead_keys, events).

Definition update (self : WallTracker) (ob : orderbook.OrderBook) (now : Qc)
  : WallTracker * py.result (list WallEvent) :=
  let current_price := orderbook.mid_price ob in
  match _process_side (threshold self) now (walls self)
                      (orderbook.bids ob) BID current_price with
  | (walls1, py.Raise exn) => (set_walls self walls1, py.Raise exn)
  | (walls1, py.Ok events1) =>
      match _process_side (threshold self) now walls1
                          (orderbook.asks ob) ASK current_price with
      | (walls2, py.Raise exn) => (set_walls self walls2, py.Raise exn)
      | (walls2, py.Ok events2) =>
          let '(walls3, events3) := _cleanup_dead_walls now walls2 ob in
          (set_walls self walls3, py.Ok (events1 ++ events2 ++ events3))
      end
  end.

(** The calls of [update] on a sequence of snapshots with their clock
    readings: the tracker after the last call. *)
Definition run (self : WallTracker) (feed : list (orderbook.OrderBook * Qc))
  : WallTracker :=
  foldl (λ t obn, (update t obn.1 obn.2).1) self feed.

(** [sorted(ws, key=lambda w: w.persistence_score, reverse=True)]: the
    stable sort by descending score; a wall goes before the walls that came
    after it in [ws] and score no more than it. *)
Fixpoint insert_by_score (now : Qc) (w : Wall) (ws : list Wall) : list Wall :=
  match ws with
  | [] => [w]
  | w' :: ws' =>
      if bool_decide (persistence_score w now < persistence_score w' now)
      then w' :: insert_by_score now w ws'
      else w :: ws
  end.

Definition sorted_by_score (now : Qc) (ws : list Wall) : list Wall :=
  foldr (insert_by_score now) [] ws.

Definition get_real_walls (self : WallTracker) (timeframe : string) (now : Qc)
  : list Wall :=
  filter (λ w, is_real w timeframe now = true) (walls self).*2.

(** The dictionary of [get_wall_map], a field per key. *)
Record WallMap := {
  m_timeframe : string;
  m_timestamp : Qc;
  bid_walls : list WallDict;
  ask_walls : list WallDict;
  total_bid_walls : nat;
  total_ask_walls : nat
}.

(** The sorted lists of [get_wall_map], before the cut to five. *)
Definition ranked_walls (self : WallTracker) (timeframe : string) (now : Qc)
    (s : WallSide) : list Wall :=
  sorted_by_score now
    (filter (λ w, side w = s) (get_real_walls self timeframe now)).

Definition get_wall_map (self : WallTracker) (timeframe : string) (now : Qc)
  : WallMap :=
  let bid_walls := ranked_walls self timeframe now BID in
  let ask_walls := ranked_walls self timeframe now ASK in
  {| m_timeframe := timeframe;
     m_timestamp := now;
     bid_walls := (λ w, to_dict w now) <$> py.slice_to 5 bid_walls;
     ask_walls := (λ w, to_dict w now) <$> py.slice_to 5 ask_walls;
     total_bid_walls := length bid_walls;
     total_ask_walls := length ask_walls |}.

End with_float.

End wall_tracker.

(** ** collector.py *)

(** The part of [DataCollector] between the decoded message and the
    callbacks: [_handle_message] takes the stream name and the event of the
    message, the clock reading, the REST answer that [initialize] would get
    ([None] when the request raises) and the ISO time stamp, and gives the
    collector after the call and the record that every callback receives,
    if one is built.  [str.upper] is a parameter. *)

Module collector.

Record BookSummary := {
  s_best_bid : option Qc;
  s_best_ask : option Qc;
  s_mid_price : option Qc;
  s_spread_bps : option Qc
}.

Record UpdateData := {
  u_symbol : string;
  u_timestamp : string;
  u_orderbook : BookSummary;
  u_ofi : ofi_calculator.OFIState;
  u_wall_events : list wall_tracker.WallEvent;
  u_wall_map_4h : wall_tracker.WallMap;
  u_wall_map_1h : wall_tracker.WallMap;
  u_wall_map_15min : wall_tracker.WallMap
}.

Record DataCollector := {
  symbols : list string;
  thresholds : gmap string Qc;
  managers : gmap string orderbook.OrderBookManager;
  wall_trackers : gmap string wall_tracker.WallTracker;
  ofi_calculators : gmap string ofi_calculator.OFICalculator;
  _running : bool
}.

(** One turn of the loop of the constructor; [rest_base] is the REST
    address the managers read from the environment. *)
Definition add_symbol (rest_base : string) (acc : option DataCollector)
    (symbol : string) : option DataCollector :=
  self ← acc;
  calc ← ofi_calculator.__init__ 10 20 100;
  let threshold := default (py.lit 200000 1) (thresholds self !! symbol) in
  Some {| symbols := symbols self; thresholds := thresholds self;
          managers :=
            <[symbol := orderbook.__init__ rest_base symbol 20 None]>
              (managers self);
          wall_trackers :=
            <[symbol := wall_tracker.__init__ symbol threshold]>
              (wall_trackers self);
          ofi_calculators := <[symbol := calc]> (ofi_calculators self);
          _running := _running self |}.

Definition __init__ (rest_base : string) (symbols : list string)
    (thresholds : gmap string Qc) : option DataCollector :=
  foldl (add_symbol rest_base)
        (Some {| symbols := symbols; thresholds := thresholds;
                 managers := ∅; wall_trackers := ∅; ofi_calculators := ∅;
                 _running := false |})
        symbols.

Import Stdlib.Strings.Ascii.

(** [stream.split("@")[0]]. *)
Fixpoint before_at (stream : string) : string :=
  match stream with
  | EmptyString => EmptyString
  | String c rest =>
      if bool_decide (c = "@"%char) then EmptyString
      else String c (before_at rest)
  end.

Definition set_manager (self : DataCollector) (symbol : string)
    (m : orderbook.OrderBookManager) : DataCollector :=
  {| symbols := symbols self; thresholds := thresholds self;
     managers := <[symbol := m]> (managers self);
     wall_trackers := wall_trackers self;
     ofi_calculators := ofi_calculators self;
     _running := _running self |}.

Definition set_wall_tracker (self : DataCollector) (symbol : string)
    (t : wall_tracker.WallTracker) : DataCollector :=
  {| symbols := symbols self; thresholds := thresholds self;
     managers := managers self;
     wall_trackers := <[symbol := t]> (wall_trackers self);
     ofi_calculators := ofi_calculators self;
     _running := _running self |}.

Definition set_ofi_calculator (self : DataCollector) (symbol : string)
    (c : ofi_calculator.OFICalculator) : DataCollector :=
  {| symbols := symbols self; thresholds := thresholds self;
     managers := managers self;
     wall_trackers := wall_trackers self;
     ofi_calculators := <[symbol := c]> (ofi_calculators self);
     _running := _running self |}.

Definition summary {F : py.Float} (ob : orderbook.OrderBook) : BookSummary :=
  {| s_best_bid := orderbook.best_bid ob;
     s_best_ask := orderbook.best_ask ob;
     s_mid_price := orderbook.mid_price ob;
     s_spread_bps := orderbook.spread_bps ob |}.

Section with_library.

(** [math.sqrt] and [str.upper]. *)
Variables (sqrt : Qc → Qc) (upper : string → string).

Context {F : py.Float}.

Definition _handle_message (self : DataCollector) (stream : string)
    (event : orderbook.DepthEvent) (now : Qc)
    (rest : option orderbook.DepthSnapshot) (stamp : string)
  : DataCollector * option UpdateData :=
  let symbol := upper (before_at stream) in
  match managers self !! symbol with
  | None => (self, None)
  | Some manager =>
      let '(success, manager) := orderbook.process_update manager event now in
      let self := set_manager self symbol manager in
      if negb success then
        match rest with
        | Some data =>
            (set_manager self symbol (orderbook.initialize manager data now),
             None)
        | None => (self, None)
        end
      else
        let ob := orderbook.get_snapshot manager in
        match wall_trackers self !! symbol with
        | None => (self, None)
        | Some tracker =>
            match wall_tracker.update tracker ob now with
            | (tracker, py.Raise _) =>
                (set_wall_tracker self symbol tracker, None)
            | (tracker, py.Ok wall_events) =>
                let self := set_wall_tracker self symbol tracker in
                match ofi_calculators self !! symbol with
                | None => (self, None)
                | Some calc =>
                    let '(ofi_state, calc) :=
                      ofi_calculator.update sqrt calc ob in
                    let self := set_ofi_calculator self symbol calc in
                    (self,
                     Some {| u_symbol := symbol;
                             u_timestamp := stamp;
                             u_orderbook := summary ob;
                             u_ofi := ofi_state;
                             u_wall_events := wall_events;
                             u_wall_map_4h :=
                               wall_tracker.get_wall_map tracker "4h" now;
                             u_wall_map_1h :=
                               wall_tracker.get_wall_map tracker "1h" now;
                             u_wall_map_15min :=
                               wall_tracker.get_wall_map tracker "15min" now
                          |})
                end
            end
        end
  end.

Definition stop (self : DataCollector) : DataCollector :=
  {| symbols := symbols self; thresholds := thresholds self;
     managers := managers self; wall_trackers := wall_trackers self;
     ofi_calculators := ofi_calculators self; _running := false |}.

End with_library.

End collector.

(** * Vocabulary of the statements *)

(** ** The book *)

Module book_spec.
Import orderbook.

(** The ids the ordering test compares, as [process_update] reads them. *)
Definition first_id (e : DepthEvent) : Z := default (ev_u e) (ev_U e).
Definition prev_id (m : OrderBookManager) (e : DepthEvent) : Z :=
  default (_last_u m) (ev_pu e).

(** The book as [initialize] and every applied event leave it. *)
Definition synced (m : OrderBookManager) : Prop :=
  _last_u m = last_update_id (orderbook m).

(** The ordering policy, in the words of the specification. *)
Definition ordering_predicate (m : OrderBookManager) (e : DepthEvent) : Prop :=
  (synced m ∧ (first_id e ≤ _last_u m + 1)%Z ∧ (_last_u m + 1 ≤ ev_u e)%Z)
  ∨ (¬ synced m ∧ prev_id m e = _last_u m).

Global Instance synced_dec m : Decision (synced m).
Proof. unfold synced. apply _. Defined.

Global Instance ordering_predicate_dec m e : Decision (ordering_predicate m e).
Proof. unfold ordering_predicate. apply _. Defined.

(** What [process_update] returns when it applies the event. *)
Definition applied_result (m : OrderBookManager) (e : DepthEvent) (now : Qc)
  : bool * OrderBookManager :=
  let m' := apply_event m e now in
  (negb (crossed (orderbook m')), m').

(** Every event of the feed meets the ordering policy on the book it
    finds. *)
Fixpoint in_order (m : OrderBookManager) (feed : list (DepthEvent * Qc))
  : Prop :=
  match feed with
  | [] => True
  | (e, now) :: feed' =>
      ordering_predicate m e ∧ in_order (process_update m e now).2 feed'
  end.

(** No event of the feed leaves the book crossed. *)
Fixpoint never_crossed (m : OrderBookManager) (feed : list (DepthEvent * Qc))
  : Prop :=
  match feed with
  | [] => True
  | (e, now) :: feed' =>
      crossed (orderbook (apply_event m e now)) = false
      ∧ never_crossed (process_update m e now).2 feed'
  end.

Global Instance in_order_dec m feed : Decision (in_order m feed).
Proof.
  revert m. induction feed as [|[e now] feed IH]; intros m; simpl; apply _.
Defined.

Global Instance never_crossed_dec m feed : Decision (never_crossed m feed).
Proof.
  revert m. induction feed as [|[e now] feed IH]; intros m; simpl; apply _.
Defined.

(** The ids of the book before the feed and after each call. *)
Definition ids (m : OrderBookManager) (feed : list (DepthEvent * Qc))
  : list Z :=
  last_update_id (orderbook m)
  :: ((λ r : bool * OrderBookManager, last_update_id (orderbook r.2))
        <$> run m feed).

(** The data model: the price of a level is positive. *)
Definition positive_levels (l : list PriceLevel) : Prop :=
  Forall (λ x, 0 < price x) l.
Definition positive_book (ob : OrderBook) : Prop :=
  positive_levels (bids ob) ∧ positive_levels (asks ob).

Global Instance positive_levels_dec l : Decision (positive_levels l).
Proof. unfold positive_levels. apply _. Defined.
Global Instance positive_book_dec ob : Decision (positive_book ob).
Proof. unfold positive_book. apply _. Defined.

(** No price is zero: the price that the tests of the code read as an
    absent one. *)
Definition nonzero_prices (l : list PriceLevel) : Prop :=
  Forall (λ x, price x ≠ 0) l.
Definition nonzero_entries (l : list (Qc * Qc)) : Prop :=
  Forall (λ pq : Qc * Qc, pq.1 ≠ 0) l.
Definition nonzero_event (e : DepthEvent) : Prop :=
  nonzero_entries (ev_b e) ∧ nonzero_entries (ev_a e).
Definition nonzero_book (ob : OrderBook) : Prop :=
  nonzero_prices (bids ob) ∧ nonzero_prices (asks ob).

Global Instance nonzero_prices_dec l : Decision (nonzero_prices l).
Proof. unfold nonzero_prices. apply _. Defined.
Global Instance nonzero_entries_dec l : Decision (nonzero_entries l).
Proof. unfold nonzero_entries. apply _. Defined.
Global Instance nonzero_event_dec e : Decision (nonzero_event e).
Proof. unfold nonzero_event. apply _. Defined.
Global Instance nonzero_book_dec ob : Decision (nonzero_book ob).
Proof. unfold nonzero_book. apply _. Defined.

(** The invariants of the book. *)
Definition strictly_descending (l : list PriceLevel) : Prop :=
  StronglySorted (λ x y, price y < price x) l.
Definition strictly_ascending (l : list PriceLevel) : Prop :=
  StronglySorted (λ x y, price x < price y) l.

Record book_invariant (ob : OrderBook) : Prop := {
  bids_descending : strictly_descending (bids ob);
  asks_ascending : strictly_ascending (asks ob);
  bids_unique : NoDup (price <$> bids ob);
  asks_unique : NoDup (price <$> asks ob);
  not_crossed : ∀ b a, best_bid ob = Some b → best_ask ob = Some a → b < a
}.

(** Every level sits in the price map under its own price. *)
Definition keyed (price_map : gmap Qc PriceLevel) : Prop :=
  ∀ k v, price_map !! k = Some v → price v = k.

(** Every level of the price map has the property [P]. *)
Definition all_values (P : PriceLevel → Prop) (pm : gmap Qc PriceLevel)
  : Prop :=
  ∀ k v, pm !! k = Some v → P v.

End book_spec.

(** ** The OFI calculator *)

Module ofi_spec.
Import ofi_calculator.


End ofi_spec.

(** ** The wall tracker *)

Module walls_spec.
Import wall_tracker.

Section with_float.

Context {F : py.Float}.

Definition side_levels (s : WallSide) (ob : orderbook.OrderBook)
  : list orderbook.PriceLevel :=
  match s with
  | BID => orderbook.bids ob
  | ASK => orderbook.asks ob
  end.

(** The event is about the wall of key [k]. *)
Definition about (k : Key) (ev : WallEvent) : Prop :=
  d_price (wall ev) = k.1 ∧ d_side (wall ev) = value k.2.

Global Instance about_dec k ev : Decision (about k ev).
Proof. unfold about. apply _. Defined.

(** The events of type [T] about the wall of key [k]. *)
Definition events_about (T : string) (k : Key) (evs : list WallEvent)
  : list WallEvent :=
  filter (λ ev, type ev = T ∧ about k ev) evs.

(** The level is a wall: its price is [p] and its notional meets the
    threshold. *)
Definition wall_level (threshold p : Qc) (l : orderbook.PriceLevel) : Prop :=
  orderbook.price l = p ∧ threshold ≤ orderbook.notional l.

Global Instance wall_level_dec threshold p l :
  Decision (wall_level threshold p l).
Proof. unfold wall_level. apply _. Defined.

(** The tests of the loop body, on the tracked wall [w], the new quantity
    and the mid price of the snapshot. *)
Definition replenished (w : Wall) (qty : Qc) : bool :=
  bool_decide (py.mul (current_qty w) (py.flt 12 10) < qty).

Definition one_if (b : bool) : Z := if b then 1%Z else 0%Z.

(** The test on the mid price as the loop body makes it: the mid price is
    there, a zero one counting as none, and its distance to the price,
    relative to the price, is below 0.003. *)
Definition market_test (current_price : option Qc) (p : Qc) : bool :=
  match current_price with
  | Some cp =>
      py.truthy cp
      && bool_decide (py.div (py.abs (py.sub cp p)) p < py.flt 3 1000)
  | None => false
  end.

Definition tested (ob : orderbook.OrderBook) (p : Qc) : bool :=
  market_test (orderbook.mid_price ob) p.

(** The tracked wall after the loop body. *)
Definition updated_wall (w : Wall) (current_price : option Qc)
    (p qty now : Qc) : Wall :=
  let w1 := if replenished w qty then bump_replenish w else w in
  let w2 := if market_test current_price p then bump_test w1 else w1 in
  refresh w2 qty now.

Definition replenish_event (w : Wall) (now : Qc) : WallEvent :=
  {| type := "WALL_REPLENISH"; wall := to_dict (bump_replenish w) now;
     reason := None |}.

Definition new_wall_event (p : Qc) (s : WallSide) (qty now : Qc) : WallEvent :=
  {| type := "NEW_WALL"; wall := to_dict (Wall_new p s qty qty now now) now;
     reason := None |}.

(** The wall map is a dictionary, and every wall sits under its own price
    and side. *)
Definition wf_walls (d : list (Key * Wall)) : Prop :=
  NoDup d.*1 ∧ Forall (λ kw : Key * Wall, (price kw.2, side kw.2) = kw.1) d.

(** The events that the calls of [update] on a feed return, in order. *)
Fixpoint emitted (t : WallTracker) (feed : list (orderbook.OrderBook * Qc))
  : list WallEvent :=
  match feed with
  | [] => []
  | (ob, now) :: feed' =>
      let r := update t ob now in
      match r.2 with
      | py.Ok evs => evs
      | py.Raise _ => []
      end ++ emitted r.1 feed'
  end.

(** The births and the removals of the wall of key [k] among the events:
    their types, in order. *)
Definition life (k : Key) (evs : list WallEvent) : list string :=
  type <$> filter (λ ev, about k ev
                         ∧ (type ev = "NEW_WALL" ∨ type ev = "WALL_REMOVED"))
                  evs.

(** Births and removals take turns: a removal comes next for a tracked
    wall, a birth for an untracked one. *)
Fixpoint alternates (tracked : bool) (types : list string) : Prop :=
  match types with
  | [] => True
  | T :: types' =>
      T = (if tracked then "WALL_REMOVED" else "NEW_WALL")
      ∧ alternates (negb tracked) types'
  end.

Global Instance alternates_dec tracked types :
  Decision (alternates tracked types).
Proof.
  revert tracked. induction types as [|T types IH]; intros tracked; simpl;
    apply _.
Defined.

End with_float.

End walls_spec.

(** ** More vocabulary: the sides of the book *)

Module book_facts.
Import orderbook.

(** The quantity of the last entry of [updates] at price [p]. *)
Definition last_entry (p : Qc) (updates : list (Qc * Qc)) : option Qc :=
  foldl (λ acc pq, if decide (pq.1 = p) then Some pq.2 else acc)
        None updates.

(** The last level of [side] at price [p]. *)
Definition last_level (p : Qc) (side : list PriceLevel) : option PriceLevel :=
  foldl (λ acc l, if decide (price l = p) then Some l else acc) None side.

(** The level at price [p] once [updates] are written over [side]: the
    last entry at [p] decides, a zero quantity deleting the level; without
    an entry the last level of the side at [p] stays. *)
Definition expected_level (p : Qc) (updates : list (Qc * Qc))
    (side : list PriceLevel) : option PriceLevel :=
  match last_entry p updates with
  | Some q =>
      if decide (q = 0) then None else Some {| price := p; quantity := q |}
  | None => last_level p side
  end.

(** The side in the order of [sorted(..., reverse=reverse)], prices
    pairwise different. *)
Definition strictly_sorted (reverse : bool) (side : list PriceLevel) : Prop :=
  if reverse then book_spec.strictly_descending side
  else book_spec.strictly_ascending side.

(** The side [new] is the side [old] with [updates] written over it, in
    the order of the book: it is strictly sorted, and a level is on it
    exactly when it is what the last write at its price leaves. *)
Definition written (updates : list (Qc * Qc)) (old new : list PriceLevel)
    (reverse : bool) : Prop :=
  strictly_sorted reverse new
  ∧ ∀ l, l ∈ new ↔ expected_level (price l) updates old = Some l.

(** The number of levels that the slice [merged[:depth]] keeps: [depth] of
    them, or all but the last [-depth] for a negative [depth]. *)
Definition kept (depth : Z) (merged : list PriceLevel) : nat :=
  if bool_decide (0 ≤ depth)%Z then Z.to_nat depth
  else (length merged - Z.to_nat (- depth))%nat.

(** The event with its ["pu"] replaced. *)
Definition with_pu (e : DepthEvent) (pu : option Z) : DepthEvent :=
  {| ev_U := ev_U e; ev_u := ev_u e; ev_pu := pu;
     ev_b := ev_b e; ev_a := ev_a e |}.

(** No level of the side has a quantity of zero. *)
Definition nonzero_quantities (side : list PriceLevel) : Prop :=
  Forall (λ l, quantity l ≠ 0) side.

Global Instance nonzero_quantities_dec side :
  Decision (nonzero_quantities side).
Proof. unfold nonzero_quantities. apply _. Defined.

(** The manager after the calls of [process_update] on a feed. *)
Definition after_feed (m : OrderBookManager) (feed : list (DepthEvent * Qc))
  : OrderBookManager :=
  foldl (λ m en, (process_update m en.1 en.2).2) m feed.

End book_facts.

(** ** More vocabulary: the OFI calculator *)

Module ofi_facts.
Import ofi_calculator.

(** Sums in the order of a loop, and the total of a price map. *)
Definition sum_over {A} (f : A → Qc) (xs : list A) : Qc :=
  foldl (λ δ x, δ + f x) 0 xs.

Definition map_total (m : gmap Qc Qc) : Qc :=
  sum_over snd (map_to_list m).

(** The pairs [update] reads from a snapshot. *)
Definition top_bids (c : OFICalculator) (ob : orderbook.OrderBook)
  : list (Qc * Qc) :=
  pairs_of (py.slice_to (depth c) (orderbook.bids ob)).
Definition top_asks (c : OFICalculator) (ob : orderbook.OrderBook)
  : list (Qc * Qc) :=
  pairs_of (py.slice_to (depth c) (orderbook.asks ob)).

(** The last [n] entries of a list. *)
Definition keep_last {A} (n : nat) (l : list A) : list A :=
  drop (length l - n) l.

(** The raw values of the calls after the first one. *)
Definition raws (results : list (OFIState * OFICalculator)) : list Qc :=
  (λ rc : OFIState * OFICalculator, raw rc.1) <$> drop 1 results.

(** The signal of the opposite pressure. *)
Definition mirror (signal : string) : string :=
  if bool_decide (signal = "STRONG_BUY") then "STRONG_SELL"
  else if bool_decide (signal = "BUY") then "SELL"
  else if bool_decide (signal = "SELL") then "BUY"
  else if bool_decide (signal = "STRONG_SELL") then "STRONG_BUY"
  else signal.

End ofi_facts.

(** ** More vocabulary: the wall tracker *)

Module walls_facts.
Import wall_tracker.

Section with_float.

Context {F : py.Float}.

(** The number of events of type [T]. *)
Definition count_type (T : string) (evs : list WallEvent) : nat :=
  length (filter (λ ev, type ev = T) evs).

(** What holds of an item of the wall map: the wall sits under its own
    price and side, is still as large as the threshold, has not outgrown its
    peak, and its counters are counts. *)
Definition sound_wall (threshold : Qc) (kw : Key * Wall) : Prop :=
  (price kw.2, side kw.2) = kw.1
  ∧ threshold ≤ notional kw.2
  ∧ current_qty kw.2 ≤ peak_qty kw.2
  ∧ initial_qty kw.2 ≤ peak_qty kw.2
  ∧ (0 ≤ replenish_count kw.2)%Z
  ∧ (0 ≤ test_count kw.2)%Z.

(** [w1] may stand before [w2] in a list sorted by descending score. *)
Definition by_score (now : Qc) (w1 w2 : Wall) : Prop :=
  persistence_score w2 now ≤ persistence_score w1 now.

(** The two sides of the wall map. *)
Definition shown_walls (m : WallMap) (s : WallSide) : list WallDict :=
  match s with
  | BID => bid_walls m
  | ASK => ask_walls m
  end.

Definition total_walls (m : WallMap) (s : WallSide) : nat :=
  match s with
  | BID => total_bid_walls m
  | ASK => total_ask_walls m
  end.

End with_float.

End walls_facts.

(** ** More vocabulary: the collector *)

Module collector_facts.
Import collector.

(** A decoded message, with what the call reads from outside. *)
Record Message := {
  msg_stream : string;
  msg_event : orderbook.DepthEvent;
  msg_now : Qc;
  msg_rest : option orderbook.DepthSnapshot;
  msg_stamp : string
}.

Section with_library.

Variables (sqrt : Qc → Qc) (upper : string → string).

Context {F : py.Float}.

(** The collector after the calls of [_handle_message] on the messages of
    the socket, in order. *)
Definition after_messages (self : DataCollector) (msgs : list Message)
  : DataCollector :=
  foldl (λ c msg, (_handle_message sqrt upper c (msg_stream msg)
                     (msg_event msg) (msg_now msg) (msg_rest msg)
                     (msg_stamp msg)).1)
        self msgs.

End with_library.

(** Every symbol with a manager has a wall tracker of positive threshold
    and a calculator. *)
Definition registered (self : DataCollector) : Prop :=
  ∀ symbol, is_Some (managers self !! symbol) →
    (∃ t, wall_trackers self !! symbol = Some t
          ∧ 0 < wall_tracker.threshold t)
    ∧ is_Some (ofi_calculators self !! symbol).

(** The manager holds the book of the REST answer. *)
Definition book_of_snapshot (m : orderbook.OrderBookManager)
    (data : orderbook.DepthSnapshot) : Prop :=
  orderbook.bids (orderbook.orderbook m)
  = orderbook.level_of <$> orderbook.snap_bids data
  ∧ orderbook.asks (orderbook.orderbook m)
    = orderbook.level_of <$> orderbook.snap_asks data
  ∧ orderbook.last_update_id (orderbook.orderbook m)
    = orderbook.lastUpdateId data
  ∧ orderbook._last_u m = orderbook.lastUpdateId data
  ∧ orderbook._initialized m = true.

End collector_facts.

(** * Worked inputs *)

(** The scenarios of the specification and a few inputs next to them. *)

Module examples.

#[local] Existing Instance py.exact.

Definition level (p q : Qc) : orderbook.PriceLevel :=
  {| orderbook.price := p; orderbook.quantity := q |}.

(** The REST snapshot of the scenarios: id 100, bids 10.0 and 9.9, one
    ask at 10.1. *)
Definition snapshot : orderbook.DepthSnapshot :=
  {| orderbook.lastUpdateId := 100;
     orderbook.snap_bids := [(py.lit 10 1, py.lit 1 1);
                             (py.lit 99 10, py.lit 2 1)];
     orderbook.snap_asks := [(py.lit 101 10, py.lit 15 10)] |}.

Definition fresh_manager : orderbook.OrderBookManager :=
  orderbook.__init__ "https://fapi.binance.com" "BTCUSDT" 20 None.

Definition manager : orderbook.OrderBookManager :=
  orderbook.initialize fresh_manager snapshot (py.lit 1000 1).

(** Scenario 1: the first event after the snapshot. *)
Definition first_event : orderbook.DepthEvent :=
  {| orderbook.ev_U := Some 101%Z; orderbook.ev_u := 103%Z;
     orderbook.ev_pu := Some 100%Z;
     orderbook.ev_b := [(py.lit 99 10, py.lit 0 1)];
     orderbook.ev_a := [(py.lit 102 10, py.lit 5 10)] |}.

(** Scenario 2: an event that starts after id 101. *)
Definition gap_event : orderbook.DepthEvent :=
  {| orderbook.ev_U := Some 105%Z; orderbook.ev_u := 107%Z;
     orderbook.ev_pu := Some 104%Z;
     orderbook.ev_b := []; orderbook.ev_a := [] |}.

(** The event after it, and the feed of the two. *)
Definition next_event : orderbook.DepthEvent :=
  {| orderbook.ev_U := Some 104%Z; orderbook.ev_u := 106%Z;
     orderbook.ev_pu := Some 103%Z;
     orderbook.ev_b := [(py.lit 10 1, py.lit 3 1)];
     orderbook.ev_a := [] |}.

Definition feed : list (orderbook.DepthEvent * Qc) :=
  [(first_event, py.lit 1001 1); (next_event, py.lit 1002 1)].

(** An event in order that bids 11 against the ask at 10.1. *)
Definition crossing_event : orderbook.DepthEvent :=
  {| orderbook.ev_U := Some 101%Z; orderbook.ev_u := 103%Z;
     orderbook.ev_pu := Some 100%Z;
     orderbook.ev_b := [(py.lit 11 1, py.lit 1 1)];
     orderbook.ev_a := [] |}.


Definition no_pu_event : orderbook.DepthEvent :=
  {| orderbook.ev_U := Some 40%Z; orderbook.ev_u := 50%Z;
     orderbook.ev_pu := None;
     orderbook.ev_b := []; orderbook.ev_a := [] |}.

(** A manager whose [_last_u] ran ahead of the id of its book. *)
Definition unsynced_manager : orderbook.OrderBookManager :=
  {| orderbook.m_symbol := "BTCUSDT"; orderbook.depth := 20;
     orderbook.rest_url := "https://fapi.binance.com";
     orderbook.orderbook := orderbook.orderbook manager;
     orderbook._last_u := 103;
     orderbook._initialized := true |}.

(** Scenario 4: a bid wall at 100, born with 3000, then seen with 4000
    under an ask at 100.1, then with 1000. *)
Definition book (bids asks : list orderbook.PriceLevel) : orderbook.OrderBook :=
  {| orderbook.symbol := "BTCUSDT"; orderbook.bids := bids;
     orderbook.asks := asks; orderbook.last_update_id := 0;
     orderbook.timestamp := 0 |}.

Definition wall_born : orderbook.OrderBook :=
  book [level (py.lit 100 1) (py.lit 3000 1)] [].
Definition wall_grown : orderbook.OrderBook :=
  book [level (py.lit 100 1) (py.lit 4000 1)]
       [level (py.lit 1001 10) (py.lit 1 1)].
Definition wall_thin : orderbook.OrderBook :=
  book [level (py.lit 100 1) (py.lit 1000 1)] [].

Definition born_wall : wall_tracker.Wall :=
  wall_tracker.Wall_new (py.lit 100 1) wall_tracker.BID
                        (py.lit 3000 1) (py.lit 3000 1)
                        (py.lit 1 1) (py.lit 1 1).

(** The types and reasons of the events a call returned. *)
Definition kinds (r : py.result (list wall_tracker.WallEvent))
  : list (string * option string) :=
  match r with
  | py.Ok evs => (λ ev, (wall_tracker.type ev, wall_tracker.reason ev)) <$> evs
  | py.Raise _ => []
  end.

(** A square root to three decimals, for runs of the calculator. *)
Definition sqrt3 (x : Qc) : Qc :=
  Q2Qc (Z.sqrt (Qnum (this x) * 1000000 `div` Z.pos (Qden (this x)))
        # 1000).

Definition calculator : ofi_calculator.OFICalculator :=
  {| ofi_calculator.depth := 10; ofi_calculator.ema_span := 20;
     ofi_calculator.alpha := py.lit 2 1 / Qc_of_Z (20 + 1);
     ofi_calculator._prev_bids := None; ofi_calculator._prev_asks := None;
     ofi_calculator._ema := 0; ofi_calculator._history := [];
     ofi_calculator.maxlen := Z.to_nat 100;
     ofi_calculator._initialized := false |}.

End examples.

(** Inputs for the further properties: the tracker and the collector of
    one symbol, an upper-casing of ASCII letters, and the first messages of
    the depth stream. *)

Module more_examples.
Import Stdlib.Strings.Ascii.

#[local] Existing Instance py.exact.

Definition upper_char (c : ascii) : ascii :=
  let n := nat_of_ascii c in
  if bool_decide (97 ≤ n ≤ 122)%nat then ascii_of_nat (n - 32) else c.

Fixpoint upper (s : string) : string :=
  match s with
  | EmptyString => EmptyString
  | String c rest => String (upper_char c) (upper rest)
  end.

Definition tracker : wall_tracker.WallTracker :=
  wall_tracker.__init__ "BTCUSDT" (py.lit 200000 1).

Definition rest_base : string := "https://fapi.binance.com".

Definition collector0 : collector.DataCollector :=
  {| collector.symbols := ["BTCUSDT"];
     collector.thresholds := ∅;
     collector.managers :=
       <["BTCUSDT" := orderbook.__init__ rest_base "BTCUSDT" 20 None]> ∅;
     collector.wall_trackers := <["BTCUSDT" := tracker]> ∅;
     collector.ofi_calculators := <["BTCUSDT" := examples.calculator]> ∅;
     collector._running := false |}.

Definition stream : string := "btcusdt@depth20@500ms".

(** The first message finds the manager not initialized, so the call asks
    for the snapshot. *)
Definition first_message : collector_facts.Message :=
  {| collector_facts.msg_stream := stream;
     collector_facts.msg_event := examples.gap_event;
     collector_facts.msg_now := py.lit 1000 1;
     collector_facts.msg_rest := Some examples.snapshot;
     collector_facts.msg_stamp := "2024-01-01T00:00:00" |}.

Definition collector1 : collector.DataCollector :=
  collector_facts.after_messages examples.sqrt3 upper collector0
                                 [first_message].

(** The manager after the first event of the feed: both ids are 103. *)
Definition after_first : orderbook.OrderBookManager :=
  (orderbook.process_update examples.manager examples.first_event
                            (py.lit 1001 1)).2.

(** Later events: one whose ["pu"] is not the stored id, one whose ["pu"]
    is the stored id and whose ["U"] leaves a gap, and the latter without
    ["pu"]. *)
Definition wrong_pu_event : orderbook.DepthEvent :=
  {| orderbook.ev_U := Some 104%Z; orderbook.ev_u := 106%Z;
     orderbook.ev_pu := Some 999%Z;
     orderbook.ev_b := [(py.lit 10 1, py.lit 3 1)];
     orderbook.ev_a := [] |}.



(** A snapshot whose ask is priced zero, and an event in order on it. *)
Definition zero_ask_snapshot : orderbook.DepthSnapshot :=
  {| orderbook.lastUpdateId := 100;
     orderbook.snap_bids := [(py.lit 1 1, py.lit 1 1)];
     orderbook.snap_asks := [(0, py.lit 1 1)] |}.

Definition zero_ask_manager : orderbook.OrderBookManager :=
  orderbook.initialize examples.fresh_manager zero_ask_snapshot
                       (py.lit 1000 1).

Definition quiet_event : orderbook.DepthEvent :=
  {| orderbook.ev_U := Some 101%Z; orderbook.ev_u := 101%Z;
     orderbook.ev_pu := Some 100%Z;
     orderbook.ev_b := [(py.lit 1 1, py.lit 2 1)];
     orderbook.ev_a := [] |}.

(** A book of depth 1 and an event that bids above its ask. *)
Definition shallow_manager : orderbook.OrderBookManager :=
  orderbook.initialize
    (orderbook.__init__ "https://fapi.binance.com" "BTCUSDT" 1 None)
    examples.snapshot (py.lit 1000 1).

(** The decimal literal [n/d] read as a Python float. *)
Definition double (n : Z) (d : positive) : Qc :=
  py.binary64_round (py.lit n d).

(** A book with the bid [q] at 100 and no ask, and a book with a bid at 75
    and a small ask at 75.45. *)
Definition bid_at_100 (q : Qc) : orderbook.OrderBook :=
  examples.book [examples.level (double 100 1) q] [].

Definition book_75 : orderbook.OrderBook :=
  examples.book [examples.level (double 75 1) (double 2 1)]
                [examples.level (double 7545 100) (double 1 1)].

(** The life of a wall: born, grown, gone, born again. *)
Definition wall_feed : list (orderbook.OrderBook * Qc) :=
  [(examples.wall_born, py.lit 1 1); (examples.wall_grown, py.lit 2 1);
   (examples.book [] [], py.lit 3 1)].

(** Three books for the calculator. *)
Definition books : list orderbook.OrderBook :=
  [examples.wall_born; examples.wall_grown; examples.wall_thin].

End more_examples.

(** * The properties of the specification *)


(** ** The ordering policy of [process_update] *)

Section ordering.
Import orderbook book_spec.

Implicit Types (m : OrderBookManager) (e : DepthEvent) (now : Qc).

(** The two outcomes of [process_update] on an initialized book. *)
Lemma process_update_ordered m e now :
  _initialized m = true → ordering_predicate m e →
  process_update m e now = applied_result m e now.
Proof.
  intros Hinit Hord. unfold process_update, applied_result.
  rewrite Hinit. simpl.
  destruct Hord as [(Hs & HU & Hu) | (Hs & Hpu)]; unfold synced in Hs.
  - rewrite (bool_decide_eq_true_2 _ Hs).
    unfold first_id in HU.
    rewrite (bool_decide_eq_true_2 _ HU), (bool_decide_eq_true_2 _ Hu). simpl.
    by destruct (crossed _).
  - rewrite (bool_decide_eq_false_2 _ Hs).
    unfold prev_id in Hpu. rewrite (bool_decide_eq_true_2 _ Hpu). simpl.
    by destruct (crossed _).
Qed.

Lemma process_update_unordered m e now :
  ¬ ordering_predicate m e → process_update m e now = (false, m).
Proof.
  intros Hord. unfold process_update.
  destruct (_initialized m); [simpl|done].
  case_bool_decide as Hs.
  - destruct (decide (first_id e ≤ _last_u m + 1)%Z) as [HU|HU];
      destruct (decide (_last_u m + 1 ≤ ev_u e)%Z) as [Hu|Hu].
    + destruct Hord. left. done.
    + rewrite (bool_decide_eq_false_2 _ Hu), andb_false_r. done.
    + unfold first_id in HU. rewrite (bool_decide_eq_false_2 _ HU). done.
    + unfold first_id in HU. rewrite (bool_decide_eq_false_2 _ HU). done.
  - case_bool_decide as Hpu; [|done].
    destruct Hord. right. done.
Qed.

(** An applied event changes the manager: the id moves, or the book gets
    back in step with [_last_u]. *)
Lemma apply_event_changes m e now :
  ordering_predicate m e → apply_event m e now ≠ m.
Proof.
  intros [(Hs & HU & Hu) | (Hs & Hpu)] Heq; unfold synced in *.
  - assert (last_update_id (orderbook (apply_event m e now))
            = last_update_id (orderbook m)) as H by (by rewrite Heq).
    simpl in H. lia.
  - apply Hs. rewrite <- Heq. done.
Qed.

Lemma apply_event_synced m e now : synced (apply_event m e now).
Proof. done. Qed.

Lemma apply_event_initialized m e now :
  _initialized (apply_event m e now) = _initialized m.
Proof. done. Qed.

End ordering.

Section ordering_claims.
Import orderbook book_spec.

Implicit Types (m : OrderBookManager) (e : DepthEvent) (now : Qc).

(** C1, as the code has it.  On an initialized book in step with its
    snapshot ([_last_u] equal to [last_update_id], as [initialize] and every
    applied event leave it), a feed in which every event meets the ordering
    predicate and leaves the book uncrossed is accepted event by event, and
    [last_update_id] grows strictly at each call. *)
Theorem in_order_feed_accepted m feed :
  _initialized m = true → synced m →
  in_order m feed → never_crossed m feed →
  Forall (λ r : bool * OrderBookManager, r.1 = true) (run m feed)
  ∧ StronglySorted Z.lt (ids m feed).
Proof.
  intros Hinit Hs Hord Hnc.
  cut (Forall (λ r : bool * OrderBookManager, r.1 = true) (run m feed)
       ∧ Sorted Z.lt (ids m feed)).
  { intros [? ?]. split; [done|]. by apply Sorted_StronglySorted; [apply _|]. }
  revert m Hinit Hs Hord Hnc.
  induction feed as [|[e now] feed IH]; intros m Hinit Hs Hord Hnc.
  { split; [constructor|]. unfold ids. simpl. repeat constructor. }
  destruct Hord as [Hord Hrest]. destruct Hnc as [Hnc Hnrest].
  assert (process_update m e now = (true, apply_event m e now)) as Hstep.
  { rewrite process_update_ordered by done.
    unfold applied_result. cbv zeta. by rewrite Hnc. }
  rewrite Hstep in Hrest, Hnrest. simpl in Hrest, Hnrest.
  destruct (IH (apply_event m e now)) as [Hacc Hids]; try done.
  unfold ids in *. simpl. rewrite Hstep. simpl. split.
  - constructor; done.
  - constructor; [done|]. constructor.
    destruct Hord as [(_ & _ & Hu) | (Hn & _)]; [|done].
    unfold synced in Hs. lia.
Qed.

End ordering_claims.

(** ** The sides of the book after [_apply_update] *)

Section book_sides.
Import orderbook book_spec.

Lemma keyed_empty : keyed ∅.
Proof. intros k v. by rewrite lookup_empty. Qed.

Lemma keyed_insert pm (l : PriceLevel) :
  keyed pm → keyed (<[price l := l]> pm).
Proof.
  intros Hk k v. rewrite lookup_insert. case_decide; [naive_solver|apply Hk].
Qed.

Lemma keyed_delete pm k : keyed pm → keyed (delete k pm).
Proof.
  intros Hk k' v. rewrite lookup_delete. case_decide; [done|apply Hk].
Qed.

Lemma keyed_foldl_insert side pm :
  keyed pm → keyed (foldl (λ acc level, <[price level := level]> acc) pm side).
Proof.
  revert pm. induction side as [|l side IH]; intros pm Hk; [done|].
  simpl. by apply IH, keyed_insert.
Qed.

Lemma keyed_apply_entry pm upd : keyed pm → keyed (apply_entry pm upd).
Proof.
  intros Hk. unfold apply_entry. case_bool_decide.
  - by apply keyed_delete.
  - by apply (keyed_insert pm {| price := upd.1; quantity := upd.2 |}).
Qed.

Lemma keyed_foldl_apply updates pm :
  keyed pm → keyed (foldl apply_entry pm updates).
Proof.
  revert pm. induction updates as [|u updates IH]; intros pm Hk; [done|].
  simpl. by apply IH, keyed_apply_entry.
Qed.

(** The values of a keyed map carry pairwise different prices. *)
Lemma values_prices pm : keyed pm → price <$> values pm = (map_to_list pm).*1.
Proof.
  intros Hk. unfold values. rewrite <- list_fmap_compose.
  apply Forall_fmap_ext, Forall_forall. intros [k v] Hin. simpl.
  apply elem_of_map_to_list in Hin. by apply Hk.
Qed.

Lemma values_NoDup pm : keyed pm → NoDup (price <$> values pm).
Proof. intros Hk. rewrite values_prices by done. apply NoDup_fst_map_to_list. Qed.

(** A property of the levels of the side and of the levels the event
    writes holds of every level of the new side. *)
Section preserved.
Variable P : PriceLevel → Prop.

Local Abbreviation all_values := (all_values P).

Lemma all_values_foldl_insert side pm :
  all_values pm → Forall P side →
  all_values (foldl (λ acc level, <[price level := level]> acc) pm side).
Proof.
  revert pm. induction side as [|l side IH]; intros pm Hpm Hside; [done|].
  inv Hside. simpl. apply IH; [|done].
  intros k v. rewrite lookup_insert. case_decide; [naive_solver|apply Hpm].
Qed.

Lemma all_values_foldl_apply updates pm :
  all_values pm → Forall (λ pq, P (level_of pq)) updates →
  all_values (foldl apply_entry pm updates).
Proof.
  revert pm. induction updates as [|u updates IH]; intros pm Hpm Hup; [done|].
  inv Hup. simpl. apply IH; [|done].
  unfold apply_entry. case_bool_decide; intros k v.
  - rewrite lookup_delete. case_decide; [done|apply Hpm].
  - rewrite lookup_insert. case_decide; [|apply Hpm].
    intros [= <-]. done.
Qed.

Lemma _apply_update_Forall updates side reverse :
  Forall P side → Forall (λ pq, P (level_of pq)) updates →
  Forall P (_apply_update updates side reverse).
Proof.
  intros Hside Hup. unfold _apply_update. cbv zeta.
  rewrite merge_sort_Permutation.
  apply Forall_forall. intros v Hv. unfold values in Hv.
  apply list_elem_of_fmap in Hv as [[k v'] [-> Hin]].
  apply elem_of_map_to_list in Hin. simpl.
  revert k v' Hin. apply all_values_foldl_apply; [|done].
  apply all_values_foldl_insert; [|done].
  intros k v'. by rewrite lookup_empty.
Qed.

End preserved.

(** [sorted] orders by price; with pairwise different prices the order is
    strict. *)
Global Instance by_price_total reverse : Total (by_price reverse).
Proof.
  intros x y. unfold by_price. destruct reverse;
    destruct (Qclt_le_dec (price x) (price y));
    auto using Qclt_le_weak.
Qed.

Global Instance by_price_trans reverse : Transitive (by_price reverse).
Proof.
  intros x y z. unfold by_price. destruct reverse; intros H1 H2.
  - by apply Qcle_trans with (price y).
  - by apply Qcle_trans with (price y).
Qed.

Lemma sorted_unique_strict (R S : relation PriceLevel) (l : list PriceLevel) :
  (∀ x y, R x y → price x ≠ price y → S x y) →
  StronglySorted R l → NoDup (price <$> l) → StronglySorted S l.
Proof.
  intros HRS Hs. induction Hs as [|x l Hs IH Hx]; intros Hnd; [constructor|].
  rewrite fmap_cons in Hnd. apply NoDup_cons in Hnd as [Hnotin Hnd].
  constructor; [by apply IH|].
  apply Forall_forall. intros y Hy. apply HRS.
  - rewrite Forall_forall in Hx. by apply Hx.
  - intros Heq. apply Hnotin. rewrite Heq. by apply list_elem_of_fmap_2.
Qed.

Lemma _apply_update_NoDup updates side reverse :
  NoDup (price <$> _apply_update updates side reverse).
Proof.
  unfold _apply_update. cbv zeta. rewrite merge_sort_Permutation.
  apply values_NoDup, keyed_foldl_apply, keyed_foldl_insert, keyed_empty.
Qed.

Lemma _apply_update_descending updates side :
  strictly_descending (_apply_update updates side true).
Proof.
  apply (sorted_unique_strict (by_price true)).
  - intros x y Hle Hne. simpl in Hle.
    destruct (Qcle_lt_or_eq _ _ Hle) as [|Heq]; [done|]. by destruct Hne.
  - apply StronglySorted_merge_sort; apply _.
  - apply _apply_update_NoDup.
Qed.

Lemma _apply_update_ascending updates side :
  strictly_ascending (_apply_update updates side false).
Proof.
  apply (sorted_unique_strict (by_price false)).
  - intros x y Hle Hne. simpl in Hle.
    destruct (Qcle_lt_or_eq _ _ Hle) as [|Heq]; [done|]. by destruct Hne.
  - apply StronglySorted_merge_sort; apply _.
  - apply _apply_update_NoDup.
Qed.

(** Cutting to [depth] keeps a prefix. *)
Lemma slice_to_take {A} (n : Z) (l : list A) :
  ∃ k, py.slice_to n l = take k l.
Proof. unfold py.slice_to. case_bool_decide; eauto. Qed.

Lemma StronglySorted_take {A} (R : relation A) k (l : list A) :
  StronglySorted R l → StronglySorted R (take k l).
Proof.
  intros Hs. rewrite <- (take_drop k l) in Hs.
  by apply StronglySorted_app_1_l in Hs.
Qed.

Lemma NoDup_take {A} k (l : list A) : NoDup l → NoDup (take k l).
Proof. intros Hnd. eapply sublist_NoDup; [done|apply sublist_take]. Qed.

End book_sides.

(** ** The book after an accepted update *)

Section book_invariants.
Import orderbook book_spec.

Implicit Types (m : OrderBookManager) (e : DepthEvent) (now : Qc).

(** The enumeration order of the values of the price map does not show
    in the sorted side: any other enumeration sorts to the same list. *)
Lemma sorted_values_enumeration reverse pm (l : list PriceLevel) :
  keyed pm → l ≡ₚ values pm →
  merge_sort (by_price reverse) l = merge_sort (by_price reverse) (values pm).
Proof.
  intros Hk Hperm.
  apply (StronglySorted_unique_strong (by_price reverse)).
  - intros x y Hx Hy Hxy Hyx.
    assert (price x = price y) as Hp.
    { unfold by_price in *. destruct reverse; by apply Qcle_antisym. }
    rewrite merge_sort_Permutation, Hperm in Hx.
    rewrite merge_sort_Permutation in Hy.
    unfold values in Hx, Hy.
    apply list_elem_of_fmap in Hx as [[kx vx] [-> Hx]].
    apply list_elem_of_fmap in Hy as [[ky vy] [-> Hy]].
    apply elem_of_map_to_list in Hx, Hy. simpl in *.
    rewrite <- (Hk _ _ Hx), Hp, (Hk _ _ Hy) in Hx. congruence.
  - apply StronglySorted_merge_sort; apply _.
  - apply StronglySorted_merge_sort; apply _.
  - by rewrite !merge_sort_Permutation.
Qed.

Lemma process_update_cases m e now :
  process_update m e now = (false, m)
  ∨ process_update m e now = applied_result m e now.
Proof.
  destruct (_initialized m) eqn:Hinit.
  - destruct (decide (ordering_predicate m e)).
    + right. by apply process_update_ordered.
    + left. by apply process_update_unordered.
  - left. unfold process_update. by rewrite Hinit.
Qed.

Lemma initialize_nonzero m data now :
  nonzero_entries (snap_bids data) → nonzero_entries (snap_asks data) →
  nonzero_book (orderbook (initialize m data now)).
Proof.
  intros Hb Ha. split; simpl; unfold nonzero_prices;
    by rewrite Forall_fmap.
Qed.

Lemma apply_event_nonzero m e now :
  nonzero_book (orderbook m) → nonzero_event e →
  nonzero_book (orderbook (apply_event m e now)).
Proof.
  intros [Hb Ha] [Heb Hea]. split; simpl.
  - destruct (slice_to_take (depth m)
                (_apply_update (ev_b e) (bids (orderbook m)) true)) as [k ->].
    apply Forall_take. by apply (_apply_update_Forall (λ x, price x ≠ 0)).
  - destruct (slice_to_take (depth m)
                (_apply_update (ev_a e) (asks (orderbook m)) false)) as [k ->].
    apply Forall_take. by apply (_apply_update_Forall (λ x, price x ≠ 0)).
Qed.

Lemma best_bid_positive ob b :
  positive_book ob → best_bid ob = Some b → 0 < b.
Proof.
  intros [Hb _]. unfold best_bid. destruct (bids ob) as [|l ?]; [done|].
  intros [= <-]. by inv Hb.
Qed.

Lemma best_ask_positive ob a :
  positive_book ob → best_ask ob = Some a → 0 < a.
Proof.
  intros [_ Ha]. unfold best_ask. destruct (asks ob) as [|l ?]; [done|].
  intros [= <-]. by inv Ha.
Qed.

Lemma best_bid_nonzero ob b :
  nonzero_book ob → best_bid ob = Some b → b ≠ 0.
Proof.
  intros [Hb _]. unfold best_bid. destruct (bids ob) as [|l ?]; [done|].
  intros [= <-]. by inv Hb.
Qed.

Lemma best_ask_nonzero ob a :
  nonzero_book ob → best_ask ob = Some a → a ≠ 0.
Proof.
  intros [_ Ha]. unfold best_ask. destruct (asks ob) as [|l ?]; [done|].
  intros [= <-]. by inv Ha.
Qed.

Lemma truthy_positive x : 0 < x → py.truthy x = true.
Proof.
  intros Hx. unfold py.truthy. rewrite bool_decide_eq_false_2; [done|].
  intros ->. by apply (Qclt_not_eq _ _ Hx).
Qed.

Lemma truthy_nonzero x : x ≠ 0 → py.truthy x = true.
Proof. intros Hx. unfold py.truthy. by rewrite bool_decide_eq_false_2. Qed.

(** The crossing test decides on best prices that are not zero. *)
Lemma crossed_nonzero ob b a :
  best_bid ob = Some b → best_ask ob = Some a → b ≠ 0 → a ≠ 0 →
  crossed ob = bool_decide (a ≤ b).
Proof.
  intros Hb Ha Hb0 Ha0. unfold crossed. rewrite Hb, Ha. simpl.
  by rewrite !truthy_nonzero.
Qed.

Lemma uncrossed_nonzero ob b a :
  nonzero_book ob → crossed ob = false →
  best_bid ob = Some b → best_ask ob = Some a → b < a.
Proof.
  intros Hnz Hc Hb Ha.
  rewrite (crossed_nonzero ob b a) in Hc
    by eauto using best_bid_nonzero, best_ask_nonzero.
  apply bool_decide_eq_false_1 in Hc. by apply Qcnot_le_lt.
Qed.

Lemma apply_event_invariant m e now :
  nonzero_book (orderbook m) → nonzero_event e →
  crossed (orderbook (apply_event m e now)) = false →
  book_invariant (orderbook (apply_event m e now)).
Proof.
  intros Hnz Hev Hc.
  pose proof (apply_event_nonzero m e now Hnz Hev) as Hnz'.
  split.
  - simpl. destruct (slice_to_take (depth m)
       (_apply_update (ev_b e) (bids (orderbook m)) true)) as [k ->].
    apply StronglySorted_take, _apply_update_descending.
  - simpl. destruct (slice_to_take (depth m)
       (_apply_update (ev_a e) (asks (orderbook m)) false)) as [k ->].
    apply StronglySorted_take, _apply_update_ascending.
  - simpl. destruct (slice_to_take (depth m)
       (_apply_update (ev_b e) (bids (orderbook m)) true)) as [k ->].
    rewrite fmap_take. apply NoDup_take, _apply_update_NoDup.
  - simpl. destruct (slice_to_take (depth m)
       (_apply_update (ev_a e) (asks (orderbook m)) false)) as [k ->].
    rewrite fmap_take. apply NoDup_take, _apply_update_NoDup.
  - intros b a. by apply uncrossed_nonzero.
Qed.

Lemma process_update_no_zero_price m e now :
  nonzero_book (orderbook m) → nonzero_event e →
  nonzero_book (orderbook (process_update m e now).2).
Proof.
  intros Hnz Hev. destruct (process_update_cases m e now) as [-> | ->];
    [done|]. by apply apply_event_nonzero.
Qed.

Lemma process_update_accepted_invariant m e now :
  nonzero_book (orderbook m) → nonzero_event e →
  (process_update m e now).1 = true →
  book_invariant (orderbook (process_update m e now).2).
Proof.
  intros Hnz Hev. destruct (process_update_cases m e now) as [-> | ->];
    [done|].
  unfold applied_result. cbn [fst snd]. intros Hc.
  apply apply_event_invariant; [done..|].
  by apply negb_true_iff.
Qed.

(** C4, as the code has it.  From a book seeded by a snapshot, along any
    feed in which no price of the snapshot or of an event is zero, after
    each update that [process_update] accepts the bids are strictly
    descending and the asks strictly ascending in price, no price occurs
    twice on a side, and the best bid is below the best ask whenever both
    sides are non-empty. *)
Theorem accepted_updates_keep_book_sorted m0 data t0 feed :
  nonzero_entries (snap_bids data) → nonzero_entries (snap_asks data) →
  Forall (λ en : DepthEvent * Qc, nonzero_event en.1) feed →
  Forall (λ r : bool * OrderBookManager,
            r.1 = true → book_invariant (orderbook r.2))
         (run (initialize m0 data t0) feed).
Proof.
  intros Hb Ha Hfeed.
  pose proof (initialize_nonzero m0 data t0 Hb Ha) as Hnz.
  generalize dependent (initialize m0 data t0). clear Hb Ha.
  induction feed as [|[e now] feed IH]; intros m Hnz; [constructor|].
  inv Hfeed. simpl. constructor.
  - by apply process_update_accepted_invariant.
  - apply IH; [done|]. by apply process_update_no_zero_price.
Qed.

End book_invariants.

(** ** The z-score of the OFI calculator *)


Section ofi_z_score.
Import ofi_calculator ofi_spec.

Variable sqrt : Qc → Qc.

Implicit Types (c : OFICalculator) (ob : orderbook.OrderBook).



Lemma update_prev_bids c ob : is_Some (_prev_bids (update sqrt c ob).2).
Proof.
  unfold update. destruct (_prev_bids c); simpl; [|by eexists].
  destruct (bool_decide (20 ≤ _)%nat); simpl; by eexists.
Qed.

(** The priming call returns the default state and leaves the history as
    it is. *)
Lemma update_priming c ob :
  _prev_bids c = None →
  (update sqrt c ob).1 = OFIState_default
  ∧ _history (update sqrt c ob).2 = _history c.
Proof. intros H. unfold update. by rewrite H. Qed.




Lemma __init___fresh depth ema_span history_size c0 :
  __init__ depth ema_span history_size = Some c0 →
  _prev_bids c0 = None ∧ _history c0 = [].
Proof.
  unfold __init__. repeat case_bool_decide; [done..|]. by intros [= <-].
Qed.


End ofi_z_score.

(** ** The wall tracker *)


Section wall_dict.
Import wall_tracker walls_spec.

Context {F : py.Float}.

Implicit Types (d : list (Key * Wall)) (k : Key) (w : Wall).

Lemma dict_get_cons d k0 w0 k :
  dict_get ((k0, w0) :: d) k
  = if decide (k = k0) then Some w0 else dict_get d k.
Proof. done. Qed.

Lemma dict_get_set_eq d k w : dict_get (dict_set d k w) k = Some w.
Proof.
  induction d as [|[k' w'] d IH]; simpl.
  - by rewrite decide_True.
  - destruct (decide (k = k')) as [->|Hne]; simpl.
    + by rewrite decide_True.
    + by rewrite decide_False.
Qed.

Lemma dict_get_set_ne d k k' w :
  k ≠ k' → dict_get (dict_set d k w) k' = dict_get d k'.
Proof.
  intros Hne. induction d as [|[k0 w0] d IH]; simpl.
  - rewrite decide_False; [done|]. by intros ->.
  - destruct (decide (k = k0)) as [->|Hne0]; simpl.
    + rewrite !decide_False; [done|by intros ->..].
    + destruct (decide (k' = k0)); [done|apply IH].
Qed.

Lemma dict_get_elem_of d k w : dict_get d k = Some w → (k, w) ∈ d.
Proof.
  induction d as [|[k0 w0] d IH]; simpl; [done|].
  destruct (decide (k = k0)) as [->|Hne].
  - intros [= ->]. left.
  - intros H. right. by apply IH.
Qed.

Lemma dict_get_None d k : dict_get d k = None ↔ k ∉ d.*1.
Proof.
  induction d as [|[k0 w0] d IH]; simpl.
  - split; [intros _; apply not_elem_of_nil|done].
  - rewrite not_elem_of_cons. destruct (decide (k = k0)) as [->|Hne].
    + split; [done|]. by intros [? _].
    + rewrite IH. tauto.
Qed.

Lemma dict_get_NoDup d k w :
  NoDup d.*1 → (k, w) ∈ d → dict_get d k = Some w.
Proof.
  induction d as [|[k0 w0] d IH]; simpl; intros Hnd Hin.
  - by apply elem_of_nil in Hin.
  - apply NoDup_cons in Hnd as [Hnotin Hnd].
    apply elem_of_cons in Hin as [[= -> ->]|Hin].
    + by rewrite decide_True.
    + rewrite decide_False; [by apply IH|].
      intros ->. apply Hnotin. by apply (list_elem_of_fmap_2 fst) in Hin.
Qed.

Lemma dict_set_keys d k w :
  (dict_set d k w).*1 = if decide (k ∈ d.*1) then d.*1 else d.*1 ++ [k].
Proof.
  induction d as [|[k0 w0] d IH]; csimpl; [done|].
  destruct (decide (k = k0)) as [->|Hne]; csimpl.
  -
 rewrite decide_True; [done|left].
  - rewrite IH. destruct (decide (k ∈ d.*1)).
    + rewrite decide_True; [done|by right].
    + rewrite decide_False; [done|]. by rewrite not_elem_of_cons.
Qed.

Lemma dict_set_elem_of d k w k' w' :
  (k', w') ∈ dict_set d k w → (k', w') = (k, w) ∨ (k', w') ∈ d.
Proof.
  induction d as [|[k0 w0] d IH]; simpl.
  - intros ?%list_elem_of_singleton. by left.
  - destruct (decide (k = k0)) as [->|Hne].
    + intros [->|?]%elem_of_cons; [by left|]. right. by right.
    + intros [->|?]%elem_of_cons; [right; left|].
      destruct IH as [?|?]; [done|by left|]. right. by right.
Qed.

Lemma wf_walls_nil : wf_walls [].
Proof. split; constructor. Qed.

Lemma wf_walls_set d k w :
  wf_walls d → (price w, side w) = k → wf_walls (dict_set d k w).
Proof.
  intros [Hnd Hk] Hw. split.
  - rewrite dict_set_keys. case_decide; [done|].
    apply NoDup_app. split_and!; [done| |apply NoDup_singleton].
    intros k' Hin ->%list_elem_of_singleton. done.
  - apply Forall_forall. intros [k' w'] [[= -> ->]|Hin]%dict_set_elem_of.
    + done.
    + rewrite Forall_forall in Hk. by apply (Hk (k', w')).
Qed.

Lemma wf_walls_del d k : wf_walls d → wf_walls (dict_del d k).
Proof.
  intros [Hnd Hk]. unfold dict_del. split.
  - eapply sublist_NoDup; [done|]. apply fmap_sublist, sublist_filter.
  - apply Forall_forall. intros kw [_ Hin]%list_elem_of_filter.
    rewrite Forall_forall in Hk. by apply Hk.
Qed.

Lemma dict_get_del d k k' :
  dict_get (dict_del d k) k' = if decide (k' = k) then None else dict_get d k'.
Proof.
  unfold dict_del. induction d as [|[k0 w0] d IH]; simpl.
  - by case_decide.
  - rewrite filter_cons. simpl. destruct (decide (k0 ≠ k)) as [Hne|Heq]; simpl.
    + rewrite IH. destruct (decide (k' = k0)) as [->|]; [|done].
      by rewrite decide_False.
    + apply dec_stable in Heq. subst k0. rewrite IH.
      destruct (decide (k' = k)); done.
Qed.

Lemma dict_get_foldl_del ks d k' :
  dict_get (foldl dict_del d ks) k'
  = if decide (k' ∈ ks) then None else dict_get d k'.
Proof.
  revert d. induction ks as [|k ks IH]; intros d; cbn [foldl].
  - rewrite decide_False; [done|apply not_elem_of_nil].
  - rewrite IH, dict_get_del.
    destruct (decide (k' = k)) as [->|Hne].
    + rewrite (decide_True (P := k ∈ k :: ks)); [|left]. by case_decide.
    + destruct (decide (k' ∈ ks)).
      * rewrite decide_True; [done|by right].
      * rewrite decide_False; [done|]. by rewrite not_elem_of_cons.
Qed.

Lemma wf_walls_foldl_del ks d : wf_walls d → wf_walls (foldl dict_del d ks).
Proof.
  revert d. induction ks as [|k ks IH]; intros d Hd; [done|].
  simpl. by apply IH, wf_walls_del.
Qed.

End wall_dict.

Section wall_levels.
Import wall_tracker walls_spec.

Context {F : py.Float}.

Variables (threshold : Qc) (s : WallSide) (current_price : option Qc)
          (now : Qc).

Implicit Types (d : list (Key * Wall)) (k : Key) (w : Wall)
               (l : orderbook.PriceLevel).

Local Abbreviation step := (process_level threshold s current_price now).
Local Abbreviation key_of l := (orderbook.price l, s).

(** The three cases of the loop body. *)
Lemma process_level_below d l :
  orderbook.notional l < threshold → step d l = (d, py.Ok []).
Proof.
  intros Hlt. unfold process_level.
  rewrite bool_decide_eq_false_2; [done|]. by apply Qclt_not_le.
Qed.

Lemma process_level_new d l :
  threshold ≤ orderbook.notional l → dict_get d (key_of l) = None →
  step d l
  = (dict_set d (key_of l)
       (Wall_new (orderbook.price l) s (orderbook.quantity l)
                 (orderbook.quantity l) now now),
     py.Ok [new_wall_event (orderbook.price l) s (orderbook.quantity l) now]).
Proof.
  intros Hle Hget. unfold process_level.
  rewrite bool_decide_eq_true_2 by done. cbv zeta. by rewrite Hget.
Qed.

Lemma process_level_tracked d l w :
  threshold ≤ orderbook.notional l → dict_get d (key_of l) = Some w →
  orderbook.price l ≠ 0 →
  step d l
  = (dict_set d (key_of l)
       (updated_wall w current_price (orderbook.price l)
                     (orderbook.quantity l) now),
     py.Ok (if replenished w (orderbook.quantity l)
            then [replenish_event w now] else [])).
Proof.
  intros Hle Hget Hp. unfold process_level.
  rewrite bool_decide_eq_true_2 by done. cbv zeta. rewrite Hget.
  unfold updated_wall, market_test, replenished, replenish_event.
  destruct current_price as [cp|]; [|by destruct (bool_decide (_ < _))].
  destruct (py.truthy cp); [|by destruct (bool_decide (_ < _))].
  rewrite (bool_decide_eq_false_2 (orderbook.price l = 0)) by done.
  simpl. by destruct (bool_decide (py.mul _ _ < _)).
Qed.

(** With a price that is not zero the body does not raise. *)
Lemma process_level_returns d l :
  orderbook.price l ≠ 0 → ∃ evs, (step d l).2 = py.Ok evs.
Proof.
  intros Hp. destruct (Qclt_le_dec (orderbook.notional l) threshold).
  - rewrite process_level_below by done. by eexists.
  - destruct (dict_get d (key_of l)) as [w|] eqn:Hget.
    + rewrite (process_level_tracked d l w) by done. by eexists.
    + rewrite process_level_new by done. by eexists.
Qed.

(** The body writes the wall map at the key of the level only, and the
    wall it writes carries that key. *)
Lemma process_level_keys d l :
  (step d l).1 = d
  ∨ ∃ w, (step d l).1 = dict_set d (key_of l) w
         ∧ ((price w, side w) = key_of l
            ∨ ∃ w0, dict_get d (key_of l) = Some w0
                    ∧ price w = price w0 ∧ side w = side w0).
Proof.
  unfold process_level. case_bool_decide; [|by left]. cbv zeta.
  destruct (dict_get d (key_of l)) as [w0|] eqn:Hget.
  - right.
    destruct current_price as [cp|];
      [destruct (py.truthy cp);
       [destruct (bool_decide (orderbook.price l = 0))|]|];
      simpl; eexists; (split; [done|]); right; exists w0;
      repeat (destruct (bool_decide _)); done.
  - right. eexists. split; [done|]. by left.
Qed.

Lemma process_level_other d l k :
  k ≠ key_of l → dict_get (step d l).1 k = dict_get d k.
Proof.
  intros Hne.
  destruct (process_level_keys d l) as [->|(w & -> & _)]; [done|].
  by apply dict_get_set_ne.
Qed.

Lemma process_level_wf d l : wf_walls d → wf_walls (step d l).1.
Proof.
  intros Hwf.
  destruct (process_level_keys d l)
    as [->|(w & -> & [Hk|(w0 & Hget & Hp & Hs)])]; [done|..].
  - by apply wf_walls_set.
  - apply wf_walls_set; [done|]. rewrite Hp, Hs.
    destruct Hwf as [_ Hk]. rewrite Forall_forall in Hk.
    apply (Hk (key_of l, w0)). by apply dict_get_elem_of.
Qed.

(** The events of the body are about the key of the level, and are
    replenish or new-wall events. *)
Lemma process_level_events d l evs :
  wf_walls d → (step d l).2 = py.Ok evs →
  Forall (λ ev, about (key_of l) ev
                ∧ (type ev = "WALL_REPLENISH" ∨ type ev = "NEW_WALL")) evs.
Proof.
  intros [_ Hk] Hev.
  destruct (Qclt_le_dec (orderbook.notional l) threshold) as [Hlt|Hle].
  { rewrite process_level_below in Hev by done.
    injection Hev as <-. constructor. }
  destruct (dict_get d (key_of l)) as [w0|] eqn:Hget.
  2:{ rewrite process_level_new in Hev by done.
      injection Hev as <-. constructor; [|constructor].
      split; [by split|by right]. }
  assert ((price w0, side w0) = key_of l) as [= Hp Hs].
  { rewrite Forall_forall in Hk. apply (Hk (key_of l, w0)).
    by apply dict_get_elem_of. }
  assert (Forall (λ ev, about (key_of l) ev
                ∧ (type ev = "WALL_REPLENISH" ∨ type ev = "NEW_WALL"))
            (if replenished w0 (orderbook.quantity l)
             then [replenish_event w0 now] else [])) as Hcase.
  { destruct (replenished _ _); constructor; [|constructor].
    split; [|by left]. split; simpl; congruence. }
  destruct (decide (orderbook.price l = 0)) as [H0|Hn0].
  2:{ rewrite (process_level_tracked d l w0) in Hev by done.
      simpl in Hev. by injection Hev as <-. }
  unfold process_level in Hev.
  rewrite bool_decide_eq_true_2 in Hev by done.
  cbv zeta in Hev. rewrite Hget in Hev.
  destruct current_price as [cp|]; [destruct (py.truthy cp)|].
  - rewrite (bool_decide_eq_true_2 _ H0) in Hev. done.
  - simpl in Hev. injection Hev as <-.
    unfold replenished, replenish_event in Hcase.
    by destruct (bool_decide (py.mul _ _ < _)).
  - simpl in Hev. injection Hev as <-.
    unfold replenished, replenish_event in Hcase.
    by destruct (bool_decide (py.mul _ _ < _)).
Qed.

End wall_levels.

Section wall_sides.
Import wall_tracker walls_spec.

Context {F : py.Float}.

Variables (threshold : Qc) (current_price : option Qc) (now : Qc).

Implicit Types (d : list (Key * Wall)) (k : Key) (w : Wall) (s : WallSide)
               (l : orderbook.PriceLevel)
               (levels : list orderbook.PriceLevel).

Local Abbreviation step s := (process_level threshold s current_price now).
Local Abbreviation side_loop d levels s :=
  (_process_side threshold now d levels s current_price).

Lemma value_inj s1 s2 : value s1 = value s2 → s1 = s2.
Proof. by destruct s1, s2. Qed.

Lemma about_inj k k' ev : about k ev → about k' ev → k = k'.
Proof.
  destruct k as [p s], k' as [p' s']. unfold about. simpl.
  intros [Hp Hs] [Hp' Hs']. f_equal; [congruence|].
  apply value_inj. congruence.
Qed.

Lemma events_about_app T k evs1 evs2 :
  events_about T k (evs1 ++ evs2)
  = events_about T k evs1 ++ events_about T k evs2.
Proof. apply filter_app. Qed.

Lemma events_about_none T k evs :
  Forall (λ ev, ¬ (type ev = T ∧ about k ev)) evs → events_about T k evs = [].
Proof.
  unfold events_about. induction 1 as [|ev evs Hev _ IH]; [done|].
  by rewrite filter_cons_False.
Qed.

Lemma events_about_one T k ev :
  type ev = T → about k ev → events_about T k [ev] = [ev].
Proof. intros HT Hab. unfold events_about. by rewrite filter_cons_True. Qed.

(** The loop, one level at a time. *)
Lemma _process_side_cons d l levels s d' evs :
  side_loop d (l :: levels) s = (d', py.Ok evs) →
  ∃ d1 evs1 evs2,
    step s d l = (d1, py.Ok evs1)
    ∧ side_loop d1 levels s = (d', py.Ok evs2)
    ∧ evs = evs1 ++ evs2.
Proof.
  intros Hrun. simpl in Hrun.
  destruct (step s d l) as [d1 [evs1|exn]] eqn:Hstep; [|done].
  destruct (_process_side _ _ d1 _ _ _) as [d2 [evs2|exn]] eqn:Hrest; [|done].
  injection Hrun as <- <-. by exists d1, evs1, evs2.
Qed.

Lemma _process_side_returns d levels s :
  Forall (λ l, orderbook.price l ≠ 0) levels →
  ∃ d' evs, side_loop d levels s = (d', py.Ok evs).
Proof.
  intros Hlv. revert d. induction Hlv as [|l levels Hl _ IH]; intros d.
  { by exists d, []. }
  destruct (process_level_returns threshold s current_price now d l Hl)
    as [evs1 Hev].
  destruct (step s d l) as [d1 r1] eqn:Hstep. simpl in Hev. subst r1.
  destruct (IH d1) as (d' & evs2 & Hrest).
  exists d', (evs1 ++ evs2). simpl. by rewrite Hstep, Hrest.
Qed.

Lemma _process_side_wf d levels s :
  wf_walls d → wf_walls (side_loop d levels s).1.
Proof.
  revert d. induction levels as [|l levels IH]; intros d Hwf; [done|].
  simpl.
  pose proof (process_level_wf threshold s current_price now d l Hwf) as Hwf1.
  destruct (step s d l) as [d1 [evs1|exn]]; [|done].
  specialize (IH d1 Hwf1).
  by destruct (side_loop d1 levels s) as [d2 [evs2|exn]].
Qed.

Lemma _process_side_types d levels s d' evs :
  wf_walls d → side_loop d levels s = (d', py.Ok evs) →
  Forall (λ ev, type ev = "WALL_REPLENISH" ∨ type ev = "NEW_WALL") evs.
Proof.
  revert d evs. induction levels as [|l levels IH]; intros d evs Hwf Hrun.
  { injection Hrun as <- <-. constructor. }
  apply _process_side_cons in Hrun as (d1 & evs1 & evs2 & Hstep & Hrest & ->).
  apply Forall_app. split.
  - eapply Forall_impl.
    + eapply (process_level_events threshold s current_price now d l);
        [done|by rewrite Hstep].
    + by intros ev [_ ?].
  - eapply IH; [|done].
    pose proof (process_level_wf threshold s current_price now d l Hwf) as H.
    by rewrite Hstep in H.
Qed.

(** A key that no wall level of the side carries is left alone. *)
Lemma _process_side_untouched d levels s k d' evs :
  wf_walls d → side_loop d levels s = (d', py.Ok evs) →
  Forall (λ l, (orderbook.price l, s) = k →
               orderbook.notional l < threshold) levels →
  dict_get d' k = dict_get d k ∧ Forall (λ ev, ¬ about k ev) evs.
Proof.
  intros Hwf Hrun Hlv. revert d evs Hwf Hrun.
  induction Hlv as [|l levels Hl _ IH]; intros d evs Hwf Hrun.
  { injection Hrun as <- <-. split; [done|constructor]. }
  apply _process_side_cons in Hrun as (d1 & evs1 & evs2 & Hstep & Hrest & ->).
  pose proof (process_level_wf threshold s current_price now d l Hwf) as Hwf1.
  pose proof (process_level_events threshold s current_price now d l evs1 Hwf)
    as Hev1.
  rewrite Hstep in Hwf1, Hev1. simpl in Hwf1, Hev1.
  destruct (IH d1 evs2 Hwf1 Hrest) as [Hget Hev2].
  destruct (decide ((orderbook.price l, s) = k)) as [Hk|Hk].
  - rewrite process_level_below in Hstep by auto.
    injection Hstep as <- <-. done.
  - split.
    + rewrite Hget.
      pose proof (process_level_other threshold s current_price now d l k) as H.
      rewrite Hstep in H. apply H. congruence.
    + apply Forall_app. split; [|done].
      eapply Forall_impl; [by apply Hev1|].
      intros ev [Hab _] Hab'. apply Hk. by eapply about_inj.
Qed.

(** One level that is not a wall level of the key leaves the key alone. *)
Lemma process_level_untouched d l s p d1 evs1 :
  wf_walls d → step s d l = (d1, py.Ok evs1) →
  ¬ wall_level threshold p l →
  dict_get d1 (p, s) = dict_get d (p, s)
  ∧ Forall (λ ev, ¬ about (p, s) ev) evs1.
Proof.
  intros Hwf Hstep Hnw.
  destruct (_process_side_untouched d [l] s (p, s) d1 (evs1 ++ [])) as [? Hev];
    [done| | |].
  - simpl. by rewrite Hstep.
  - constructor; [|constructor]. intros [= Hp].
    apply Qcnot_le_lt. intros Hle. by apply Hnw.
  - split; [done|]. by rewrite app_nil_r in Hev.
Qed.

(** A tracked key stays tracked along the loop and gets no new-wall
    event. *)
Lemma _process_side_tracked_no_new d levels s k d' evs :
  wf_walls d → Forall (λ l, orderbook.price l ≠ 0) levels →
  side_loop d levels s = (d', py.Ok evs) →
  is_Some (dict_get d k) →
  events_about "NEW_WALL" k evs = [] ∧ is_Some (dict_get d' k).
Proof.
  intros Hwf Hlv. revert d evs Hwf.
  induction Hlv as [|l levels Hl _ IH]; intros d evs Hwf Hrun Htr.
  { injection Hrun as <- <-. done. }
  apply _process_side_cons in Hrun as (d1 & evs1 & evs2 & Hstep & Hrest & ->).
  pose proof (process_level_wf threshold s current_price now d l Hwf) as Hwf1.
  pose proof (process_level_events threshold s current_price now d l evs1 Hwf)
    as Hev1.
  rewrite Hstep in Hwf1, Hev1. simpl in Hwf1, Hev1. specialize (Hev1 eq_refl).
  assert (events_about "NEW_WALL" k evs1 = [] ∧ is_Some (dict_get d1 k))
    as [Hnone Htr1].
  { destruct (decide ((orderbook.price l, s) = k)) as [<-|Hk].
    - destruct (Qclt_le_dec (orderbook.notional l) threshold) as [Hlt|Hle].
      + rewrite process_level_below in Hstep by done.
        by injection Hstep as <- <-.
      + destruct Htr as [w Hw].
        rewrite (process_level_tracked _ _ _ _ d l w) in Hstep by done.
        injection Hstep as <- <-. split.
        * by destruct (replenished _ _).
        * rewrite dict_get_set_eq. by eexists.
    - split.
      + apply events_about_none. eapply Forall_impl; [done|].
        intros ev [Hab _] [_ Hab']. apply Hk. by eapply about_inj.
      + pose proof (process_level_other threshold s current_price now d l k)
          as H. rewrite Hstep in H. simpl in H. rewrite H; [done|congruence]. }
  destruct (IH d1 evs2) as [Hnone2 Htr2]; [done..|].
  by rewrite events_about_app, Hnone, Hnone2.
Qed.

(** An untracked key that some level of the side makes a wall gets one
    new-wall event and is tracked after the loop. *)
Lemma _process_side_new_wall d levels s p d' evs :
  wf_walls d → Forall (λ l, orderbook.price l ≠ 0) levels →
  side_loop d levels s = (d', py.Ok evs) →
  dict_get d (p, s) = None →
  Exists (wall_level threshold p) levels →
  length (events_about "NEW_WALL" (p, s) evs) = 1%nat
  ∧ is_Some (dict_get d' (p, s)).
Proof.
  intros Hwf Hlv. revert d evs Hwf.
  induction Hlv as [|l levels Hl Hlv IH]; intros d evs Hwf Hrun Hnone Hex.
  { by apply Exists_nil in Hex. }
  apply _process_side_cons in Hrun as (d1 & evs1 & evs2 & Hstep & Hrest & ->).
  pose proof (process_level_wf threshold s current_price now d l Hwf) as Hwf1.
  rewrite Hstep in Hwf1. simpl in Hwf1.
  rewrite events_about_app, length_app.
  destruct (decide (wall_level threshold p l)) as [[Hp Hle]|Hnw].
  - subst p. rewrite process_level_new in Hstep by done.
    injection Hstep as <- <-.
    destruct (_process_side_tracked_no_new _ levels s
                (orderbook.price l, s) d' evs2 Hwf1 Hlv Hrest) as [-> Htr].
    { rewrite dict_get_set_eq. by eexists. }
    by rewrite events_about_one.
  - destruct (process_level_untouched d l s p d1 evs1) as [Hget Hev1];
      [done..|].
    rewrite (events_about_none _ _ evs1).
    2:{ eapply Forall_impl; [done|]. by intros ev Hn [_ ?]. }
    apply Exists_cons in Hex as [?|Hex]; [done|]. simpl.
    apply (IH d1 evs2); [done..| |done]. by rewrite Hget.
Qed.

(** The tracked wall of a level that meets the threshold, after the loop
    over a side without repeated prices. *)
Lemma _process_side_tracked d levels s l w d' evs :
  wf_walls d → Forall (λ l, orderbook.price l ≠ 0) levels →
  NoDup (orderbook.price <$> levels) → l ∈ levels →
  threshold ≤ orderbook.notional l →
  dict_get d (orderbook.price l, s) = Some w →
  side_loop d levels s = (d', py.Ok evs) →
  dict_get d' (orderbook.price l, s)
  = Some (updated_wall w current_price (orderbook.price l)
                       (orderbook.quantity l) now)
  ∧ events_about "WALL_REPLENISH" (orderbook.price l, s) evs
    = if replenished w (orderbook.quantity l)
      then [replenish_event w now] else [].
Proof.
  intros Hwf Hlv. revert d evs Hwf.
  induction Hlv as [|l0 levels Hl0 Hlv IH];
    intros d evs Hwf Hnd Hin Hle Hget Hrun.
  { by apply elem_of_nil in Hin. }
  rewrite fmap_cons in Hnd. apply NoDup_cons in Hnd as [Hnotin Hnd].
  apply _process_side_cons in Hrun as (d1 & evs1 & evs2 & Hstep & Hrest & ->).
  pose proof (process_level_wf threshold s current_price now d l0 Hwf) as Hwf1.
  rewrite Hstep in Hwf1. simpl in Hwf1.
  rewrite events_about_app.
  apply elem_of_cons in Hin as [<-|Hin].
  - rewrite (process_level_tracked _ _ _ _ d l w) in Hstep by done.
    injection Hstep as <- <-.
    destruct (_process_side_untouched _ levels s (orderbook.price l, s)
                d' evs2 Hwf1 Hrest) as [Hget' Hev2].
    { apply Forall_forall. intros l' Hl' [= Hp]. destruct Hnotin.
      rewrite <- Hp. by apply list_elem_of_fmap_2. }
    rewrite Hget', dict_get_set_eq. split; [done|].
    rewrite (events_about_none _ _ evs2).
    2:{ eapply Forall_impl; [done|]. by intros ev Hn [_ ?]. }
    rewrite app_nil_r. destruct (replenished _ _); [|done].
    apply events_about_one; [done|].
    destruct Hwf as [_ Hk]. rewrite Forall_forall in Hk.
    specialize (Hk _ (dict_get_elem_of _ _ _ Hget)). simpl in Hk.
    injection Hk as Hp Hs. split; simpl; congruence.
  - assert (orderbook.price l0 ≠ orderbook.price l) as Hne.
    { intros Heq. apply Hnotin. rewrite Heq. by apply list_elem_of_fmap_2. }
    destruct (process_level_untouched d l0 s (orderbook.price l) d1 evs1)
      as [Hget1 Hev1]; [done..| |].
    { by intros [? _]. }
    rewrite (events_about_none _ _ evs1).
    2:{ eapply Forall_impl; [done|]. by intros ev Hn [_ ?]. }
    simpl. apply (IH d1 evs2); [done..| |done]. by rewrite Hget1.
Qed.

End wall_sides.

Section wall_cleanup.
Import wall_tracker walls_spec.

Context {F : py.Float}.

Implicit Types (d : list (Key * Wall)) (k : Key) (w : Wall)
               (ob : orderbook.OrderBook).

Lemma _cleanup_types now d ob :
  Forall (λ ev, type ev = "WALL_REMOVED") (_cleanup_dead_walls now d ob).2.
Proof.
  unfold _cleanup_dead_walls. simpl. apply Forall_fmap, Forall_forall. done.
Qed.

Lemma _cleanup_get now d ob k :
  dict_get (_cleanup_dead_walls now d ob).1 k
  = if decide (k ∈ all_prices ob) then dict_get d k else None.
Proof.
  unfold _cleanup_dead_walls. simpl. rewrite dict_get_foldl_del.
  destruct (decide (k ∈ all_prices ob)) as [Hin|Hout].
  - rewrite decide_False; [done|].
    intros ([k' w] & -> & [Hdead _]%list_elem_of_filter)%list_elem_of_fmap.
    done.
  - case_decide as Hdead; [done|].
    apply dict_get_None. intros ([k' w] & -> & Hkw)%list_elem_of_fmap.
    apply Hdead. apply (list_elem_of_fmap_2 fst (filter _ d) (k', w)).
    by apply list_elem_of_filter.
Qed.

Lemma _cleanup_wf now d ob :
  wf_walls d → wf_walls (_cleanup_dead_walls now d ob).1.
Proof. apply wf_walls_foldl_del. Qed.

(** The removal events about a key: one, for a tracked key that the book
    no longer has. *)
Lemma _cleanup_removed now d ob k :
  wf_walls d →
  events_about "WALL_REMOVED" k (_cleanup_dead_walls now d ob).2
  = match dict_get d k with
    | Some w => if decide (k ∈ all_prices ob) then []
                else [removed_event now (k, w)]
    | None => []
    end.
Proof.
  unfold _cleanup_dead_walls. simpl. intros [Hnd Hk].
  induction d as [|[k0 w0] d IH]; [done|].
  rewrite fmap_cons in Hnd. apply NoDup_cons in Hnd as [Hnotin Hnd].
  apply Forall_cons in Hk as [Hk0 Hk]. simpl in Hk0, Hnotin.
  specialize (IH Hnd Hk).
  assert (about k (removed_event now (k0, w0)) ↔ k0 = k) as Hab.
  { split.
    - intros Hab. apply (about_inj _ _ (removed_event now (k0, w0))); [|done].
      rewrite <- Hk0. done.
    - intros <-. rewrite <- Hk0. done. }
  rewrite filter_cons. cbn [fst].
  destruct (decide (k0 ∉ all_prices ob)) as [Hdead|Hlive]; cbn [fst].
  - rewrite fmap_cons. unfold events_about in *. rewrite filter_cons.
    rewrite dict_get_cons.
    destruct (decide (k = k0)) as [->|Hne].
    + rewrite decide_True by (split; [done|by apply Hab]).
      rewrite IH. apply dict_get_None in Hnotin as ->.
      by rewrite decide_False.
    + rewrite decide_False; [done|]. intros [_ ?%Hab]. done.
  - apply dec_stable in Hlive. rewrite IH, dict_get_cons.
    destruct (decide (k = k0)) as [->|Hne]; [|done].
    apply dict_get_None in Hnotin as ->. by rewrite decide_True.
Qed.

Lemma _cleanup_not_about now d ob k :
  wf_walls d → k ∈ all_prices ob →
  Forall (λ ev, ¬ about k ev) (_cleanup_dead_walls now d ob).2.
Proof.
  intros Hwf Hin. apply Forall_forall. intros ev Hev Hab.
  pose proof (_cleanup_removed now d ob k Hwf) as Hrem.
  assert (ev ∈ events_about "WALL_REMOVED" k (_cleanup_dead_walls now d ob).2)
    as Hev'.
  { apply list_elem_of_filter. split; [|done]. split; [|done].
    pose proof (_cleanup_types now d ob) as Hty.
    rewrite Forall_forall in Hty. by apply Hty. }
  rewrite Hrem in Hev'. destruct (dict_get d k).
  - rewrite decide_True in Hev' by done. by apply elem_of_nil in Hev'.
  - by apply elem_of_nil in Hev'.
Qed.

End wall_cleanup.

Section wall_update.
Import wall_tracker walls_spec.

Context {F : py.Float}.

Implicit Types (d : list (Key * Wall)) (k : Key) (w : Wall) (s : WallSide)
               (t : WallTracker) (ob : orderbook.OrderBook) (now p : Qc).

Lemma positive_levels_nonzero (levels : list orderbook.PriceLevel) :
  book_spec.positive_levels levels →
  Forall (λ l, orderbook.price l ≠ 0) levels.
Proof.
  intros Hpos. eapply Forall_impl; [done|]. intros l Hl Heq.
  simpl in Hl. rewrite Heq in Hl. by apply (Qclt_not_eq _ _ Hl).
Qed.

Lemma side_levels_positive s ob :
  book_spec.positive_book ob → book_spec.positive_levels (side_levels s ob).
Proof. intros [? ?]. by destruct s. Qed.

Lemma all_prices_side ob p s :
  (p, s) ∈ all_prices ob ↔ p ∈ orderbook.price <$> side_levels s ob.
Proof.
  unfold all_prices. rewrite elem_of_app, !list_elem_of_fmap. split.
  - intros [(l & [= -> ->] & Hl)|(l & [= -> ->] & Hl)]; by exists l.
  - intros (l & -> & Hl). destruct s; [left|right]; by exists l.
Qed.

(** The loop over the other side leaves the key alone. *)
Lemma _process_side_other_side threshold cp now d levels s s' p d' evs :
  s ≠ s' → wf_walls d →
  _process_side threshold now d levels s' cp = (d', py.Ok evs) →
  dict_get d' (p, s) = dict_get d (p, s)
  ∧ Forall (λ ev, ¬ about (p, s) ev) evs.
Proof.
  intros Hne Hwf Hrun.
  eapply _process_side_untouched; [done..|].
  apply Forall_forall. intros l _ [= _ ?]. done.
Qed.

(** [update] seen from one key: the loop over the side of the key, between
    steps that leave the key alone, then the cleanup. *)
Lemma update_own_side t ob now p s :
  book_spec.positive_book ob → wf_walls (walls t) →
  ∃ da db evs_own d2 evs12,
    wf_walls da ∧ wf_walls d2
    ∧ dict_get da (p, s) = dict_get (walls t) (p, s)
    ∧ _process_side (threshold t) now da (side_levels s ob) s
                    (orderbook.mid_price ob) = (db, py.Ok evs_own)
    ∧ dict_get d2 (p, s) = dict_get db (p, s)
    ∧ (∀ T, events_about T (p, s) evs12 = events_about T (p, s) evs_own)
    ∧ Forall (λ ev, type ev = "WALL_REPLENISH" ∨ type ev = "NEW_WALL") evs12
    ∧ update t ob now
      = (set_walls t (_cleanup_dead_walls now d2 ob).1,
         py.Ok (evs12 ++ (_cleanup_dead_walls now d2 ob).2)).
Proof.
  intros Hpos Hwf.
  pose proof (positive_levels_nonzero _ (side_levels_positive BID ob Hpos))
    as Hb.
  pose proof (positive_levels_nonzero _ (side_levels_positive ASK ob Hpos))
    as Ha.
  simpl in Hb, Ha.
  destruct (_process_side_returns (threshold t) (orderbook.mid_price ob) now
              (walls t) _ BID Hb) as (d1 & evs1 & Hrun1).
  destruct (_process_side_returns (threshold t) (orderbook.mid_price ob) now
              d1 _ ASK Ha) as (d2 & evs2 & Hrun2).
  assert (wf_walls d1) as Hwf1.
  { pose proof (_process_side_wf (threshold t) (orderbook.mid_price ob) now
                  (walls t) (orderbook.bids ob) BID Hwf) as H.
    by rewrite Hrun1 in H. }
  assert (wf_walls d2) as Hwf2.
  { pose proof (_process_side_wf (threshold t) (orderbook.mid_price ob) now
                  d1 (orderbook.asks ob) ASK Hwf1) as H.
    by rewrite Hrun2 in H. }
  assert (update t ob now
          = (set_walls t (_cleanup_dead_walls now d2 ob).1,
             py.Ok ((evs1 ++ evs2) ++ (_cleanup_dead_walls now d2 ob).2)))
    as Hupd.
  { unfold update. cbv zeta. rewrite Hrun1, Hrun2.
    destruct (_cleanup_dead_walls now d2 ob). simpl. by rewrite app_assoc. }
  assert (Forall (λ ev, type ev = "WALL_REPLENISH" ∨ type ev = "NEW_WALL")
            (evs1 ++ evs2)) as Hty.
  { apply Forall_app. split.
    - by eapply _process_side_types; [exact Hwf|exact Hrun1].
    - by eapply _process_side_types; [exact Hwf1|exact Hrun2]. }
  destruct s.
  - destruct (_process_side_other_side (threshold t) (orderbook.mid_price ob)
                now d1 (orderbook.asks ob) BID ASK p d2 evs2)
      as [Hget Hev]; [done..|].
    exists (walls t), d1, evs1, d2, (evs1 ++ evs2).
    split_and!; try done.
    intros T. rewrite events_about_app, (events_about_none _ _ evs2).
    + by rewrite app_nil_r.
    + eapply Forall_impl; [done|]. by intros ev Hn [_ ?].
  - destruct (_process_side_other_side (threshold t) (orderbook.mid_price ob)
                now (walls t) (orderbook.bids ob) ASK BID p d1 evs1)
      as [Hget Hev]; [done..|].
    exists d1, d2, evs2, d2, (evs1 ++ evs2).
    split_and!; try done.
    intros T. rewrite events_about_app, (events_about_none _ _ evs1).
    + done.
    + eapply Forall_impl; [done|]. by intros ev Hn [_ ?].
Qed.

Lemma update_wf t ob now :
  wf_walls (walls t) → wf_walls (walls (update t ob now).1).
Proof.
  intros Hwf. unfold update. cbv zeta.
  pose proof (_process_side_wf (threshold t) (orderbook.mid_price ob) now
                (walls t) (orderbook.bids ob) BID Hwf) as Hwf1.
  destruct (_process_side _ _ (walls t) _ BID _) as [d1 [evs1|exn]]; [|done].
  pose proof (_process_side_wf (threshold t) (orderbook.mid_price ob) now
                d1 (orderbook.asks ob) ASK Hwf1) as Hwf2.
  destruct (_process_side _ _ d1 _ ASK _) as [d2 [evs2|exn]]; [|done].
  pose proof (_cleanup_wf now d2 ob Hwf2) as Hwf3.
  by destruct (_cleanup_dead_walls now d2 ob).
Qed.

Lemma update_threshold t ob now : threshold (update t ob now).1 = threshold t.
Proof.
  unfold update. cbv zeta.
  destruct (_process_side _ _ (walls t) _ BID _) as [d1 [evs1|exn]]; [|done].
  destruct (_process_side _ _ d1 _ ASK _) as [d2 [evs2|exn]]; [|done].
  by destruct (_cleanup_dead_walls now d2 ob).
Qed.

(** Every tracker reached from a fresh one keeps a well-formed wall map
    and its threshold. *)
Lemma run_wf sym thr feed : wf_walls (walls (run (__init__ sym thr) feed)).
Proof.
  unfold run. induction feed as [|obn feed IH] using rev_ind.
  - apply wf_walls_nil.
  - rewrite foldl_app. simpl. by apply update_wf.
Qed.

Lemma run_threshold sym thr feed :
  threshold (run (__init__ sym thr) feed) = thr.
Proof.
  unfold run. induction feed as [|obn feed IH] using rev_ind; [done|].
  rewrite foldl_app. simpl. by rewrite update_threshold.
Qed.

End wall_update.

Section wall_claims.
Import wall_tracker walls_spec.

Context {F : py.Float}.

Implicit Types (w : Wall) (s : WallSide) (ob : orderbook.OrderBook)
               (l : orderbook.PriceLevel).

Lemma events_about_types T k evs :
  Forall (λ ev, type ev ≠ T) evs → events_about T k evs = [].
Proof.
  intros Hty. apply events_about_none. eapply Forall_impl; [done|].
  by intros ev Hne [? _].
Qed.

Lemma NoDup_fmap_elem_eq {A B} (f : A → B) (xs : list A) x y :
  NoDup (f <$> xs) → x ∈ xs → y ∈ xs → f x = f y → x = y.
Proof.
  induction xs as [|z xs IH]; intros Hnd Hx Hy Heq.
  { by apply elem_of_nil in Hx. }
  rewrite fmap_cons in Hnd. apply NoDup_cons in Hnd as [Hnotin Hnd].
  apply elem_of_cons in Hx as [->|Hx]; apply elem_of_cons in Hy as [->|Hy].
  - done.
  - destruct Hnotin. rewrite Heq. by apply list_elem_of_fmap_2.
  - destruct Hnotin. rewrite <- Heq. by apply list_elem_of_fmap_2.
  - by apply IH.
Qed.

(** C6.  For a tracker reached from a fresh one, a tracked key and a
    snapshot (positive prices, no price twice on the side) that has the
    price of the key on its side with a notional at or above the threshold:
    [update] emits a [WALL_REPLENISH] event about the key, and adds one to
    [replenish_count], exactly when the new quantity is above the float
    product of the tracked [current_qty] and 1.2; it adds one to
    [test_count] exactly when the mid price exists, is not zero, and the
    float quotient [|mid − price| / price] is below 0.003; and it leaves
    [current_qty] at the new quantity, [peak_qty] at the maximum of the old
    peak and the new quantity, and [last_seen] at the clock reading.  Sums,
    differences, products, quotients and literals are rounded as the
    arithmetic [F] rounds them, whichever it is. *)
Theorem tracked_wall_refreshed sym thr feed ob now s l w :
  let t := run (__init__ sym thr) feed in
  let k := (orderbook.price l, s) in
  let qty := orderbook.quantity l in
  book_spec.positive_book ob →
  NoDup (orderbook.price <$> side_levels s ob) →
  l ∈ side_levels s ob →
  thr ≤ orderbook.notional l →
  dict_get (walls t) k = Some w →
  ∃ evs w',
    (update t ob now).2 = py.Ok evs
    ∧ dict_get (walls (update t ob now).1) k = Some w'
    ∧ Z.of_nat (length (events_about "WALL_REPLENISH" k evs))
      = one_if (replenished w qty)
    ∧ replenish_count w' = (replenish_count w + one_if (replenished w qty))%Z
    ∧ test_count w'
      = (test_count w + one_if (tested ob (orderbook.price l)))%Z
    ∧ current_qty w' = qty
    ∧ peak_qty w' = py.max (peak_qty w) qty
    ∧ last_seen w' = now
    ∧ (price w', side w', initial_qty w', first_seen w')
      = (price w, side w, initial_qty w, first_seen w).
Proof.
  intros t k qty Hpos Hnd Hin Hle Hget. subst k.
  destruct (update_own_side t ob now (orderbook.price l) s Hpos)
    as (da & db & evs_own & d2 & evs12 & Hwfa & Hwf2 & Hga & Hrun & Hg2
        & Hev & Hty & Hupd); [apply run_wf|].
  subst t. rewrite run_threshold in Hrun.
  destruct (_process_side_tracked thr (orderbook.mid_price ob) now da
              (side_levels s ob) s l w db evs_own) as [Hgb Hrep]; try done.
  { apply positive_levels_nonzero. by apply side_levels_positive. }
  { etrans; [exact Hga|exact Hget]. }
  set (k := (orderbook.price l, s)) in *.
  rewrite Hupd. cbn [fst snd].
  eexists _, _. split; [done|]. split.
  { cbn [walls set_walls]. rewrite _cleanup_get, decide_True.
    - by rewrite Hg2, Hgb.
    - apply all_prices_side. by apply list_elem_of_fmap_2. }
  split.
  { rewrite events_about_app, Hev, Hrep.
    rewrite (events_about_types _ _ (_cleanup_dead_walls now d2 ob).2).
    - rewrite app_nil_r. subst qty.
      by destruct (replenished w (orderbook.quantity l)).
    - eapply Forall_impl; [apply _cleanup_types|]. by intros ev ->. }
  unfold updated_wall, tested.
  subst qty k. destruct (replenished w _), (market_test _ _); simpl;
    split_and!; try done; lia.
Qed.

(** C10.  For a tracker reached from a fresh one, a tracked key and a
    snapshot (positive prices, no price twice on the side) that still has
    the price of the key on its side, but with a notional below the
    threshold: [update] emits no event about the key, keeps the key in the
    wall map, and leaves every field of its wall as it was. *)
Theorem wall_below_threshold_kept sym thr feed ob now s l w :
  let t := run (__init__ sym thr) feed in
  let k := (orderbook.price l, s) in
  book_spec.positive_book ob →
  NoDup (orderbook.price <$> side_levels s ob) →
  l ∈ side_levels s ob →
  orderbook.notional l < thr →
  dict_get (walls t) k = Some w →
  ∃ evs,
    (update t ob now).2 = py.Ok evs
    ∧ Forall (λ ev, ¬ about k ev) evs
    ∧ dict_get (walls (update t ob now).1) k = Some w.
Proof.
  intros t k Hpos Hnd Hin Hlt Hget. subst k.
  destruct (update_own_side t ob now (orderbook.price l) s Hpos)
    as (da & db & evs_own & d2 & evs12 & Hwfa & Hwf2 & Hga & Hrun & Hg2
        & Hev & Hty & Hupd); [apply run_wf|].
  subst t. rewrite run_threshold in Hrun.
  set (k := (orderbook.price l, s)) in *.
  destruct (_process_side_untouched thr (orderbook.mid_price ob) now da
              (side_levels s ob) s k db evs_own) as [Hgb Hown]; try done.
  { apply Forall_forall. intros l' Hl' [= Hp].
    by rewrite (NoDup_fmap_elem_eq orderbook.price _ l' l Hnd). }
  assert (k ∈ all_prices ob) as Hk.
  { apply all_prices_side. by apply list_elem_of_fmap_2. }
  rewrite Hupd. cbn [fst snd].
  eexists. split; [done|]. split.
  - apply Forall_app. split; [|by apply _cleanup_not_about].
    apply Forall_forall. intros ev Hin' Hab.
    assert (ev ∈ events_about (type ev) k evs12) as Hin2.
    { apply list_elem_of_filter. done. }
    rewrite Hev in Hin2. apply list_elem_of_filter in Hin2 as [_ Hin2].
    rewrite Forall_forall in Hown. by apply (Hown ev).
  - cbn [walls set_walls]. rewrite _cleanup_get, decide_True by done.
    by rewrite Hg2, Hgb, Hga.
Qed.

Lemma type_events_about T k evs :
  type <$> events_about T k evs = replicate (length (events_about T k evs)) T.
Proof.
  unfold events_about. induction evs as [|ev evs IH]; [done|].
  rewrite filter_cons. case_decide as Hev; [|done].
  destruct Hev as [HT _].
  rewrite fmap_cons, IH, HT. by cbn [length replicate].
Qed.

Lemma life_app k evs1 evs2 : life k (evs1 ++ evs2) = life k evs1 ++ life k evs2.
Proof. unfold life. by rewrite filter_app, fmap_app. Qed.

Lemma life_births k evs :
  Forall (λ ev, type ev = "WALL_REPLENISH" ∨ type ev = "NEW_WALL") evs →
  life k evs = type <$> events_about "NEW_WALL" k evs.
Proof.
  unfold life, events_about. induction 1 as [|ev evs Hev _ IH]; [done|].
  rewrite !filter_cons.
  destruct (decide (about k ev ∧ (type ev = "NEW_WALL"
                                  ∨ type ev = "WALL_REMOVED")))
    as [[Hab [HT|HT]]|Hn].
  - rewrite decide_True by done. by rewrite !fmap_cons, IH.
  - destruct Hev as [Hev|Hev]; rewrite Hev in HT; done.
  - rewrite decide_False; [done|]. intros [HT Hab]. apply Hn. by auto.
Qed.

Lemma life_removals k evs :
  Forall (λ ev, type ev = "WALL_REMOVED") evs →
  life k evs = type <$> events_about "WALL_REMOVED" k evs.
Proof.
  unfold life, events_about. induction 1 as [|ev evs Hev _ IH]; [done|].
  rewrite !filter_cons.
  destruct (decide (about k ev ∧ (type ev = "NEW_WALL"
                                  ∨ type ev = "WALL_REMOVED")))
    as [[Hab _]|Hn].
  - rewrite decide_True by done. by rewrite !fmap_cons, IH.
  - rewrite decide_False; [done|]. intros [HT Hab]. apply Hn. by auto.
Qed.

(** One call of [update], seen from a key. *)
Lemma update_key_events t ob now p s :
  let k := (p, s) in
  let meets := Exists (wall_level (threshold t) p) (side_levels s ob) in
  wf_walls (walls t) → book_spec.positive_book ob →
  ∃ evs,
    (update t ob now).2 = py.Ok evs
    ∧ length (events_about "NEW_WALL" k evs)
      = (if decide (dict_get (walls t) k = None ∧ meets) then 1 else 0)%nat
    ∧ match dict_get (walls t) k with
      | Some w =>
          if decide (k ∈ all_prices ob)
          then events_about "WALL_REMOVED" k evs = []
               ∧ is_Some (dict_get (walls (update t ob now).1) k)
          else (∃ ev, events_about "WALL_REMOVED" k evs = [ev]
                      ∧ reason ev
                        = Some (if bool_decide (0 < test_count w)%Z
                                then "consumed" else "cancelled"))
               ∧ dict_get (walls (update t ob now).1) k = None
      | None => events_about "WALL_REMOVED" k evs = []
      end
    ∧ (is_Some (dict_get (walls (update t ob now).1) k)
       ↔ k ∈ all_prices ob ∧ (is_Some (dict_get (walls t) k) ∨ meets))
    ∧ life k evs
      = type <$> (events_about "NEW_WALL" k evs
                  ++ events_about "WALL_REMOVED" k evs).
Proof.
  intros k meets Hwf Hpos. subst k meets.
  destruct (update_own_side t ob now p s Hpos Hwf)
    as (da & db & evs_own & d2 & evs12 & Hwfa & Hwf2 & Hga & Hrun & Hg2
        & Hev & Hty & Hupd).
  set (k := (p, s)) in *.
  pose proof (positive_levels_nonzero _ (side_levels_positive s ob Hpos))
    as Hnz.
  rewrite Hupd. cbn [fst snd walls set_walls].
  assert (events_about "NEW_WALL" k
            (evs12 ++ (_cleanup_dead_walls now d2 ob).2)
          = events_about "NEW_WALL" k evs_own) as Hnew.
  { rewrite events_about_app, Hev.
    rewrite (events_about_types _ _ (_cleanup_dead_walls now d2 ob).2).
    - by rewrite app_nil_r.
    - eapply Forall_impl; [apply _cleanup_types|]. by intros ev ->. }
  assert (events_about "WALL_REMOVED" k
            (evs12 ++ (_cleanup_dead_walls now d2 ob).2)
          = events_about "WALL_REMOVED" k (_cleanup_dead_walls now d2 ob).2)
    as Hrem.
  { rewrite events_about_app, (events_about_types _ _ evs12); [done|].
    eapply Forall_impl; [done|]. by intros ev [-> | ->]. }
  eexists. split; [done|]. split_and!.
  - rewrite Hnew.
    destruct (dict_get (walls t) k) as [w|] eqn:Hget.
    + rewrite decide_False by (by intros [? _]).
      destruct (_process_side_tracked_no_new (threshold t)
                  (orderbook.mid_price ob) now
                  da (side_levels s ob) s k db evs_own) as [-> _]; try done.
    + destruct (decide (Exists (wall_level (threshold t) p)
                               (side_levels s ob))) as [Hex|Hnex].
      * rewrite decide_True by done.
        by destruct (_process_side_new_wall (threshold t)
                       (orderbook.mid_price ob) now
                       da (side_levels s ob) s p db evs_own) as [? _].
      * rewrite decide_False by (by intros [_ ?]).
        destruct (_process_side_untouched (threshold t)
                    (orderbook.mid_price ob) now da
                    (side_levels s ob) s k db evs_own) as [_ Hown]; try done.
        { apply Forall_forall. intros l' Hl' [= Hp].
          apply Qcnot_le_lt. intros Hle. apply Hnex, Exists_exists.
          by exists l'. }
        rewrite events_about_none; [done|].
        eapply Forall_impl; [done|]. by intros ev Hn [_ ?].
  - rewrite Hrem.
    rewrite _cleanup_removed, _cleanup_get, Hg2 by done.
    destruct (decide (k ∈ all_prices ob)) as [Hk|Hk].
    + destruct (dict_get (walls t) k) as [w|] eqn:Hget.
      * destruct (_process_side_tracked_no_new (threshold t)
                    (orderbook.mid_price ob) now
                    da (side_levels s ob) s k db evs_own) as [_ [w' Hw']];
          try done.
        rewrite Hw', !decide_True by done. split; [done|by eexists].
      * by destruct (dict_get db k); rewrite ?decide_True by done.
    + destruct (_process_side_untouched (threshold t)
                  (orderbook.mid_price ob) now da
                  (side_levels s ob) s k db evs_own) as [Hgb _]; try done.
      { apply Forall_forall. intros l' Hl' [= Hp]. destruct Hk.
        apply all_prices_side. rewrite <- Hp. by apply list_elem_of_fmap_2. }
      rewrite Hgb, Hga.
      destruct (dict_get (walls t) k) as [w|] eqn:Hget; [|done].
      rewrite !decide_False by done.
      split; [|done]. by eexists.
  - rewrite _cleanup_get, Hg2.
    destruct (decide (k ∈ all_prices ob)) as [Hk|Hk].
    2:{ rewrite decide_False by done.
        split; [by intros [? ?]|by intros [? _]]. }
    rewrite decide_True by done.
    destruct (dict_get (walls t) k) as [w|] eqn:Hget.
    { destruct (_process_side_tracked_no_new (threshold t)
                  (orderbook.mid_price ob) now
                  da (side_levels s ob) s k db evs_own) as [_ Hs];
        try done.
      split; [|done]. intros _. split; [done|]. left. by eexists. }
    destruct (decide (Exists (wall_level (threshold t) p)
                             (side_levels s ob))) as [Hex|Hnex].
    { destruct (_process_side_new_wall (threshold t)
                  (orderbook.mid_price ob) now
                  da (side_levels s ob) s p db evs_own) as [_ Hs]; try done.
      split; [|done]. intros _. split; [done|]. by right. }
    destruct (_process_side_untouched (threshold t)
                (orderbook.mid_price ob) now da
                (side_levels s ob) s k db evs_own) as [Hgb _]; try done.
    { apply Forall_forall. intros l' Hl' [= Hp].
      apply Qcnot_le_lt. intros Hle. apply Hnex, Exists_exists.
      by exists l'. }
    rewrite Hgb, Hga. split; [by intros [? ?]|].
    intros [_ [[? ?]|?]]; done.
  - rewrite life_app, (life_births _ evs12) by done.
    rewrite (life_removals _ (_cleanup_dead_walls now d2 ob).2)
      by apply _cleanup_types.
    by rewrite fmap_app, Hnew, Hrem, Hev.
Qed.

(** The births and removals of one call: none, a birth, or a removal. *)
Lemma update_life t ob now p s :
  let k := (p, s) in
  wf_walls (walls t) → book_spec.positive_book ob →
  ∃ evs,
    (update t ob now).2 = py.Ok evs
    ∧ (life k evs = []
       ∧ (is_Some (dict_get (walls (update t ob now).1) k)
          ↔ is_Some (dict_get (walls t) k))
       ∨ life k evs = ["NEW_WALL"]
         ∧ dict_get (walls t) k = None
         ∧ is_Some (dict_get (walls (update t ob now).1) k)
       ∨ life k evs = ["WALL_REMOVED"]
         ∧ is_Some (dict_get (walls t) k)
         ∧ dict_get (walls (update t ob now).1) k = None).
Proof.
  intros k Hwf Hpos.
  destruct (update_key_events t ob now p s Hwf Hpos)
    as (evs & Hev & Hnew & Hrem & Hafter & Hlife).
  fold k in Hnew, Hrem, Hafter, Hlife.
  exists evs. split; [done|]. rewrite Hlife, fmap_app, !type_events_about.
  rewrite Hnew. clear Hlife Hnew.
  destruct (dict_get (walls t) k) as [w|] eqn:Hget.
  - rewrite decide_False by (by intros [? _]).
    destruct (decide (k ∈ all_prices ob)) as [Hk|Hk].
    + destruct Hrem as [-> Hs]. left. split; [done|]. by split.
    + destruct Hrem as [(ev & -> & _) Hnone]. right. right.
      split_and!; [done|by eexists|done].
  - rewrite Hrem. simpl. rewrite app_nil_r.
    case_decide as Hm.
    + right. left. split_and!; [done..|]. apply Hafter.
      destruct Hm as [_ Hm]. split; [|by right].
      apply Exists_exists in Hm as (l & Hl & <- & _).
      apply all_prices_side. by apply list_elem_of_fmap_2.
    + left. split; [done|]. rewrite Hafter. split; [|by intros [? ?]].
      intros [_ [[? ?]|?]]; [done|]. destruct Hm. by split.
Qed.

Lemma run_cons t ob now feed :
  run t ((ob, now) :: feed) = run (update t ob now).1 feed.
Proof. done. Qed.

Lemma run_snoc t feed ob now :
  run t (feed ++ [(ob, now)]) = (update (run t feed) ob now).1.
Proof. unfold run. by rewrite foldl_app. Qed.

(** Along a feed, the births and removals of a key take turns, and the
    key is tracked at the end exactly when the last of them is a birth, or
    when there is none and it was tracked at the start. *)
Lemma emitted_alternates t feed p s :
  let k := (p, s) in
  let types := life k (emitted t feed) in
  wf_walls (walls t) →
  Forall (λ obn : orderbook.OrderBook * Qc, book_spec.positive_book obn.1)
         feed →
  alternates (bool_decide (is_Some (dict_get (walls t) k))) types
  ∧ (is_Some (dict_get (walls (run t feed)) k)
     ↔ match last types with
       | Some T => T = "NEW_WALL"
       | None => is_Some (dict_get (walls t) k)
       end).
Proof.
  intros k types Hwf Hfeed. subst types. revert t Hwf.
  induction Hfeed as [|[ob now] feed Hob _ IH]; intros t Hwf.
  { done. }
  rewrite run_cons. cbn [emitted]. simpl in Hob.
  destruct (update_life t ob now p s Hwf Hob) as (evs & Hev & Hcase).
  fold k in Hcase. rewrite Hev, life_app.
  destruct (IH (update t ob now).1) as [IHa IHe]; [by apply update_wf|].
  set (t' := (update t ob now).1) in *.
  set (rest := life k (emitted t' feed)) in *.
  destruct Hcase as [(-> & Hsame)|[(-> & Hnone & Hsome)|(-> & Hsome & Hnone)]].
  - simpl. split.
    + by rewrite <- (bool_decide_ext _ _ Hsame).
    + rewrite IHe. destruct (last rest); [done|]. done.
  - rewrite Hnone in *. rewrite bool_decide_eq_true_2 in IHa by done.
    rewrite (bool_decide_eq_false_2 (is_Some None)) by (by intros [? ?]).
    split; [by split|].
    rewrite IHe. change (["NEW_WALL"] ++ rest) with ("NEW_WALL" :: rest).
    destruct rest as [|T rest']; [done|].
    rewrite last_cons_cons.
    destruct (last (T :: rest')) eqn:Hl; [done|].
    by apply last_None in Hl.
  - rewrite Hnone in *.
    rewrite (bool_decide_eq_false_2 (is_Some None)) in IHa
      by (by intros [? ?]).
    rewrite bool_decide_eq_true_2 by done.
    split; [by split|].
    rewrite IHe. change (["WALL_REMOVED"] ++ rest) with ("WALL_REMOVED" :: rest).
    destruct rest as [|T rest'].
    { simpl. split; [by intros [? ?]|done]. }
    rewrite last_cons_cons.
    destruct (last (T :: rest')) eqn:Hl; [done|].
    by apply last_None in Hl.
Qed.

(** C7.  For a tracker reached from a fresh one by any sequence of calls
    and a snapshot with positive prices, one call of [update] emits, about
    a key [(p, s)]: exactly one [NEW_WALL] event when the key is untracked
    and a level of its side at its price meets the threshold, and none
    otherwise; exactly one [WALL_REMOVED] event when the key is tracked and
    its price is absent from its side of the snapshot, with reason
    ["consumed"] if the wall's [test_count] is positive and ["cancelled"]
    otherwise, the key being dropped from the wall map by that call; and no
    [WALL_REMOVED] event otherwise.  After the call the key is tracked
    exactly when its price is in the snapshot and it was tracked or met the
    threshold.  Across the sequence (snapshots with positive prices), the
    births and removals of the key take turns, a birth first, and the key is
    tracked exactly when the last of them is a birth: a [NEW_WALL] comes
    once for each time the key meets the threshold while untracked, a
    [WALL_REMOVED] once for each disappearance of a tracked key. *)
Theorem wall_birth_and_removal sym thr feed ob now p s :
  let t := run (__init__ sym thr) feed in
  let t' := (update t ob now).1 in
  let k := (p, s) in
  let meets := Exists (wall_level thr p) (side_levels s ob) in
  book_spec.positive_book ob →
  ∃ evs,
    (update t ob now).2 = py.Ok evs
    ∧ length (events_about "NEW_WALL" k evs)
      = (if decide (dict_get (walls t) k = None ∧ meets) then 1 else 0)%nat
    ∧ match dict_get (walls t) k with
      | Some w =>
          if decide (k ∈ all_prices ob)
          then events_about "WALL_REMOVED" k evs = []
               ∧ is_Some (dict_get (walls t') k)
          else (∃ ev, events_about "WALL_REMOVED" k evs = [ev]
                      ∧ reason ev
                        = Some (if bool_decide (0 < test_count w)%Z
                                then "consumed" else "cancelled"))
               ∧ dict_get (walls t') k = None
      | None => events_about "WALL_REMOVED" k evs = []
      end
    ∧ (is_Some (dict_get (walls t') k)
       ↔ k ∈ all_prices ob ∧ (is_Some (dict_get (walls t) k) ∨ meets))
    ∧ (Forall (λ obn : orderbook.OrderBook * Qc,
                 book_spec.positive_book obn.1) feed →
       let before := life k (emitted (__init__ sym thr) feed) in
       let types := life k (emitted (__init__ sym thr)
                                    (feed ++ [(ob, now)])) in
       alternates false types
       ∧ (is_Some (dict_get (walls t) k) ↔ last before = Some "NEW_WALL")
       ∧ (is_Some (dict_get (walls t') k) ↔ last types = Some "NEW_WALL")).
Proof.
  intros t t' k meets Hpos. subst t' k meets.
  destruct (update_key_events t ob now p s) as (evs & Hev & Hnew & Hrem
                                                & Hafter & _);
    [apply run_wf|done|].
  subst t. rewrite run_threshold in Hnew, Hafter.
  exists evs. split_and!; try done.
  intros Hfeed before types. subst before types.
  assert (∀ feed' : list (orderbook.OrderBook * Qc),
            Forall (λ obn, book_spec.positive_book obn.1) feed' →
            alternates false (life (p, s) (emitted (__init__ sym thr) feed'))
            ∧ (is_Some (dict_get (walls (run (__init__ sym thr) feed'))
                                 (p, s))
               ↔ last (life (p, s) (emitted (__init__ sym thr) feed'))
                 = Some "NEW_WALL")) as Hseq.
  { intros feed' Hfeed'.
    destruct (emitted_alternates (__init__ sym thr) feed' p s)
      as [Ha He]; [apply wf_walls_nil|done|].
    split; [done|]. rewrite He.
    destruct (last _) as [T|]; [split; congruence|].
    split; [by intros [? ?]|done]. }
  destruct (Hseq feed Hfeed) as [_ Hb].
  destruct (Hseq (feed ++ [(ob, now)])) as [Ha He].
  { apply Forall_app. split; [done|]. by constructor. }
  rewrite run_snoc in He. done.
Qed.

End wall_claims.

(** * The theorems at the worked inputs *)

Section worked_book.
Import orderbook book_spec.

#[local] Existing Instance py.exact.

Local Ltac by_compute := apply (bool_decide_unpack _); vm_compute; exact I.

(** C1 as stated fails: on the book of the snapshot an event that meets
    the ordering predicate is answered [False] when it crosses the book, and
    on a book whose [_last_u] ran ahead an event that meets the predicate is
    accepted with a smaller [last_update_id]. *)
Lemma ordered_event_not_accepted :
  (_initialized examples.manager = true
   ∧ ordering_predicate examples.manager examples.crossing_event
   ∧ (process_update examples.manager examples.crossing_event
                     (py.lit 1001 1)).1 = false)
  ∧ (_initialized examples.unsynced_manager = true
     ∧ ordering_predicate examples.unsynced_manager examples.no_pu_event
     ∧ (process_update examples.unsynced_manager examples.no_pu_event
                       (py.lit 1001 1)).1 = true
     ∧ (last_update_id
          (orderbook (process_update examples.unsynced_manager
                                     examples.no_pu_event (py.lit 1001 1)).2)
        < last_update_id (orderbook examples.unsynced_manager))%Z).
Proof.
  split_and!; try reflexivity; by_compute.
Qed.

Lemma in_order_feed_witness :
  _initialized examples.manager = true
  ∧ synced examples.manager
  ∧ in_order examples.manager examples.feed
  ∧ never_crossed examples.manager examples.feed
  ∧ Forall (λ r : bool * OrderBookManager, r.1 = true)
           (run examples.manager examples.feed)
  ∧ StronglySorted Z.lt (ids examples.manager examples.feed).
Proof.
  assert (in_order examples.manager examples.feed) as H1 by by_compute.
  assert (never_crossed examples.manager examples.feed) as H2 by by_compute.
  pose proof (in_order_feed_accepted examples.manager examples.feed
                eq_refl eq_refl H1 H2) as [Hacc Hids].
  split_and!; [reflexivity|reflexivity|exact H1|exact H2|exact Hacc|exact Hids].
Defined.

Lemma accepted_updates_witness :
  nonzero_entries (snap_bids examples.snapshot)
  ∧ nonzero_entries (snap_asks examples.snapshot)
  ∧ Forall (λ en : DepthEvent * Qc, nonzero_event en.1) examples.feed
  ∧ Forall (λ r : bool * OrderBookManager,
              r.1 = true → book_invariant (orderbook r.2))
           (run examples.manager examples.feed).
Proof.
  assert (nonzero_entries (snap_bids examples.snapshot)) as H1 by by_compute.
  assert (nonzero_entries (snap_asks examples.snapshot)) as H2 by by_compute.
  assert (Forall (λ en : DepthEvent * Qc, nonzero_event en.1) examples.feed)
    as H3 by by_compute.
  split_and!; [exact H1|exact H2|exact H3|].
  exact (accepted_updates_keep_book_sorted examples.fresh_manager
           examples.snapshot (py.lit 1000 1) examples.feed H1 H2 H3).
Defined.

(** Scenario 1 of the specification: the first event is accepted, the bid
    at 9.9 goes, the ask at 10.2 comes, the id is 103. *)
Example scenario_initialization :
  let r := process_update examples.manager examples.first_event
                          (py.lit 1001 1) in
  r.1 = true
  ∧ bids (orderbook r.2) = [examples.level (py.lit 10 1) (py.lit 1 1)]
  ∧ asks (orderbook r.2) = [examples.level (py.lit 101 10) (py.lit 15 10);
                            examples.level (py.lit 102 10) (py.lit 5 10)]
  ∧ last_update_id (orderbook r.2) = 103%Z.
Proof. by vm_compute. Qed.

(** Scenario 2: the event that starts at 105 is rejected and the book is
    as it was. *)
Example scenario_gap :
  process_update examples.manager examples.gap_event (py.lit 1001 1)
  = (false, examples.manager).
Proof. by vm_compute. Qed.

(** The crossing test reads a best price of zero as an empty side. *)
Example crossing_test_skips_zero_price :
  crossed (examples.book [examples.level (py.lit 1 1) (py.lit 1 1)]
                         [examples.level 0 (py.lit 1 1)]) = false.
Proof. reflexivity. Qed.

End worked_book.

Section worked_ofi.
Import ofi_calculator ofi_spec.

#[local] Existing Instance py.exact.


End worked_ofi.

Section worked_walls.
Import wall_tracker walls_spec.

#[local] Existing Instance py.exact.

Local Ltac by_compute := apply (bool_decide_unpack _); vm_compute; exact I.

Local Abbreviation tracker :=
  (run (__init__ "BTCUSDT" (py.lit 200000 1))
       [(examples.wall_born, py.lit 1 1)]).
Local Abbreviation key := (py.lit 100 1, BID).

Lemma tracked_wall_witness :
  book_spec.positive_book examples.wall_grown
  ∧ NoDup (orderbook.price <$> side_levels BID examples.wall_grown)
  ∧ examples.level (py.lit 100 1) (py.lit 4000 1)
    ∈ side_levels BID examples.wall_grown
  ∧ py.lit 200000 1
    ≤ orderbook.notional (examples.level (py.lit 100 1) (py.lit 4000 1))
  ∧ dict_get (walls tracker) key = Some examples.born_wall
  ∧ ∃ evs w',
      (update tracker examples.wall_grown (py.lit 2 1)).2 = py.Ok evs
      ∧ dict_get (walls (update tracker examples.wall_grown (py.lit 2 1)).1)
                 key = Some w'
      ∧ length (events_about "WALL_REPLENISH" key evs) = 1%nat
      ∧ replenish_count w' = 1%Z
      ∧ test_count w' = 1%Z
      ∧ current_qty w' = py.lit 4000 1
      ∧ peak_qty w' = py.lit 4000 1
      ∧ last_seen w' = py.lit 2 1.
Proof.
  assert (book_spec.positive_book examples.wall_grown) as H1 by by_compute.
  assert (NoDup (orderbook.price <$> side_levels BID examples.wall_grown))
    as H2 by by_compute.
  assert (examples.level (py.lit 100 1) (py.lit 4000 1)
          ∈ side_levels BID examples.wall_grown) as H3 by left.
  assert (py.lit 200000 1
          ≤ orderbook.notional (examples.level (py.lit 100 1) (py.lit 4000 1)))
    as H4 by by_compute.
  assert (dict_get (walls tracker) key = Some examples.born_wall) as H5
    by reflexivity.
  split_and!; [exact H1|exact H2|exact H3|exact H4|exact H5|].
  destruct (tracked_wall_refreshed "BTCUSDT" (py.lit 200000 1)
              [(examples.wall_born, py.lit 1 1)] examples.wall_grown
              (py.lit 2 1) BID
              (examples.level (py.lit 100 1) (py.lit 4000 1))
              examples.born_wall H1 H2 H3 H4 H5)
    as (evs & w' & Hev & Hget & Hrep & Hrc & Htc & Hcq & Hpq & Hls & _).
  exists evs, w'.
  split_and!; [exact Hev|exact Hget| |exact Hrc|exact Htc|exact Hcq|exact Hpq
              |exact Hls].
  apply Nat2Z.inj. exact Hrep.
Defined.

Lemma wall_below_threshold_witness :
  book_spec.positive_book examples.wall_thin
  ∧ NoDup (orderbook.price <$> side_levels BID examples.wall_thin)
  ∧ examples.level (py.lit 100 1) (py.lit 1000 1)
    ∈ side_levels BID examples.wall_thin
  ∧ orderbook.notional (examples.level (py.lit 100 1) (py.lit 1000 1))
    < py.lit 200000 1
  ∧ dict_get (walls tracker) key = Some examples.born_wall
  ∧ ∃ evs,
      (update tracker examples.wall_thin (py.lit 2 1)).2 = py.Ok evs
      ∧ Forall (λ ev, ¬ about key ev) evs
      ∧ dict_get (walls (update tracker examples.wall_thin (py.lit 2 1)).1)
                 key = Some examples.born_wall.
Proof.
  assert (book_spec.positive_book examples.wall_thin) as H1 by by_compute.
  assert (NoDup (orderbook.price <$> side_levels BID examples.wall_thin))
    as H2 by by_compute.
  assert (examples.level (py.lit 100 1) (py.lit 1000 1)
          ∈ side_levels BID examples.wall_thin) as H3 by left.
  assert (orderbook.notional (examples.level (py.lit 100 1) (py.lit 1000 1))
          < py.lit 200000 1) as H4 by by_compute.
  assert (dict_get (walls tracker) key = Some examples.born_wall) as H5
    by reflexivity.
  split_and!; [exact H1|exact H2|exact H3|exact H4|exact H5|].
  exact (wall_below_threshold_kept "BTCUSDT" (py.lit 200000 1)
           [(examples.wall_born, py.lit 1 1)] examples.wall_thin
           (py.lit 2 1) BID
           (examples.level (py.lit 100 1) (py.lit 1000 1))
           examples.born_wall H1 H2 H3 H4 H5).
Defined.

Lemma wall_birth_and_removal_witness :
  let fresh := __init__ "BTCUSDT" (py.lit 200000 1) in
  let feed := more_examples.wall_feed in
  let again := (examples.wall_born, py.lit 4 1) in
  let t := run fresh feed in
  book_spec.positive_book examples.wall_born
  ∧ ∃ evs,
      (update t again.1 again.2).2 = py.Ok evs
      ∧ length (events_about "NEW_WALL" key evs) = 1%nat
      ∧ events_about "WALL_REMOVED" key evs = []
      ∧ is_Some (dict_get (walls (update t again.1 again.2).1) key)
      ∧ life key (emitted fresh (feed ++ [again]))
        = ["NEW_WALL"; "WALL_REMOVED"; "NEW_WALL"]
      ∧ alternates false (life key (emitted fresh (feed ++ [again]))).
Proof.
  intros fresh feed again t.
  assert (book_spec.positive_book examples.wall_born) as H1 by by_compute.
  split; [exact H1|].
  destruct (wall_birth_and_removal "BTCUSDT" (py.lit 200000 1) feed
              examples.wall_born (py.lit 4 1) (py.lit 100 1) BID H1)
    as (evs & Hev & Hnew & Hrem & Hafter & Hseq).
  assert (dict_get (walls t) key = None) as Hnone by reflexivity.
  assert (Exists (wall_level (py.lit 200000 1) (py.lit 100 1))
                 (side_levels BID examples.wall_born)) as Hmeets
    by by_compute.
  assert (Forall (λ obn : orderbook.OrderBook * Qc,
                    book_spec.positive_book obn.1) feed) as Hfeed
    by by_compute.
  destruct (Hseq Hfeed) as (Halt & _ & _).
  exists evs. split_and!.
  - exact Hev.
  - rewrite decide_True in Hnew by (split; [exact Hnone|exact Hmeets]).
    exact Hnew.
  - unfold t, fresh in Hnone. rewrite Hnone in Hrem. exact Hrem.
  - apply Hafter. split; [by_compute|]. right. exact Hmeets.
  - reflexivity.
  - exact Halt.
Defined.

(** Scenario 4 of the specification: birth, replenish with a peak of
    4000, removal as cancelled. *)
Example scenario_wall_life :
  let t0 := __init__ "BTCUSDT" (py.lit 200000 1) in
  let r1 := update t0 examples.wall_born (py.lit 1 1) in
  let r2 := update r1.1 (examples.book
                           [examples.level (py.lit 100 1) (py.lit 4000 1)] [])
                   (py.lit 2 1) in
  let r3 := update r2.1 (examples.book [] []) (py.lit 3 1) in
  examples.kinds <$> [r1.2; r2.2; r3.2]
  = [[("NEW_WALL", None)];
     [("WALL_REPLENISH", None)];
     [("WALL_REMOVED", Some "cancelled")]]
  ∧ peak_qty <$> dict_get (walls r2.1) key = Some (py.lit 4000 1)
  ∧ walls r3.1 = [].
Proof. by vm_compute. Qed.

End worked_walls.

(** The two tests of the tracker on Python floats (binary64, round to
    nearest even). *)
Section worked_doubles.
Import wall_tracker walls_spec.
Import more_examples.

#[local] Existing Instance py.binary64.

(** On floats [3.0 * 1.2] is below [3.6], so that a wall going from 3.0 to
    3.6 is replenished; [7.0 * 1.2] is [8.4], so that a wall going from 7.0
    to 8.4 is not. *)
Example replenish_decided_in_doubles :
  let t0 := __init__ "BTCUSDT" (double 100 1) in
  let second q1 q2 :=
    update (update t0 (bid_at_100 q1) (py.lit 1 1)).1 (bid_at_100 q2)
           (py.lit 2 1) in
  bool_decide (py.mul (double 3 1) (py.flt 12 10) < double 36 10) = true
  ∧ py.mul (double 7 1) (py.flt 12 10) = double 84 10
  ∧ examples.kinds (second (double 3 1) (double 36 10)).2
    = [("WALL_REPLENISH", None)]
  ∧ examples.kinds (second (double 7 1) (double 84 10)).2 = [].
Proof. by vm_compute. Qed.

(** With the best bid at 75 and the best ask at 75.45 the float distance
    of the mid price from 75 is below [0.003]: the wall at 75 is tested, and
    its removal is reported as consumed. *)
Example test_decided_in_doubles :
  let t0 := __init__ "BTCUSDT" (double 100 1) in
  let r1 := update t0 book_75 (py.lit 1 1) in
  let r2 := update r1.1 book_75 (py.lit 2 1) in
  let r3 := update r2.1 (examples.book [] []) (py.lit 3 1) in
  tested book_75 (double 75 1) = true
  ∧ test_count <$> dict_get (walls r2.1) (double 75 1, BID) = Some 1%Z
  ∧ examples.kinds r3.2 = [("WALL_REMOVED", Some "consumed")].
Proof. by vm_compute. Qed.

(** In exact arithmetic the same distance is [0.003] and the wall would
    not be tested. *)
Example test_decided_in_exact_arithmetic :
  tested (F := py.exact) book_75 (double 75 1) = false.
Proof. by vm_compute. Qed.

End worked_doubles.

(** * Further properties of the code *)

(** ** [_apply_update]: the last write wins *)

Section apply_update_facts.
Import orderbook book_spec book_facts.

Implicit Types (side : list PriceLevel) (updates : list (Qc * Qc))
               (pm : gmap Qc PriceLevel) (p : Qc) (l : PriceLevel).

Lemma price_map_lookup side pm p :
  foldl (λ acc level, <[price level := level]> acc) pm side !! p
  = foldl (λ acc l, if decide (price l = p) then Some l else acc)
          (pm !! p) side.
Proof.
  revert pm. induction side as [|l side IH]; intros pm; [done|].
  simpl. rewrite IH, lookup_insert. done.
Qed.

Lemma apply_entries_lookup updates pm p :
  foldl apply_entry pm updates !! p
  = match last_entry p updates with
    | Some q =>
        if decide (q = 0) then None else Some {| price := p; quantity := q |}
    | None => pm !! p
    end.
Proof.
  unfold last_entry.
  induction updates as [|[p' q] updates IH] using rev_ind; [done|].
  rewrite !foldl_app. simpl. unfold apply_entry at 1. simpl.
  case_bool_decide as Hq.
  - rewrite lookup_delete. destruct (decide (p' = p)) as [->|Hne].
    + by rewrite decide_True.
    + done.
  - rewrite lookup_insert. destruct (decide (p' = p)) as [->|Hne].
    + by rewrite decide_False.
    + done.
Qed.

Lemma final_map_lookup updates side p :
  foldl apply_entry (price_map_of side) updates !! p
  = expected_level p updates side.
Proof.
  rewrite apply_entries_lookup. unfold expected_level, price_map_of.
  destruct (last_entry p updates); [done|].
  by rewrite price_map_lookup, lookup_empty.
Qed.

Lemma final_map_keyed updates side :
  keyed (foldl apply_entry (price_map_of side) updates).
Proof. apply keyed_foldl_apply, keyed_foldl_insert, keyed_empty. Qed.

Lemma _apply_update_elem_of updates side reverse l :
  l ∈ _apply_update updates side reverse
  ↔ expected_level (price l) updates side = Some l.
Proof.
  unfold _apply_update. cbv zeta. rewrite merge_sort_Permutation.
  rewrite <- final_map_lookup. unfold values. rewrite list_elem_of_fmap.
  split.
  - intros ([k v] & -> & Hin). apply elem_of_map_to_list in Hin. simpl.
    by rewrite (final_map_keyed updates side k v Hin).
  - intros Hl. exists (price l, l). split; [done|].
    by apply elem_of_map_to_list.
Qed.

(** X1.  A level is on the side after [_apply_update] exactly when it is
    the level that the last write at its price leaves: the last entry of
    the updates at that price with its non-zero quantity, or, without such
    an entry, the last level of the old side at that price; a last entry
    with quantity zero leaves no level at the price.  No two levels of the
    side share a price. *)
Theorem _apply_update_last_write_wins updates side reverse :
  (∀ l, l ∈ _apply_update updates side reverse
        ↔ expected_level (price l) updates side = Some l)
  ∧ NoDup (price <$> _apply_update updates side reverse).
Proof.
  split; [intros l; apply _apply_update_elem_of|apply _apply_update_NoDup].
Qed.

Lemma last_level_elem_of side p l :
  last_level p side = Some l → l ∈ side ∧ price l = p.
Proof.
  unfold last_level. induction side as [|l' side IH] using rev_ind; [done|].
  rewrite foldl_app. simpl. case_decide as Hp.
  - intros [= ->]. split; [|done]. apply elem_of_app. right. by left.
  - intros [Hin ?]%IH. split; [|done]. apply elem_of_app. by left.
Qed.

Lemma last_level_is_Some side p l :
  l ∈ side → price l = p → is_Some (last_level p side).
Proof.
  unfold last_level. induction side as [|l' side IH] using rev_ind.
  { by intros ?%elem_of_nil. }
  rewrite foldl_app. simpl. intros [Hin|Hin]%elem_of_app Hp.
  - case_decide; [by eexists|by apply IH].
  - apply list_elem_of_singleton in Hin as <-. rewrite decide_True by done.
    by eexists.
Qed.

Lemma last_level_unique side p l :
  NoDup (price <$> side) →
  last_level p side = Some l ↔ l ∈ side ∧ price l = p.
Proof.
  intros Hnd. split; [apply last_level_elem_of|].
  intros [Hin Hp]. destruct (last_level_is_Some side p l Hin Hp) as [l' Hl'].
  rewrite Hl'. f_equal.
  apply last_level_elem_of in Hl' as [Hin' Hp'].
  apply (NoDup_fmap_elem_eq price side); [done..|congruence].
Qed.

(** A side listed from a price map gives the price map back. *)
Lemma price_map_of_values pm side :
  keyed pm → side ≡ₚ values pm → price_map_of side = pm.
Proof.
  intros Hk Hperm. apply map_eq. intros p.
  assert (NoDup (price <$> side)) as Hnd.
  { rewrite Hperm. by apply values_NoDup. }
  unfold price_map_of. rewrite price_map_lookup, lookup_empty.
  fold (last_level p side).
  assert (∀ l, l ∈ side ↔ pm !! price l = Some l) as Hin.
  { intros l. rewrite Hperm. unfold values. rewrite list_elem_of_fmap. split.
    - intros ([k v] & -> & Hkv). apply elem_of_map_to_list in Hkv. simpl.
      by rewrite (Hk k v Hkv).
    - intros Hl. exists (price l, l). split; [done|].
      by apply elem_of_map_to_list. }
  destruct (pm !! p) as [v|] eqn:Hpm.
  - apply last_level_unique; [done|]. pose proof (Hk p v Hpm) as Hp.
    split; [|done]. apply Hin. by rewrite Hp.
  - destruct (last_level p side) as [l|] eqn:Hl; [|done].
    apply last_level_elem_of in Hl as [Hl Hp]. apply Hin in Hl.
    rewrite Hp in Hl. congruence.
Qed.

(** X2.  Writing the levels of two events one after the other on a side
    gives the side that their levels written as one event give: the
    sorted side keeps all that the price map held. *)
Theorem _apply_update_compose updates1 updates2 side reverse1 reverse2 :
  _apply_update updates2 (_apply_update updates1 side reverse1) reverse2
  = _apply_update (updates1 ++ updates2) side reverse2.
Proof.
  unfold _apply_update. cbv zeta. f_equal. f_equal.
  rewrite foldl_app. f_equal.
  apply price_map_of_values; [apply final_map_keyed|].
  apply merge_sort_Permutation.
Qed.

Lemma StronglySorted_weaken {A} (R S : relation A) (xs : list A) :
  (∀ x y, R x y → S x y) → StronglySorted R xs → StronglySorted S xs.
Proof.
  intros HRS. induction 1 as [|x xs _ IH Hx]; constructor; [done|].
  eapply Forall_impl; [done|]. auto.
Qed.

Lemma strictly_sorted_NoDup reverse side :
  strictly_sorted reverse side → NoDup (price <$> side).
Proof.
  intros Hs.
  assert (StronglySorted (λ x y, price x ≠ price y) side) as Hne.
  { destruct reverse; simpl in Hs;
      (eapply StronglySorted_weaken; [|exact Hs]); simpl;
      intros x y Hlt Heq; rewrite Heq in Hlt;
      by apply (Qclt_not_eq _ _ Hlt). }
  induction Hne as [|x xs _ IH Hx]; csimpl; constructor.
  - intros (y & Heq & Hy)%list_elem_of_fmap.
    rewrite Forall_forall in Hx. by apply (Hx y Hy).
  - apply IH. destruct reverse; simpl in *; by inv Hs.
Qed.

Lemma strictly_sorted_by_price reverse side :
  strictly_sorted reverse side → StronglySorted (by_price reverse) side.
Proof.
  destruct reverse; simpl; apply StronglySorted_weaken;
    intros x y ?; by apply Qclt_le_weak.
Qed.

(** X3.  An event that has no level for a side leaves the side as it is,
    when the side is in the order of the book with pairwise different
    prices: rebuilding the price map and sorting it gives the same list. *)
Theorem _apply_update_nothing side reverse :
  strictly_sorted reverse side → _apply_update [] side reverse = side.
Proof.
  intros Hs. pose proof (strictly_sorted_NoDup reverse side Hs) as Hnd.
  assert (∀ l, l ∈ _apply_update [] side reverse ↔ l ∈ side) as Hin.
  { intros l. rewrite _apply_update_elem_of.
    unfold expected_level. simpl. rewrite last_level_unique by done.
    tauto. }
  apply (StronglySorted_unique_strong (by_price reverse)).
  - intros x y Hx Hy Hxy Hyx. apply Hin in Hx.
    apply (NoDup_fmap_elem_eq price side); [done..|].
    unfold by_price in *. destruct reverse; by apply Qcle_antisym.
  - apply StronglySorted_merge_sort; apply _.
  - by apply strictly_sorted_by_price.
  - apply NoDup_Permutation; [|by eapply NoDup_fmap_1|done].
    eapply NoDup_fmap_1, _apply_update_NoDup.
Qed.

End apply_update_facts.

(** ** An applied event that crosses the book *)

Section crossed_updates.
Import orderbook book_spec book_facts.

Implicit Types (m : OrderBookManager) (e : DepthEvent) (now : Qc).

Lemma _apply_update_written updates side reverse :
  written updates side (_apply_update updates side reverse) reverse.
Proof.
  split.
  - destruct reverse; [apply _apply_update_descending
                      |apply _apply_update_ascending].
  - intros l. apply _apply_update_elem_of.
Qed.

Lemma slice_to_kept depth (side : list PriceLevel) :
  py.slice_to depth side = take (kept depth side) side.
Proof. unfold py.slice_to, kept. by case_bool_decide. Qed.

(** C8, as the code has it.  On an initialized book, an event that passes
    the ordering predicate and leaves both sides non-empty with
    [best_bid ≥ best_ask], neither of the two being zero, makes
    [process_update] return [False] although the manager was changed: each
    side is the old side with the levels of the event written over it (the
    last entry at a price decides, a zero quantity deletes), sorted and cut
    to [depth] levels, [last_update_id] and [_last_u] are the event's [u],
    and [timestamp] is the clock reading. *)
Theorem process_update_crossed_mutates m e now b a :
  let r := process_update m e now in
  _initialized m = true →
  ordering_predicate m e →
  best_bid (orderbook r.2) = Some b →
  best_ask (orderbook r.2) = Some a →
  b ≠ 0 → a ≠ 0 → a ≤ b →
  r.1 = false
  ∧ r.2 ≠ m
  ∧ ∃ merged_bids merged_asks,
      written (ev_b e) (bids (orderbook m)) merged_bids true
      ∧ written (ev_a e) (asks (orderbook m)) merged_asks false
      ∧ bids (orderbook r.2)
        = take (kept (depth m) merged_bids) merged_bids
      ∧ asks (orderbook r.2)
        = take (kept (depth m) merged_asks) merged_asks
      ∧ last_update_id (orderbook r.2) = ev_u e
      ∧ _last_u r.2 = ev_u e
      ∧ timestamp (orderbook r.2) = now.
Proof.
  intros r Hinit Hord. subst r.
  rewrite process_update_ordered by done.
  unfold applied_result. cbn [fst snd].
  intros Hb Ha Hb0 Ha0 Hle. split_and!.
  - rewrite (crossed_nonzero _ b a) by done.
    by rewrite (bool_decide_eq_true_2 _ Hle).
  - by apply apply_event_changes.
  - exists (_apply_update (ev_b e) (bids (orderbook m)) true),
           (_apply_update (ev_a e) (asks (orderbook m)) false).
    split_and!; try done; try apply _apply_update_written;
      apply slice_to_kept.
Qed.

End crossed_updates.

(** ** The manager along a feed *)

Section manager_facts.
Import orderbook book_spec book_facts.

Implicit Types (m : OrderBookManager) (e : DepthEvent) (now : Qc).

(** X4.  With a depth that is not negative, an applied event leaves at
    most [depth] levels on each side, and they are the best ones: every
    level of the merged side that is cut off is priced below every bid kept,
    above every ask kept. *)
Theorem apply_event_keeps_best m e now :
  (0 ≤ depth m)%Z →
  let merged_bids := _apply_update (ev_b e) (bids (orderbook m)) true in
  let merged_asks := _apply_update (ev_a e) (asks (orderbook m)) false in
  let ob := orderbook (apply_event m e now) in
  (length (bids ob) ≤ Z.to_nat (depth m))%nat
  ∧ (length (asks ob) ≤ Z.to_nat (depth m))%nat
  ∧ (∀ k l, k ∈ bids ob → l ∈ merged_bids → l ∉ bids ob → price l < price k)
  ∧ (∀ k l, k ∈ asks ob → l ∈ merged_asks → l ∉ asks ob → price k < price l).
Proof.
  intros Hd merged_bids merged_asks ob. subst ob. simpl.
  fold merged_bids merged_asks. unfold py.slice_to.
  rewrite !bool_decide_eq_true_2 by done.
  assert (∀ (R : relation PriceLevel) n xs k l,
            StronglySorted R xs → k ∈ take n xs → l ∈ xs → l ∉ take n xs →
            R k l) as Hcut.
  { intros R n xs k l Hs Hk Hl Hnl.
    rewrite <- (take_drop n xs) in Hs, Hl.
    apply elem_of_app in Hl as [?|Hl]; [done|].
    apply StronglySorted_app in Hs as (Hs & _ & _). by apply Hs. }
  split_and!.
  - rewrite length_take. lia.
  - rewrite length_take. lia.
  - intros k l. apply (Hcut (λ x y, price y < price x)).
    apply _apply_update_descending.
  - intros k l. apply (Hcut (λ x y, price x < price y)).
    apply _apply_update_ascending.
Qed.

Lemma process_update_synced m e now :
  synced m → synced (process_update m e now).2.
Proof.
  intros Hs. by destruct (process_update_cases m e now) as [-> | ->].
Qed.

Lemma process_update_initialized m e now :
  _initialized (process_update m e now).2 = _initialized m.
Proof. by destruct (process_update_cases m e now) as [-> | ->]. Qed.

Lemma process_update_frame m e now :
  m_symbol (process_update m e now).2 = m_symbol m
  ∧ depth (process_update m e now).2 = depth m
  ∧ rest_url (process_update m e now).2 = rest_url m
  ∧ symbol (orderbook (process_update m e now).2) = symbol (orderbook m).
Proof. by destruct (process_update_cases m e now) as [-> | ->]. Qed.

Lemma after_feed_frame m0 data t0 feed :
  let m := after_feed (initialize m0 data t0) feed in
  _initialized m = true
  ∧ _last_u m = last_update_id (orderbook m)
  ∧ m_symbol m = m_symbol m0 ∧ depth m = depth m0 ∧ rest_url m = rest_url m0
  ∧ symbol (orderbook m) = symbol (orderbook m0).
Proof.
  unfold after_feed. induction feed as [|[e now] feed IH] using rev_ind.
  { done. }
  rewrite foldl_app. simpl.
  destruct IH as (Hi & Hs & H1 & H2 & H3 & H4).
  set (m := foldl _ _ feed) in *.
  pose proof (process_update_frame m e now) as (F1 & F2 & F3 & F4).
  split_and!; try congruence.
  - by rewrite process_update_initialized.
  - by apply process_update_synced.
Qed.

(** X5.  After [initialize], along any feed, the manager stays
    initialized, [_last_u] stays equal to the [last_update_id] of the book,
    and the symbol, the depth and the REST address are never written. *)
Theorem after_feed_in_step m0 data t0 feed :
  let m := after_feed (initialize m0 data t0) feed in
  _initialized m = true
  ∧ _last_u m = last_update_id (orderbook m)
  ∧ m_symbol m = m_symbol m0 ∧ depth m = depth m0 ∧ rest_url m = rest_url m0
  ∧ symbol (orderbook m) = symbol (orderbook m0).
Proof. apply after_feed_frame. Qed.

(** X6.  For a manager driven from [initialize], the ["pu"] of an event
    plays no part: [process_update] gives the same answer and the same
    manager whatever ["pu"] the event carries, or without one. *)
Theorem process_update_ignores_pu m0 data t0 feed e pu now :
  let m := after_feed (initialize m0 data t0) feed in
  process_update m (with_pu e pu) now = process_update m e now.
Proof.
  intros m.
  destruct (after_feed_frame m0 data t0 feed) as (Hi & Hs & _).
  fold m in Hi, Hs. unfold process_update. rewrite Hi. simpl.
  by rewrite !(bool_decide_eq_true_2 _ Hs).
Qed.

(** X7.  For a manager driven from [initialize], a call of
    [process_update] either answers [False] and leaves the manager as it
    is, or applies the event and moves [last_update_id] strictly up; so the
    ids of the book along any feed never go down. *)
Theorem last_update_id_never_decreases m0 data t0 feed :
  let m := initialize m0 data t0 in
  StronglySorted Z.le (ids m feed)
  ∧ ∀ e now,
      let m' := after_feed m feed in
      process_update m' e now = (false, m')
      ∨ ((process_update m' e now).2 = apply_event m' e now
         ∧ (last_update_id (orderbook m')
            < last_update_id (orderbook (process_update m' e now).2))%Z).
Proof.
  intros m.
  assert (∀ m e now, _initialized m = true → synced m →
            process_update m e now = (false, m)
            ∨ ((process_update m e now).2 = apply_event m e now
               ∧ (last_update_id (orderbook m)
                  < last_update_id (orderbook (process_update m e now).2))%Z))
    as Hstep.
  { clear. intros m e now Hi Hs.
    destruct (decide (ordering_predicate m e)) as [Hord|Hord].
    - right. rewrite process_update_ordered by done.
      split; [done|]. simpl.
      destruct Hord as [(_ & _ & Hu)|(Hn & _)]; [|done].
      unfold synced in Hs. lia.
    - left. by apply process_update_unordered. }
  split.
  - apply Sorted_StronglySorted; [apply _|].
    assert (_initialized m = true ∧ synced m) as Hm by done.
    clearbody m. revert m Hm.
    induction feed as [|[e now] feed IH]; intros m [Hi Hs].
    { unfold ids. simpl. repeat constructor. }
    unfold ids in *. simpl.
    specialize (IH (process_update m e now).2).
    constructor.
    + apply IH. split.
      * by rewrite process_update_initialized.
      * by apply process_update_synced.
    + constructor. destruct (Hstep m e now Hi Hs) as [-> | [_ Hlt]];
        simpl; lia.
  - intros e now m'.
    destruct (after_feed_frame m0 data t0 feed) as (Hi & Hs & _).
    by apply Hstep.
Qed.

End manager_facts.

(** ** Quantities and derived prices of the book *)

Section book_values.
Import orderbook book_spec book_facts.

Context {F : py.Float}.

Implicit Types (m : OrderBookManager) (e : DepthEvent) (now : Qc)
               (ob : OrderBook).

Lemma last_entry_nonzero p updates side l :
  expected_level p updates side = Some l →
  quantity l ≠ 0 ∨ last_level p side = Some l.
Proof.
  unfold expected_level. destruct (last_entry p updates) as [q|]; [|by right].
  case_decide; [done|]. intros [= <-]. by left.
Qed.

Lemma _apply_update_nonzero updates side reverse :
  nonzero_quantities side →
  nonzero_quantities (_apply_update updates side reverse).
Proof.
  intros Hside. apply Forall_forall. intros l Hl.
  apply _apply_update_elem_of, last_entry_nonzero in Hl as [?|Hl];
    [done|].
  apply last_level_elem_of in Hl as [Hl _].
  unfold nonzero_quantities in Hside. rewrite Forall_forall in Hside.
  by apply Hside.
Qed.

Lemma process_update_nonzero m e now :
  nonzero_quantities (bids (orderbook m)) →
  nonzero_quantities (asks (orderbook m)) →
  nonzero_quantities (bids (orderbook (process_update m e now).2))
  ∧ nonzero_quantities (asks (orderbook (process_update m e now).2)).
Proof.
  intros Hb Ha. destruct (process_update_cases m e now) as [-> | ->]; [done|].
  simpl. split.
  - destruct (slice_to_take (depth m)
                (_apply_update (ev_b e) (bids (orderbook m)) true)) as [k ->].
    by apply Forall_take, _apply_update_nonzero.
  - destruct (slice_to_take (depth m)
                (_apply_update (ev_a e) (asks (orderbook m)) false)) as [k ->].
    by apply Forall_take, _apply_update_nonzero.
Qed.

(** X8.  When the snapshot has no level with quantity zero, the book
    never has one, along any feed: an entry with quantity zero only
    deletes. *)
Theorem book_never_holds_zero_quantity m0 data t0 feed :
  Forall (λ pq : Qc * Qc, pq.2 ≠ 0) (snap_bids data) →
  Forall (λ pq : Qc * Qc, pq.2 ≠ 0) (snap_asks data) →
  let m := after_feed (initialize m0 data t0) feed in
  nonzero_quantities (bids (orderbook m))
  ∧ nonzero_quantities (asks (orderbook m)).
Proof.
  intros Hb Ha. unfold after_feed.
  induction feed as [|[e now] feed IH] using rev_ind.
  { simpl. unfold nonzero_quantities. by rewrite !Forall_fmap. }
  rewrite foldl_app. simpl. destruct IH as [IHb IHa].
  by apply process_update_nonzero.
Qed.

(** X10.  The mid price and the spread are absent exactly when a side is
    empty or a best price is zero, and the mid price is then never the
    divisor of the spread. *)
Theorem mid_price_absent ob :
  (mid_price ob = None
   ↔ best_bid ob = None ∨ best_ask ob = None
     ∨ best_bid ob = Some 0 ∨ best_ask ob = Some 0)
  ∧ (mid_price ob = None → spread_bps ob = None)
  ∧ (mid_price ob = Some 0 → spread_bps ob = None).
Proof.
  assert (∀ x, py.truthy x = false ↔ x = 0) as Hz.
  { intros x. unfold py.truthy. rewrite negb_false_iff, bool_decide_eq_true.
    done. }
  split_and!.
  - unfold mid_price.
    destruct (best_bid ob) as [b|], (best_ask ob) as [a|];
      cbn [py.truthy_opt]; rewrite ?andb_false_r; try (split; by auto).
    destruct (py.truthy b) eqn:Hb, (py.truthy a) eqn:Ha; cbn [andb].
    + split; [done|]. intros [?|[?|[[= H0]|[= H0]]]]; try done.
      * apply Hz in H0. congruence.
      * apply Hz in H0. congruence.
    + apply Hz in Ha as ->. split; by auto.
    + apply Hz in Hb as ->. split; by auto.
    + apply Hz in Hb as ->. split; by auto.
  - unfold spread_bps. intros ->. cbn [py.truthy_opt].
    by rewrite andb_false_r.
  - unfold spread_bps. intros ->. cbn [py.truthy_opt].
    rewrite (proj2 (Hz 0) eq_refl). by rewrite andb_false_r.
Qed.

End book_values.

(** ** The raw OFI *)

Section raw_ofi_facts.
Import ofi_calculator ofi_facts.

Lemma foldl_plus_acc {A} (f : A → Qc) (a : Qc) (xs : list A) :
  foldl (λ δ x, δ + f x) a xs = a + sum_over f xs.
Proof.
  unfold sum_over. revert a. induction xs as [|x xs IH]; intros a; simpl.
  - ring.
  - rewrite (IH (a + f x)), (IH (0 + f x)). ring.
Qed.

Lemma sum_over_cons {A} (f : A → Qc) x xs :
  sum_over f (x :: xs) = f x + sum_over f xs.
Proof.
  unfold sum_over at 1. simpl. rewrite foldl_plus_acc. ring.
Qed.

Lemma sum_over_Permutation {A} (f : A → Qc) xs ys :
  xs ≡ₚ ys → sum_over f xs = sum_over f ys.
Proof.
  induction 1 as [|x xs ys _ IH|x y xs|xs ys zs _ IH1 _ IH2].
  - done.
  - by rewrite !sum_over_cons, IH.
  - rewrite !sum_over_cons. ring.
  - by rewrite IH1.
Qed.

Lemma sum_over_ext {A} (f g : A → Qc) xs :
  (∀ x, x ∈ xs → f x = g x) → sum_over f xs = sum_over g xs.
Proof.
  induction xs as [|x xs IH]; intros Hfg; [done|].
  rewrite !sum_over_cons, IH, Hfg; [done|by left|].
  intros y Hy. apply Hfg. by right.
Qed.

Lemma sum_over_minus {A} (f g : A → Qc) xs :
  sum_over (λ x, f x - g x) xs = sum_over f xs - sum_over g xs.
Proof.
  induction xs as [|x xs IH]; [unfold sum_over; simpl; ring|].
  rewrite !sum_over_cons, IH. ring.
Qed.

Lemma sum_over_zero {A} (xs : list A) : sum_over (λ _, 0) xs = 0.
Proof.
  induction xs as [|x xs IH]; [done|]. rewrite sum_over_cons, IH. ring.
Qed.

Lemma side_delta_sum prev curr :
  side_delta prev curr
  = sum_over (λ p, default 0 (curr !! p) - default 0 (prev !! p))
             (elements (dom prev ∪ dom curr)).
Proof. done. Qed.

Lemma sum_over_lookup (m : gmap Qc Qc) (keys : list Qc) :
  NoDup keys → (∀ k, is_Some (m !! k) → k ∈ keys) →
  sum_over (λ p, default 0 (m !! p)) keys = map_total m.
Proof.
  revert keys. induction m as [|i x m Hi IH] using map_ind;
    intros keys Hnd Hcover.
  { unfold map_total. rewrite map_to_list_empty.
    rewrite (sum_over_ext _ (λ _, 0)); [apply sum_over_zero|].
    intros k _. by rewrite lookup_empty. }
  assert (i ∈ keys) as Hin.
  { apply Hcover. rewrite lookup_insert_eq. by eexists. }
  apply elem_of_Permutation in Hin as [keys' Hperm].
  rewrite Hperm in Hnd. apply NoDup_cons in Hnd as [Hnotin Hnd'].
  rewrite (sum_over_Permutation _ _ _ Hperm), sum_over_cons.
  rewrite lookup_insert_eq. simpl.
  unfold map_total.
  rewrite (sum_over_Permutation _ _ _ (map_to_list_insert m i x Hi)).
  rewrite sum_over_cons. simpl. f_equal.
  rewrite (sum_over_ext _ (λ p, default 0 (m !! p))).
  - apply IH; [done|]. intros k Hk.
    assert (k ∈ keys) as Hk'.
    { apply Hcover. rewrite lookup_insert_ne; [done|].
      intros ->. rewrite Hi in Hk. by destruct Hk. }
    rewrite Hperm in Hk'. apply elem_of_cons in Hk' as [->|?]; [|done].
    rewrite Hi in Hk. by destruct Hk.
  - intros k Hk. rewrite lookup_insert_ne; [done|]. by intros ->.
Qed.

Lemma side_delta_totals prev curr :
  side_delta prev curr = map_total curr - map_total prev.
Proof.
  rewrite side_delta_sum, sum_over_minus.
  rewrite !sum_over_lookup; [done|apply NoDup_elements|..|apply NoDup_elements|].
  - intros k Hk. apply elem_of_elements, elem_of_union. left.
    by apply elem_of_dom.
  - intros k Hk. apply elem_of_elements, elem_of_union. right.
    by apply elem_of_dom.
Qed.

Lemma side_delta_same m : side_delta m m = 0.
Proof. rewrite side_delta_totals. ring. Qed.

Variable sqrt : Qc → Qc.

(** X12.  A snapshot shown twice in a row gives a raw OFI of zero the
    second time, whatever the calculator and the snapshot. *)
Theorem raw_ofi_of_unchanged_book c ob :
  raw (update sqrt (update sqrt c ob).2 ob).1 = 0.
Proof.
  assert (∀ c', _prev_bids c' = Some (top_bids c ob) →
                _prev_asks c' = Some (top_asks c ob) →
                depth c' = depth c →
                raw (update sqrt c' ob).1 = 0) as Hsame.
  { intros c' Hb Ha Hd. unfold update. rewrite Hb, Hd.
    fold (top_bids c ob) (top_asks c ob).
    destruct (bool_decide (20 ≤ _)%nat); simpl;
      unfold _calculate_raw_ofi; rewrite Hb, Ha; simpl;
      rewrite !side_delta_same; ring. }
  apply Hsame; unfold update, top_bids, top_asks;
    destruct (_prev_bids c); simpl; try done;
    by destruct (bool_decide (20 ≤ _)%nat).
Qed.

End raw_ofi_facts.

(** ** The history, the EMA and the signal of the calculator *)

Section calculator_facts.
Import ofi_calculator ofi_spec ofi_facts.

Variable sqrt : Qc → Qc.

Implicit Types (c : OFICalculator) (ob : orderbook.OrderBook).

Lemma keep_last_app {A} (n : nat) (xs ys : list A) :
  keep_last n (keep_last n xs ++ ys) = keep_last n (xs ++ ys).
Proof.
  unfold keep_last. rewrite !length_app, length_drop.
  destruct (decide (length xs ≤ n)%nat) as [Hle|Hgt].
  - replace (length xs - n)%nat with 0%nat by lia. simpl.
    by replace (length xs - 0)%nat with (length xs) by lia.
  - replace (length xs - (length xs - n) + length ys - n)%nat
      with (length ys) by lia.
    replace (length xs + length ys - n)%nat
      with ((length xs - n) + length ys)%nat by lia.
    rewrite <- drop_drop. f_equal.
    rewrite drop_app_le by lia. done.
Qed.

Lemma keep_last_length {A} (n : nat) (xs : list A) :
  length (keep_last n xs) = (length xs `min` n)%nat.
Proof. unfold keep_last. rewrite length_drop. lia. Qed.

Lemma update_constants c ob :
  depth (update sqrt c ob).2 = depth c
  ∧ ema_span (update sqrt c ob).2 = ema_span c
  ∧ alpha (update sqrt c ob).2 = alpha c
  ∧ maxlen (update sqrt c ob).2 = maxlen c.
Proof.
  unfold update. destruct (_prev_bids c); [|done].
  by destruct (bool_decide (20 ≤ _)%nat).
Qed.

Lemma update_history c ob :
  _history (update sqrt c ob).2
  = match _prev_bids c with
    | Some _ => keep_last (maxlen c)
                          (_history c ++ [raw (update sqrt c ob).1])
    | None => _history c
    end.
Proof.
  unfold update. destruct (_prev_bids c); [|done].
  by destruct (bool_decide (20 ≤ _)%nat).
Qed.

Lemma run_history c snapshots :
  is_Some (_prev_bids c) →
  ∀ i r c', run sqrt c snapshots !! i = Some (r, c') →
    maxlen c' = maxlen c
    ∧ _history c'
      = keep_last (maxlen c)
          (_history c
           ++ ((λ rc : OFIState * OFICalculator, raw rc.1)
                 <$> take (S i) (run sqrt c snapshots))).
Proof.
  revert c. induction snapshots as [|ob snapshots IH]; intros c Hprev i r c' Hi;
    [done|].
  pose proof (update_constants c ob) as (_ & _ & _ & Hm).
  pose proof (update_history c ob) as Hh.
  destruct Hprev as [prev Hprev]. rewrite Hprev in Hh.
  destruct i as [|i]; simpl in Hi.
  - injection Hi as Hi. simpl. rewrite Hi in Hm, Hh |- *. simpl in *.
    done.
  - apply IH in Hi as [Hm' Hh']; [|apply update_prev_bids].
    split; [congruence|].
    rewrite Hh', Hh, Hm. simpl.
    rewrite keep_last_app, <- app_assoc. done.
Qed.

(** X13.  From a fresh calculator the history is a ring of capacity
    [history_size]: after any sequence of calls it holds the raw values of
    the calls after the first one, the oldest leaving first, and never more
    than [history_size] of them. *)
Theorem history_is_ring depth ema_span history_size c0 snapshots i r c :
  __init__ depth ema_span history_size = Some c0 →
  run sqrt c0 snapshots !! i = Some (r, c) →
  _history c
  = keep_last (Z.to_nat history_size)
              (raws (take (S i) (run sqrt c0 snapshots)))
  ∧ (length (_history c) ≤ Z.to_nat history_size)%nat.
Proof.
  intros Hinit Hi.
  assert (maxlen c0 = Z.to_nat history_size) as Hm.
  { unfold __init__ in Hinit. repeat case_bool_decide; [done..|].
    by injection Hinit as <-. }
  apply __init___fresh in Hinit as [Hprev Hhist].
  assert (_history c
          = keep_last (Z.to_nat history_size)
                      (raws (take (S i) (run sqrt c0 snapshots)))) as Heq.
  { destruct snapshots as [|ob snapshots]; [done|].
    destruct (update_priming sqrt c0 ob Hprev) as [Hr Hh].
    pose proof (update_constants c0 ob) as (_ & _ & _ & Hm0).
    unfold raws. destruct i as [|i]; simpl in Hi |- *.
    - injection Hi as Hi. rewrite Hi in Hh. simpl in Hh.
      by rewrite Hh, Hhist.
    - apply run_history in Hi as [_ Hh']; [|apply update_prev_bids].
      rewrite Hh', Hh, Hhist, Hm0, Hm. simpl. by rewrite drop_0. }
  split; [done|]. rewrite Heq, keep_last_length. lia.
Qed.

Lemma run_constants c snapshots i r c' :
  run sqrt c snapshots !! i = Some (r, c') →
  depth c' = depth c ∧ ema_span c' = ema_span c
  ∧ alpha c' = alpha c ∧ maxlen c' = maxlen c.
Proof.
  revert c i. induction snapshots as [|ob snapshots IH]; intros c i Hi;
    [done|].
  pose proof (update_constants c ob) as (H1 & H2 & H3 & H4).
  destruct i as [|i]; simpl in Hi.
  - injection Hi as Hi. rewrite Hi in H1, H2, H3, H4. done.
  - apply IH in Hi as (? & ? & ? & ?). split_and!; congruence.
Qed.

(** X14.  [reset] takes a calculator, however long it ran, back to the
    calculator the constructor built: the same outputs follow. *)
Theorem reset_is_fresh depth ema_span history_size c0 snapshots i r c :
  __init__ depth ema_span history_size = Some c0 →
  run sqrt c0 snapshots !! i = Some (r, c) →
  reset c = c0.
Proof.
  intros Hinit Hi. apply run_constants in Hi as (H1 & H2 & H3 & H4).
  unfold reset. rewrite H1, H2, H3, H4.
  unfold __init__ in Hinit. repeat case_bool_decide; [done..|].
  injection Hinit as <-. reflexivity.
Qed.

Lemma Qclt_opp_l (x y : Qc) : x < - y ↔ y < - x.
Proof.
  rewrite (Qclt_minus_iff x (- y)), (Qclt_minus_iff y (- x)).
  by rewrite (Qcplus_comm (- y)).
Qed.

Lemma Qclt_opp_r (x y : Qc) : - x < y ↔ - y < x.
Proof.
  rewrite (Qclt_minus_iff (- x) y), (Qclt_minus_iff (- y) x).
  rewrite !Qcopp_involutive. by rewrite (Qcplus_comm y).
Qed.

(** X15.  The classification is symmetric: the signal of [-z] is the
    mirror of the signal of [z]; and the signal is ["NEUTRAL"] exactly for
    [-1 ≤ z ≤ 1]. *)
Theorem _get_signal_symmetric z :
  _get_signal (- z) = mirror (_get_signal z)
  ∧ (_get_signal z = "NEUTRAL" ↔ py.lit (-1) 1 ≤ z ∧ z ≤ py.lit 1 1).
Proof.
  assert (py.lit 1 1 < py.lit 2 1) as H12 by reflexivity.
  assert (py.lit (-2) 1 < py.lit (-1) 1) as H21 by reflexivity.
  assert (py.lit (-1) 1 < py.lit 1 1) as H11 by reflexivity.
  assert (- py.lit 2 1 = py.lit (-2) 1) as O2
    by (apply Qc_is_canon; reflexivity).
  assert (- py.lit 1 1 = py.lit (-1) 1) as O1
    by (apply Qc_is_canon; reflexivity).
  assert (- py.lit (-2) 1 = py.lit 2 1) as P2
    by (apply Qc_is_canon; reflexivity).
  assert (- py.lit (-1) 1 = py.lit 1 1) as P1
    by (apply Qc_is_canon; reflexivity).
  assert (py.lit 2 1 < - z ↔ z < py.lit (-2) 1) as E2.
  { rewrite Qclt_opp_l, O2. tauto. }
  assert (py.lit 1 1 < - z ↔ z < py.lit (-1) 1) as E1.
  { rewrite Qclt_opp_l, O1. tauto. }
  assert (- z < py.lit (-2) 1 ↔ py.lit 2 1 < z) as F2.
  { rewrite Qclt_opp_r, P2. tauto. }
  assert (- z < py.lit (-1) 1 ↔ py.lit 1 1 < z) as F1.
  { rewrite Qclt_opp_r, P1. tauto. }
  unfold _get_signal.
  rewrite (bool_decide_ext _ _ E2), (bool_decide_ext _ _ E1),
    (bool_decide_ext _ _ F2), (bool_decide_ext _ _ F1).
  clear E2 E1 F2 F1 O2 O1 P2 P1.
  destruct (decide (py.lit 2 1 < z)) as [A|A].
  { assert (py.lit 1 1 < z) as B by (eapply Qclt_trans; eassumption).
    assert (¬ z < py.lit (-1) 1) as D.
    { intros D. apply (irreflexivity Qclt z).
      eapply Qclt_trans; [exact D|]. eapply Qclt_trans; eassumption. }
    assert (¬ z < py.lit (-2) 1) as C.
    { intros C. apply D. eapply Qclt_trans; eassumption. }
    rewrite (bool_decide_eq_true_2 _ A), (bool_decide_eq_false_2 _ C),
      (bool_decide_eq_false_2 _ D).
    split; [reflexivity|]. split; [discriminate|].
    intros [_ H]. destruct (Qcle_not_lt _ _ H B). }
  rewrite (bool_decide_eq_false_2 _ A).
  destruct (decide (py.lit 1 1 < z)) as [B|B].
  { assert (¬ z < py.lit (-1) 1) as D.
    { intros D. apply (irreflexivity Qclt z).
      eapply Qclt_trans; [exact D|]. eapply Qclt_trans; eassumption. }
    assert (¬ z < py.lit (-2) 1) as C.
    { intros C. apply D. eapply Qclt_trans; eassumption. }
    rewrite (bool_decide_eq_true_2 _ B), (bool_decide_eq_false_2 _ C),
      (bool_decide_eq_false_2 _ D).
    split; [reflexivity|]. split; [discriminate|].
    intros [_ H]. destruct (Qcle_not_lt _ _ H B). }
  rewrite (bool_decide_eq_false_2 _ B).
  destruct (decide (z < py.lit (-2) 1)) as [C|C].
  { assert (z < py.lit (-1) 1) as D by (eapply Qclt_trans; eassumption).
    rewrite (bool_decide_eq_true_2 _ C), ?(bool_decide_eq_true_2 _ D).
    split; [reflexivity|]. split; [discriminate|].
    intros [H _]. destruct (Qcle_not_lt _ _ H D). }
  rewrite (bool_decide_eq_false_2 _ C).
  destruct (decide (z < py.lit (-1) 1)) as [D|D].
  { rewrite (bool_decide_eq_true_2 _ D).
    split; [reflexivity|]. split; [discriminate|].
    intros [H _]. destruct (Qcle_not_lt _ _ H D). }
  rewrite (bool_decide_eq_false_2 _ D).
  split; [reflexivity|]. split; [|reflexivity].
  intros _. split; by apply Qcnot_lt_le.
Qed.

End calculator_facts.

(** ** The wall tracker *)

Section tracker_facts.
Import wall_tracker walls_spec walls_facts.

Context {F : py.Float}.

Implicit Types (d : list (Key * Wall)) (k : Key) (w : Wall) (s : WallSide)
               (t : WallTracker) (ob : orderbook.OrderBook)
               (l : orderbook.PriceLevel)
               (levels : list orderbook.PriceLevel).

(** A level that meets a positive threshold has a price that is not zero,
    so the division of the loop body is defined. *)
Lemma process_level_guarded threshold s cp now d l :
  0 < threshold → ∃ evs, (process_level threshold s cp now d l).2 = py.Ok evs.
Proof.
  intros Hthr. destruct (decide (orderbook.price l = 0)) as [H0|Hn0].
  - rewrite process_level_below; [by eexists|].
    unfold orderbook.notional, py.mul. by rewrite H0, Qcmult_0_l, py.rnd_0.
  - by apply process_level_returns.
Qed.

Lemma _process_side_guarded threshold cp now d levels s :
  0 < threshold →
  ∃ d' evs, _process_side threshold now d levels s cp = (d', py.Ok evs).
Proof.
  intros Hthr. revert d. induction levels as [|l levels IH]; intros d.
  { by exists d, []. }
  destruct (process_level_guarded threshold s cp now d l Hthr) as [evs1 Hev].
  destruct (process_level threshold s cp now d l) as [d1 r1] eqn:Hstep.
  simpl in Hev. subst r1.
  destruct (IH d1) as (d' & evs2 & Hrest).
  exists d', (evs1 ++ evs2). simpl. by rewrite Hstep, Hrest.
Qed.

Lemma update_guarded t ob now :
  0 < threshold t → ∃ evs, (update t ob now).2 = py.Ok evs.
Proof.
  intros Hthr. unfold update. cbv zeta.
  destruct (_process_side_guarded (threshold t) (orderbook.mid_price ob) now
              (walls t) (orderbook.bids ob) BID Hthr) as (d1 & evs1 & ->).
  destruct (_process_side_guarded (threshold t) (orderbook.mid_price ob) now
              d1 (orderbook.asks ob) ASK Hthr) as (d2 & evs2 & ->).
  destruct (_cleanup_dead_walls now d2 ob). by eexists.
Qed.

(** X17.  A tracker built with a positive threshold never raises: after
    any calls, [update] returns its events on every book, whatever the
    prices, since the division by the price of a level is only reached for
    a level whose notional meets the threshold. *)
Theorem update_never_raises sym thr feed ob now :
  0 < thr →
  ∃ evs, (update (run (__init__ sym thr) feed) ob now).2 = py.Ok evs.
Proof.
  intros Hthr. apply update_guarded. by rewrite run_threshold.
Qed.

(** X18.  After a call of [update] that returns, every key of the wall map
    is the price and side of a level of the book of the call. *)
Theorem tracked_keys_in_book t ob now evs :
  (update t ob now).2 = py.Ok evs →
  Forall (λ k, k ∈ all_prices ob) (walls (update t ob now).1).*1.
Proof.
  unfold update. cbv zeta.
  destruct (_process_side _ _ (walls t) _ BID _) as [d1 [evs1|exn]]; [|done].
  destruct (_process_side _ _ d1 _ ASK _) as [d2 [evs2|exn]]; [|done].
  pose proof (_cleanup_get now d2 ob) as Hget.
  destruct (_cleanup_dead_walls now d2 ob) as [d3 evs3]. simpl in *.
  intros _. apply Forall_forall. intros k Hk.
  specialize (Hget k). destruct (decide (k ∈ all_prices ob)); [done|].
  by apply dict_get_None in Hget.
Qed.

(** The items of the wall map stay sound. *)
Lemma max_ge_l (x y : Qc) : x ≤ py.max x y.
Proof.
  unfold py.max. case_bool_decide; [by apply Qclt_le_weak|apply Qcle_refl].
Qed.

Lemma max_ge_r (x y : Qc) : y ≤ py.max x y.
Proof.
  unfold py.max. case_bool_decide; [apply Qcle_refl|by apply Qcnot_lt_le].
Qed.

Lemma sound_bump_replenish threshold k w :
  sound_wall threshold (k, w) → sound_wall threshold (k, bump_replenish w).
Proof.
  unfold sound_wall, notional. simpl. intros (? & ? & ? & ? & ? & ?).
  split_and!; try done. lia.
Qed.

Lemma sound_bump_test threshold k w :
  sound_wall threshold (k, w) → sound_wall threshold (k, bump_test w).
Proof.
  unfold sound_wall, notional. simpl. intros (? & ? & ? & ? & ? & ?).
  split_and!; try done. lia.
Qed.

Lemma sound_refresh threshold k w qty now :
  sound_wall threshold (k, w) → threshold ≤ py.mul (price w) qty →
  sound_wall threshold (k, refresh w qty now).
Proof.
  unfold sound_wall, notional. simpl. intros (? & ? & ? & ? & ? & ?) Hthr.
  split_and!; try done; [apply max_ge_r|].
  eapply Qcle_trans; [done|apply max_ge_l].
Qed.

Lemma sound_new threshold p s qty now :
  threshold ≤ py.mul p qty →
  sound_wall threshold ((p, s), Wall_new p s qty qty now now).
Proof.
  unfold sound_wall, notional. simpl. intros Hthr.
  split_and!; try done; apply max_ge_r.
Qed.

Lemma Forall_dict_set (P : Key * Wall → Prop) d k w :
  Forall P d → P (k, w) → Forall P (dict_set d k w).
Proof.
  intros Hd Hw. apply Forall_forall.
  intros [k' w'] [[= -> ->]|Hin]%dict_set_elem_of; [done|].
  rewrite Forall_forall in Hd. by apply Hd.
Qed.

Lemma process_level_sound threshold s cp now d l :
  Forall (sound_wall threshold) d →
  Forall (sound_wall threshold) (process_level threshold s cp now d l).1.
Proof.
  intros Hd. unfold process_level. case_bool_decide as Hthr; [|done].
  cbv zeta. unfold orderbook.notional in Hthr.
  destruct (dict_get d (orderbook.price l, s)) as [w0|] eqn:Hget.
  2:{ simpl. apply Forall_dict_set; [done|]. by apply sound_new. }
  assert (sound_wall threshold ((orderbook.price l, s), w0)) as Hw0.
  { rewrite Forall_forall in Hd. by apply Hd, dict_get_elem_of. }
  set (w1 := if bool_decide (py.mul (current_qty w0) (py.flt 12 10)
                             < orderbook.quantity l)
             then bump_replenish w0 else w0).
  assert (sound_wall threshold ((orderbook.price l, s), w1)) as Hw1.
  { subst w1. destruct (bool_decide _); [by apply sound_bump_replenish|done]. }
  assert (price w1 = orderbook.price l) as Hp1.
  { destruct Hw1 as [[= ? ?] _]. done. }
  assert (∀ w2, sound_wall threshold ((orderbook.price l, s), w2) →
                price w2 = orderbook.price l →
                Forall (sound_wall threshold)
                  (dict_set d (orderbook.price l, s)
                            (refresh w2 (orderbook.quantity l) now))) as Href.
  { intros w2 Hw2 Hp2. apply Forall_dict_set; [done|].
    apply sound_refresh; [done|]. by rewrite Hp2. }
  destruct cp as [cp|]; [|by apply Href].
  destruct (py.truthy cp); [|by apply Href].
  destruct (bool_decide (orderbook.price l = 0)).
  { simpl. by apply Forall_dict_set. }
  simpl. destruct (bool_decide (py.div _ _ < _)); [|by apply Href].
  apply Href; [by apply sound_bump_test|done].
Qed.

Lemma _process_side_sound threshold cp now d levels s :
  Forall (sound_wall threshold) d →
  Forall (sound_wall threshold) (_process_side threshold now d levels s cp).1.
Proof.
  revert d. induction levels as [|l levels IH]; intros d Hd; [done|].
  simpl.
  pose proof (process_level_sound threshold s cp now d l Hd) as Hd1.
  destruct (process_level threshold s cp now d l) as [d1 [evs1|exn]]; [|done].
  specialize (IH d1 Hd1).
  by destruct (_process_side threshold now d1 levels s cp)
    as [d2 [evs2|exn]].
Qed.

Lemma Forall_foldl_dict_del (P : Key * Wall → Prop) ks d :
  Forall P d → Forall P (foldl dict_del d ks).
Proof.
  revert d. induction ks as [|k ks IH]; intros d Hd; [done|].
  simpl. apply IH. unfold dict_del. apply Forall_forall.
  intros kw [_ Hin]%list_elem_of_filter.
  rewrite Forall_forall in Hd. by apply Hd.
Qed.

Lemma update_sound t ob now :
  Forall (sound_wall (threshold t)) (walls t) →
  Forall (sound_wall (threshold t)) (walls (update t ob now).1).
Proof.
  intros Hd. unfold update. cbv zeta.
  pose proof (_process_side_sound (threshold t) (orderbook.mid_price ob) now
                (walls t) (orderbook.bids ob) BID Hd) as Hd1.
  destruct (_process_side _ _ (walls t) _ BID _) as [d1 [evs1|exn]]; [|done].
  pose proof (_process_side_sound (threshold t) (orderbook.mid_price ob) now
                d1 (orderbook.asks ob) ASK Hd1) as Hd2.
  destruct (_process_side _ _ d1 _ ASK _) as [d2 [evs2|exn]]; [|done].
  unfold _cleanup_dead_walls. simpl. by apply Forall_foldl_dict_del.
Qed.

Lemma run_sound sym thr feed :
  Forall (sound_wall thr) (walls (run (__init__ sym thr) feed)).
Proof.
  unfold run. induction feed as [|obn feed IH] using rev_ind.
  - constructor.
  - rewrite foldl_app. simpl.
    pose proof (run_threshold sym thr feed) as Hthr. unfold run in Hthr.
    set (t := foldl _ _ feed) in *. rewrite <- Hthr in IH |- *.
    by apply update_sound.
Qed.

(** X19.  Every item of the wall map of a tracker reached from a fresh
    one is sound: the wall carries the price and side of its key, its
    notional meets the threshold, its current and initial quantities are at
    most its peak quantity, and its counters are not negative. *)
Theorem tracked_walls_sound sym thr feed :
  Forall (sound_wall thr) (walls (run (__init__ sym thr) feed)).
Proof. apply run_sound. Qed.

(** The number of tracked walls. *)
Lemma dict_set_length d k w :
  length (dict_set d k w)
  = match dict_get d k with
    | Some _ => length d
    | None => S (length d)
    end.
Proof.
  induction d as [|[k0 w0] d IH]; simpl; [done|].
  destruct (decide (k = k0)); simpl; [done|].
  rewrite IH. by destruct (dict_get d k).
Qed.

Lemma count_type_app T evs1 evs2 :
  count_type T (evs1 ++ evs2)
  = (count_type T evs1 + count_type T evs2)%nat.
Proof. unfold count_type. by rewrite filter_app, length_app. Qed.

Lemma count_type_all T evs :
  Forall (λ ev, type ev = T) evs → count_type T evs = length evs.
Proof.
  unfold count_type. induction 1 as [|ev evs Hev _ IH]; [done|].
  rewrite filter_cons_True by done. simpl. by rewrite IH.
Qed.

Lemma count_type_none T evs :
  Forall (λ ev, type ev ≠ T) evs → count_type T evs = 0%nat.
Proof.
  unfold count_type. induction 1 as [|ev evs Hev _ IH]; [done|].
  by rewrite filter_cons_False.
Qed.

Lemma process_level_count threshold s cp now d l d' evs :
  process_level threshold s cp now d l = (d', py.Ok evs) →
  length d' = (length d + count_type "NEW_WALL" evs)%nat
  ∧ count_type "WALL_REMOVED" evs = 0%nat.
Proof.
  unfold process_level. case_bool_decide.
  2:{ intros [= <- <-]. split; [|done]. unfold count_type. simpl. lia. }
  cbv zeta. destruct (dict_get d (orderbook.price l, s)) as [w0|] eqn:Hget.
  2:{ intros [= <- <-]. rewrite dict_set_length, Hget.
      split; [|done]. unfold count_type. simpl. lia. }
  destruct cp as [cp|];
    [destruct (py.truthy cp);
     [destruct (bool_decide (orderbook.price l = 0))|]|];
    intros [= <- <-]; rewrite dict_set_length, Hget;
    destruct (bool_decide (py.mul (current_qty w0) _ < _));
    (split; [|done]); unfold count_type; simpl; lia.
Qed.

Lemma _process_side_count threshold cp now d levels s d' evs :
  _process_side threshold now d levels s cp = (d', py.Ok evs) →
  length d' = (length d + count_type "NEW_WALL" evs)%nat
  ∧ count_type "WALL_REMOVED" evs = 0%nat.
Proof.
  revert d d' evs. induction levels as [|l levels IH]; intros d d' evs Hrun.
  { simpl in Hrun. injection Hrun as <- <-. split; [|done].
    unfold count_type. simpl. lia. }
  apply _process_side_cons in Hrun as (d1 & evs1 & evs2 & Hstep & Hrest & ->).
  apply process_level_count in Hstep as [H1 H1'].
  apply IH in Hrest as [H2 H2'].
  rewrite !count_type_app. lia.
Qed.

Lemma foldl_dict_del_cons ks kw d :
  foldl dict_del (kw :: d) ks
  = if decide (kw.1 ∈ ks) then foldl dict_del d ks
    else kw :: foldl dict_del d ks.
Proof.
  revert d. induction ks as [|k ks IH]; intros d; cbn [foldl].
  { rewrite decide_False; [done|apply not_elem_of_nil]. }
  unfold dict_del at 2 4 6. rewrite filter_cons.
  destruct (decide (kw.1 ≠ k)) as [Hne|Heq].
  - fold (dict_del d k). rewrite IH.
    destruct (decide (kw.1 ∈ ks)).
    + rewrite decide_True; [done|by right].
    + rewrite decide_False; [done|]. by rewrite not_elem_of_cons.
  - apply dec_stable in Heq. fold (dict_del d k).
    rewrite decide_True; [done|]. rewrite Heq. left.
Qed.

Lemma foldl_dict_del_length (live ks : list Key) d :
  Forall (λ kw : Key * Wall, kw.1 ∈ ks ↔ kw.1 ∉ live) d →
  (length (foldl dict_del d ks)
   + length (filter (λ kw : Key * Wall, kw.1 ∉ live) d))%nat
  = length d.
Proof.
  induction 1 as [|kw d Hkw _ IH]; simpl.
  { induction ks as [|k ks IHks]; [done|]. simpl. exact IHks. }
  rewrite foldl_dict_del_cons, filter_cons.
  destruct (decide (kw.1 ∈ ks)) as [Hin|Hout].
  - rewrite decide_True by (by apply Hkw). simpl. lia.
  - rewrite decide_False; [simpl; lia|].
    intros Hdead. by apply Hout, Hkw.
Qed.

Lemma _cleanup_count now d ob :
  (length (_cleanup_dead_walls now d ob).1
   + count_type "WALL_REMOVED" (_cleanup_dead_walls now d ob).2)%nat
  = length d
  ∧ count_type "NEW_WALL" (_cleanup_dead_walls now d ob).2 = 0%nat.
Proof.
  split.
  - rewrite count_type_all by apply _cleanup_types.
    unfold _cleanup_dead_walls. simpl. rewrite length_fmap.
    apply (foldl_dict_del_length (all_prices ob)).
    apply Forall_forall. intros kw Hkw. split.
    + intros ([k' w'] & -> & [Hdead _]%list_elem_of_filter)%list_elem_of_fmap.
      done.
    + intros Hdead. apply (list_elem_of_fmap_2 fst (filter _ d) kw).
      by apply list_elem_of_filter.
  - apply count_type_none. eapply Forall_impl; [apply _cleanup_types|].
    intros ev ->. done.
Qed.

(** X20.  A call of [update] that returns keeps the books of the wall
    map: the number of tracked walls after the call, with the number of
    removal events, is the number of tracked walls before the call, with
    the number of new-wall events. *)
Theorem wall_count_balance t ob now evs :
  (update t ob now).2 = py.Ok evs →
  (length (walls (update t ob now).1) + count_type "WALL_REMOVED" evs
   = length (walls t) + count_type "NEW_WALL" evs)%nat.
Proof.
  unfold update. cbv zeta.
  destruct (_process_side _ _ (walls t) _ BID _)
    as [d1 [evs1|exn]] eqn:Hrun1; [|done].
  destruct (_process_side _ _ d1 _ ASK _)
    as [d2 [evs2|exn]] eqn:Hrun2; [|done].
  apply _process_side_count in Hrun1 as [H1 H1'].
  apply _process_side_count in Hrun2 as [H2 H2'].
  pose proof (_cleanup_count now d2 ob) as [H3 H3'].
  destruct (_cleanup_dead_walls now d2 ob) as [d3 evs3]. simpl in *.
  intros [= <-]. rewrite !count_type_app. lia.
Qed.

(** The time frames. *)
Lemma WALL_PARAMS_default timeframe :
  timeframe ≠ "4h" → timeframe ≠ "15min" →
  WALL_PARAMS timeframe = WALL_PARAMS "1h".
Proof.
  intros H4 H15. unfold WALL_PARAMS.
  by rewrite !bool_decide_eq_false_2 by done.
Qed.

Lemma is_real_4h_1h w now :
  is_real w "4h" now = true → is_real w "1h" now = true.
Proof.
  unfold is_real. cbv zeta.
  change (WALL_PARAMS "4h") with (py.lit 120 1, py.lit 150 1).
  change (WALL_PARAMS "1h") with (py.lit 30 1, py.lit 40 1).
  simpl. rewrite !andb_true_iff, !bool_decide_eq_true. intros [Ha Hp].
  split; (eapply Qcle_trans; [|done]);
    apply (bool_decide_unpack _); vm_compute; exact I.
Qed.

Lemma is_real_1h_15min w now :
  is_real w "1h" now = true → is_real w "15min" now = true.
Proof.
  unfold is_real. cbv zeta.
  change (WALL_PARAMS "15min") with (py.lit 10 1, py.lit 15 1).
  change (WALL_PARAMS "1h") with (py.lit 30 1, py.lit 40 1).
  simpl. rewrite !andb_true_iff, !bool_decide_eq_true. intros [Ha Hp].
  split; (eapply Qcle_trans; [|done]);
    apply (bool_decide_unpack _); vm_compute; exact I.
Qed.

Lemma filter_sublist_impl {A} (P Q : A → Prop)
    `{!∀ x, Decision (P x), !∀ x, Decision (Q x)} (xs : list A) :
  Forall (λ x, P x → Q x) xs → filter P xs `sublist_of` filter Q xs.
Proof.
  induction 1 as [|x xs HPQ _ IH]; [done|].
  rewrite !filter_cons. destruct (decide (P x)) as [HP|HP].
  - rewrite decide_True by auto. by apply sublist_skip.
  - destruct (decide (Q x)); [by apply sublist_cons|done].
Qed.

(** X21.  The time frames are nested: the walls that are real for 4h are
    among those real for 1h, in the same order, and these among those real
    for 15min; a time frame that is neither 4h nor 15min is read as 1h. *)
Theorem real_walls_nested self now :
  get_real_walls self "4h" now `sublist_of` get_real_walls self "1h" now
  ∧ get_real_walls self "1h" now `sublist_of` get_real_walls self "15min" now
  ∧ ∀ timeframe, timeframe ≠ "4h" → timeframe ≠ "15min" →
      get_real_walls self timeframe now = get_real_walls self "1h" now.
Proof.
  unfold get_real_walls. split_and!.
  - apply filter_sublist_impl, Forall_forall. intros w _.
    apply is_real_4h_1h.
  - apply filter_sublist_impl, Forall_forall. intros w _.
    apply is_real_1h_15min.
  - intros timeframe H4 H15. unfold is_real.
    by rewrite WALL_PARAMS_default.
Qed.

(** The clock. *)
Lemma age_minutes_mono w now1 now2 :
  now1 ≤ now2 → age_minutes w now1 ≤ age_minutes w now2.
Proof.
  intros Hle. unfold age_minutes. apply Qcmult_le_compat_r.
  - by apply Qcplus_le_mono_r.
  - apply (bool_decide_unpack _). vm_compute. exact I.
Qed.

Lemma persistence_score_mono w now1 now2 :
  (0 ≤ replenish_count w)%Z → now1 ≤ now2 →
  persistence_score w now1 ≤ persistence_score w now2.
Proof.
  intros Hr Hle. unfold persistence_score. cbv zeta.
  case_bool_decide; (apply Qcmult_le_compat_r; [by apply age_minutes_mono|]).
  - apply (bool_decide_unpack _). vm_compute. exact I.
  - apply Qcplus_nonneg_nonneg; [apply (bool_decide_unpack _); vm_compute;
                                  exact I|].
    apply Qcmult_nonneg_nonneg.
    + rewrite <- Z2Qc_inj_0. by apply (proj1 (Z2Qc_inj_le 0 _)).
    + apply Qclt_le_weak, Qcinv_pos. rewrite <- Z2Qc_inj_0.
      apply (proj1 (Z2Qc_inj_lt 0 _)). lia.
Qed.

Lemma is_real_mono w timeframe now1 now2 :
  (0 ≤ replenish_count w)%Z → now1 ≤ now2 →
  is_real w timeframe now1 = true → is_real w timeframe now2 = true.
Proof.
  intros Hr Hle. unfold is_real. cbv zeta.
  rewrite !andb_true_iff, !bool_decide_eq_true. intros [Ha Hp]. split.
  - eapply Qcle_trans; [done|by apply age_minutes_mono].
  - eapply Qcle_trans; [done|by apply persistence_score_mono].
Qed.

(** X27.  While the wall map of a tracker reached from a fresh one is
    not written, the real walls only grow with the clock: the walls that
    are real for a time frame at one reading are, in the same order, among
    those real for it at any later reading. *)
Theorem real_walls_stay_real sym thr feed timeframe now1 now2 :
  now1 ≤ now2 →
  get_real_walls (run (__init__ sym thr) feed) timeframe now1
  `sublist_of` get_real_walls (run (__init__ sym thr) feed) timeframe now2.
Proof.
  intros Hle. unfold get_real_walls. apply filter_sublist_impl.
  apply Forall_fmap. eapply Forall_impl; [apply run_sound|].
  intros [k w] (_ & _ & _ & _ & Hr & _). simpl in *.
  by apply is_real_mono.
Qed.

(** The wall map. *)
Lemma insert_by_score_Permutation now w ws :
  insert_by_score now w ws ≡ₚ w :: ws.
Proof.
  induction ws as [|w' ws IH]; simpl; [done|].
  case_bool_decide; [|done]. rewrite IH. apply perm_swap.
Qed.

Lemma sorted_by_score_Permutation now ws : sorted_by_score now ws ≡ₚ ws.
Proof.
  unfold sorted_by_score. induction ws as [|w ws IH]; simpl; [done|].
  by rewrite insert_by_score_Permutation, IH.
Qed.

Lemma insert_by_score_sorted now w ws :
  StronglySorted (by_score now) ws →
  StronglySorted (by_score now) (insert_by_score now w ws).
Proof.
  induction 1 as [|w' ws Hs IH Hall]; simpl.
  { repeat constructor. }
  case_bool_decide as Hlt.
  - constructor; [done|]. rewrite insert_by_score_Permutation.
    constructor; [|done]. unfold by_score. by apply Qclt_le_weak.
  - apply Qcnot_lt_le in Hlt. constructor; [by constructor|].
    constructor; [done|]. eapply Forall_impl; [done|].
    intros x Hx. unfold by_score in *. by eapply Qcle_trans.
Qed.

Lemma sorted_by_score_sorted now ws :
  StronglySorted (by_score now) (sorted_by_score now ws).
Proof.
  unfold sorted_by_score. induction ws as [|w ws IH]; simpl; [constructor|].
  by apply insert_by_score_sorted.
Qed.

(** X22.  Each side of the wall map shows the dictionaries of the first
    five of the real walls of that side in descending order of persistence
    score, so no wall left out scores more than a wall shown, and the total
    counts all the real walls of that side. *)
Theorem get_wall_map_top_five self timeframe now s :
  ∃ shown rest,
    shown_walls (get_wall_map self timeframe now) s
    = (λ w, to_dict w now) <$> shown
    ∧ shown ++ rest
      ≡ₚ filter (λ w, side w = s) (get_real_walls self timeframe now)
    ∧ StronglySorted (by_score now) (shown ++ rest)
    ∧ length shown = (5 `min` length (shown ++ rest))%nat
    ∧ total_walls (get_wall_map self timeframe now) s
      = length (shown ++ rest).
Proof.
  exists (take 5 (ranked_walls self timeframe now s)),
         (drop 5 (ranked_walls self timeframe now s)).
  rewrite take_drop, length_take. split_and!.
  - by destruct s.
  - apply sorted_by_score_Permutation.
  - apply sorted_by_score_sorted.
  - done.
  - by destruct s.
Qed.

End tracker_facts.

(** ** The collector *)

Section collector_messages.
Import collector collector_facts.

Context {F : py.Float}.

Variables (sqrt : Qc → Qc) (upper : string → string).

Local Abbreviation handle := (_handle_message sqrt upper).

Local Ltac fields :=
  cbn [fst snd negb managers wall_trackers ofi_calculators symbols
       thresholds _running set_manager set_wall_tracker set_ofi_calculator].

(** What a call writes: at most the manager, the tracker and the
    calculator of the symbol of the message. *)
Lemma _handle_message_shape c stream event now rest stamp :
  let symbol := upper (before_at stream) in
  let c' := (handle c stream event now rest stamp).1 in
  symbols c' = symbols c ∧ thresholds c' = thresholds c
  ∧ _running c' = _running c
  ∧ (managers c' = managers c
     ∨ ∃ m', is_Some (managers c !! symbol)
             ∧ managers c' = <[symbol := m']> (managers c))
  ∧ (wall_trackers c' = wall_trackers c
     ∨ ∃ t ob, wall_trackers c !! symbol = Some t
               ∧ wall_trackers c'
                 = <[symbol := (wall_tracker.update t ob now).1]>
                     (wall_trackers c))
  ∧ (ofi_calculators c' = ofi_calculators c
     ∨ ∃ calc', is_Some (ofi_calculators c !! symbol)
                ∧ ofi_calculators c' = <[symbol := calc']>
                                         (ofi_calculators c)).
Proof.
  intros symbol c'. subst c'. unfold _handle_message. fold symbol.
  destruct (managers c !! symbol) as [m|] eqn:Hm.
  2:{ split_and!; try done; by left. }
  destruct (orderbook.process_update m event now) as [ok m'].
  destruct ok; fields.
  2:{ destruct rest as [data|]; fields;
        (split_and!; try done; try (by left)); right.
      - exists (orderbook.initialize m' data now). split; [done|].
        by rewrite insert_insert_eq.
      - by exists m'. }
  destruct (wall_trackers c !! symbol) as [t|] eqn:Ht.
  2:{ fields. split_and!; try done; try (by left). right. by exists m'. }
  destruct (wall_tracker.update t (orderbook.get_snapshot m') now)
    as [t' r] eqn:Hupd.
  assert (t' = (wall_tracker.update t (orderbook.get_snapshot m') now).1)
    as Ht' by (by rewrite Hupd).
  destruct r as [evs|exn].
  2:{ fields. split_and!; try done; try (by left); right.
      - by exists m'.
      - exists t, (orderbook.get_snapshot m'). by rewrite <- Ht'. }
  fields. destruct (ofi_calculators c !! symbol) as [calc|] eqn:Hc.
  2:{ fields. split_and!; try done; try (by left); right.
      - by exists m'.
      - exists t, (orderbook.get_snapshot m'). by rewrite <- Ht'. }
  destruct (ofi_calculator.update sqrt calc (orderbook.get_snapshot m'))
    as [st calc'].
  fields. split_and!; try done; right.
  - by exists m'.
  - exists t, (orderbook.get_snapshot m'). by rewrite <- Ht'.
  - by exists calc'.
Qed.

(** X23.  A message writes nothing about another symbol: the manager,
    the wall tracker and the calculator of every symbol other than the one
    named by the stream are as before the call, and so are the list of
    symbols, the thresholds and the running flag. *)
Theorem message_touches_one_symbol c stream event now rest stamp other :
  other ≠ upper (before_at stream) →
  let c' := (handle c stream event now rest stamp).1 in
  managers c' !! other = managers c !! other
  ∧ wall_trackers c' !! other = wall_trackers c !! other
  ∧ ofi_calculators c' !! other = ofi_calculators c !! other
  ∧ symbols c' = symbols c ∧ thresholds c' = thresholds c
  ∧ _running c' = _running c.
Proof.
  intros Hne c'.
  destruct (_handle_message_shape c stream event now rest stamp)
    as (Hs & Hth & Hr & Hm & Ht & Hc).
  fold c' in Hs, Hth, Hr, Hm, Ht, Hc.
  split_and!; try done.
  - destruct Hm as [->|(m' & _ & ->)]; [done|].
    by rewrite lookup_insert_ne.
  - destruct Ht as [->|(t & ob & _ & ->)]; [done|].
    by rewrite lookup_insert_ne.
  - destruct Hc as [->|(calc' & _ & ->)]; [done|].
    by rewrite lookup_insert_ne.
Qed.

Lemma handle_registered c stream event now rest stamp :
  registered c → registered (handle c stream event now rest stamp).1.
Proof.
  intros Hreg.
  destruct (_handle_message_shape c stream event now rest stamp)
    as (_ & _ & _ & Hm & Ht & Hc).
  set (c' := (handle c stream event now rest stamp).1) in *.
  set (symbol := upper (before_at stream)) in *.
  intros s Hs.
  assert (is_Some (managers c !! s)) as Hs0.
  { destruct Hm as [Hm|(m' & Hsym & Hm)]; rewrite Hm in Hs; [done|].
    apply lookup_insert_is_Some in Hs as [<-|[_ ?]]; done. }
  destruct (Hreg s Hs0) as [(t & Hts & Hpos) Hcs]. split.
  - destruct Ht as [->|(t0 & ob & Ht0 & ->)]; [by exists t|].
    destruct (decide (symbol = s)) as [->|Hne].
    + rewrite lookup_insert_eq. eexists. split; [done|].
      rewrite update_threshold. congruence.
    + rewrite lookup_insert_ne by done. by exists t.
  - destruct Hc as [->|(calc' & _ & ->)]; [done|].
    apply lookup_insert_is_Some.
    destruct (decide (symbol = s)); [by left|by right].
Qed.

Lemma after_messages_registered c msgs :
  registered c → registered (after_messages sqrt upper c msgs).
Proof.
  revert c. induction msgs as [|msg msgs IH]; intros c Hreg; [done|].
  simpl. by apply IH, handle_registered.
Qed.

Lemma add_symbol_registered rest_base c symbol c' :
  map_Forall (λ _ thr, 0 < thr) (thresholds c) → registered c →
  add_symbol rest_base (Some c) symbol = Some c' →
  registered c' ∧ thresholds c' = thresholds c.
Proof.
  intros Hpos Hreg. unfold add_symbol.
  remember (ofi_calculator.__init__ 10 20 100) as oc.
  destruct oc as [calc|]; simpl; [|done]. intros [= <-].
  split; [|done]. intros s Hs. simpl in *.
  destruct (decide (symbol = s)) as [->|Hne].
  - rewrite !lookup_insert_eq. split; [|done]. eexists. split; [done|].
    simpl. destruct (thresholds c !! s) as [thr|] eqn:Hthr; simpl.
    + by apply (Hpos s thr).
    + reflexivity.
  - rewrite !lookup_insert_ne by done. rewrite lookup_insert_ne in Hs by done.
    by apply Hreg.
Qed.

Lemma foldl_add_symbol_registered rest_base syms c c' :
  map_Forall (λ _ thr, 0 < thr) (thresholds c) → registered c →
  foldl (add_symbol rest_base) (Some c) syms = Some c' → registered c'.
Proof.
  revert c. induction syms as [|symbol syms IH]; intros c Hpos Hreg.
  { by intros [= <-]. }
  cbn [foldl].
  destruct (add_symbol rest_base (Some c) symbol) as [c1|] eqn:Hadd.
  - destruct (add_symbol_registered _ _ _ _ Hpos Hreg Hadd) as [Hreg1 Hth].
    intros Hf. apply (IH c1); [by rewrite Hth|done|exact Hf].
  - intros Hnone. exfalso. clear -Hnone.
    induction syms as [|symbol' syms IHs]; [done|]. by apply IHs.
Qed.

Lemma __init___registered rest_base syms thrs c0 :
  map_Forall (λ _ thr, 0 < thr) thrs →
  __init__ rest_base syms thrs = Some c0 → registered c0.
Proof.
  intros Hpos. unfold __init__. apply foldl_add_symbol_registered; [done|].
  intros s Hs. simpl in Hs. rewrite lookup_empty in Hs. by destruct Hs.
Qed.

Lemma add_symbol_Some rest_base c symbol :
  ∃ calc,
    ofi_calculator.__init__ 10 20 100 = Some calc
    ∧ add_symbol rest_base (Some c) symbol
      = Some {| symbols := symbols c; thresholds := thresholds c;
                managers :=
                  <[symbol := orderbook.__init__ rest_base symbol 20 None]>
                    (managers c);
                wall_trackers :=
                  <[symbol := wall_tracker.__init__ symbol
                                (default (py.lit 200000 1)
                                         (thresholds c !! symbol))]>
                    (wall_trackers c);
                ofi_calculators := <[symbol := calc]> (ofi_calculators c);
                _running := _running c |}.
Proof. eexists. split; reflexivity. Qed.

Lemma foldl_add_symbol rest_base syms c :
  ∃ c', foldl (add_symbol rest_base) (Some c) syms = Some c'
    ∧ symbols c' = symbols c ∧ thresholds c' = thresholds c
    ∧ _running c' = _running c
    ∧ ∀ s,
        (s ∈ syms →
         managers c' !! s = Some (orderbook.__init__ rest_base s 20 None)
         ∧ wall_trackers c' !! s
           = Some (wall_tracker.__init__ s
                     (default (py.lit 200000 1) (thresholds c !! s)))
         ∧ ofi_calculators c' !! s = ofi_calculator.__init__ 10 20 100)
        ∧ (s ∉ syms →
           managers c' !! s = managers c !! s
           ∧ wall_trackers c' !! s = wall_trackers c !! s
           ∧ ofi_calculators c' !! s = ofi_calculators c !! s).
Proof.
  revert c. induction syms as [|symbol syms IH]; intros c.
  { exists c. split_and!; try done. intros s. split; [|done].
    by intros ?%elem_of_nil. }
  cbn [foldl].
  destruct (add_symbol_Some rest_base c symbol) as (calc & Hcalc & ->).
  destruct (IH {| symbols := symbols c; thresholds := thresholds c;
                  managers :=
                    <[symbol := orderbook.__init__ rest_base symbol 20 None]>
                      (managers c);
                  wall_trackers :=
                    <[symbol := wall_tracker.__init__ symbol
                                  (default (py.lit 200000 1)
                                           (thresholds c !! symbol))]>
                      (wall_trackers c);
                  ofi_calculators := <[symbol := calc]> (ofi_calculators c);
                  _running := _running c |})
    as (c' & -> & Hs & Hth & Hr & Hall).
  exists c'. split_and!; try done. intros s.
  destruct (Hall s) as [Hin Hout]. cbn [thresholds managers wall_trackers
                                       ofi_calculators] in Hin, Hout.
  destruct (decide (s ∈ syms)) as [Hs1|Hs1].
  { split; [intros _; by apply Hin|]. intros Hn. exfalso. apply Hn.
    by right. }
  destruct (Hout Hs1) as (Hm & Ht & Hc). rewrite Hm, Ht, Hc. split.
  - intros [->|?]%elem_of_cons; [|done].
    by rewrite !lookup_insert_eq, Hcalc.
  - intros [Hne _]%not_elem_of_cons.
    by rewrite !lookup_insert_ne by done.
Qed.

(** X28.  The constructor always builds a collector; it keeps the
    symbols and the thresholds, is not running, and holds for every symbol
    of the list, and for no other, a manager of depth 20 that is not
    initialized, a wall tracker with the threshold of the symbol, 200000
    when none is given, and a fresh calculator of depth 10 and span 20. *)
Theorem collector_init_registers rest_base syms thrs :
  ∃ c, __init__ rest_base syms thrs = Some c
    ∧ symbols c = syms ∧ thresholds c = thrs ∧ _running c = false
    ∧ ∀ s,
        (s ∈ syms →
         managers c !! s = Some (orderbook.__init__ rest_base s 20 None)
         ∧ wall_trackers c !! s
           = Some (wall_tracker.__init__ s
                     (default (py.lit 200000 1) (thrs !! s)))
         ∧ ofi_calculators c !! s = ofi_calculator.__init__ 10 20 100)
        ∧ (s ∉ syms →
           managers c !! s = None ∧ wall_trackers c !! s = None
           ∧ ofi_calculators c !! s = None).
Proof.
  unfold __init__.
  destruct (foldl_add_symbol rest_base syms
              {| symbols := syms; thresholds := thrs; managers := ∅;
                 wall_trackers := ∅; ofi_calculators := ∅;
                 _running := false |})
    as (c & -> & Hs & Hth & Hr & Hall).
  exists c. split_and!; [done..|]. intros s.
  destruct (Hall s) as [Hin Hout]. split; [done|].
  intros Hn. destruct (Hout Hn) as (-> & -> & ->). simpl.
  by rewrite !lookup_empty.
Qed.

(** X24.  For a collector built with positive thresholds, after any
    messages: a record goes to the callbacks exactly when the stream names
    a symbol of the collector and [process_update] of its manager returns
    true on the event. *)
Theorem record_iff_accepted rest_base syms thrs c0 msgs
    stream event now rest stamp :
  map_Forall (λ _ thr, 0 < thr) thrs →
  __init__ rest_base syms thrs = Some c0 →
  let c := after_messages sqrt upper c0 msgs in
  is_Some (handle c stream event now rest stamp).2
  ↔ ∃ m, managers c !! upper (before_at stream) = Some m
         ∧ (orderbook.process_update m event now).1 = true.
Proof.
  intros Hpos Hinit c.
  assert (registered c) as Hreg.
  { by eapply after_messages_registered, __init___registered. }
  clearbody c. unfold _handle_message.
  set (symbol := upper (before_at stream)).
  destruct (managers c !! symbol) as [m|] eqn:Hm.
  2:{ split; [by intros []|by intros (m & ? & _)]. }
  destruct (Hreg symbol) as [(t & Ht & Hthr) [calc Hc]]; [by rewrite Hm|].
  destruct (orderbook.process_update m event now) as [ok m'] eqn:Hpu.
  destruct ok; fields.
  2:{ split.
      - destruct rest; by intros [].
      - intros (m0 & [= <-] & Hok). by rewrite Hpu in Hok. }
  rewrite Ht.
  destruct (update_guarded t (orderbook.get_snapshot m') now Hthr)
    as [evs Hev].
  destruct (wall_tracker.update t (orderbook.get_snapshot m') now)
    as [t' r]. simpl in Hev. subst r. fields. rewrite Hc.
  destruct (ofi_calculator.update sqrt calc (orderbook.get_snapshot m'))
    as [st calc'].
  fields. split; [|done]. intros _. exists m. by rewrite Hpu.
Qed.

(** X25.  A message that [process_update] rejects, with the REST answer
    at hand, leaves the manager of the symbol holding the book of that
    answer, initialized and in step, whatever the rejected event wrote; the
    wall trackers and the calculators are as before, and no record is
    built. *)
Theorem rejected_message_resyncs c stream event now data stamp m :
  managers c !! upper (before_at stream) = Some m →
  (orderbook.process_update m event now).1 = false →
  let r := handle c stream event now (Some data) stamp in
  r.2 = None
  ∧ (∃ m', managers r.1 !! upper (before_at stream) = Some m'
           ∧ book_of_snapshot m' data
           ∧ orderbook.depth m' = orderbook.depth m
           ∧ orderbook.m_symbol m' = orderbook.m_symbol m)
  ∧ wall_trackers r.1 = wall_trackers c
  ∧ ofi_calculators r.1 = ofi_calculators c.
Proof.
  intros Hm Hrej r. subst r. unfold _handle_message. rewrite Hm.
  pose proof (process_update_frame m event now) as (F1 & F2 & _).
  destruct (orderbook.process_update m event now) as [ok m'].
  simpl in Hrej, F1, F2. subst ok. fields. split_and!; try done.
  exists (orderbook.initialize m' data now).
  rewrite lookup_insert_eq. by split_and!.
Qed.

Lemma process_update_true m e now :
  (orderbook.process_update m e now).1 = true →
  orderbook.crossed
    (orderbook.orderbook (orderbook.process_update m e now).2) = false.
Proof.
  destruct (process_update_cases m e now) as [->| ->]; [done|].
  unfold book_spec.applied_result.
  by destruct (orderbook.crossed _) eqn:Hc.
Qed.

(** X26.  A record that goes to the callbacks carries the symbol of the
    stream and summarises the book that the manager of the symbol holds
    after the call; in it, a best bid and a best ask that are both non-zero
    satisfy best bid < best ask. *)
Theorem record_is_uncrossed c stream event now rest stamp u :
  (handle c stream event now rest stamp).2 = Some u →
  u_symbol u = upper (before_at stream)
  ∧ (∃ m', managers (handle c stream event now rest stamp).1
             !! upper (before_at stream) = Some m'
           ∧ u_orderbook u = summary (orderbook.orderbook m'))
  ∧ ∀ b a, s_best_bid (u_orderbook u) = Some b →
           s_best_ask (u_orderbook u) = Some a →
           b ≠ 0 → a ≠ 0 → b < a.
Proof.
  unfold _handle_message. set (symbol := upper (before_at stream)).
  destruct (managers c !! symbol) as [m|] eqn:Hm; [|done].
  pose proof (process_update_true m event now) as Hcross.
  destruct (orderbook.process_update m event now) as [ok m'].
  destruct ok; fields; [|by destruct rest].
  specialize (Hcross eq_refl). simpl in Hcross.
  destruct (wall_trackers c !! symbol) as [t|]; [|done].
  destruct (wall_tracker.update t (orderbook.get_snapshot m') now)
    as [t' [evs|exn]]; [|done].
  fields. destruct (ofi_calculators c !! symbol) as [calc|]; [|done].
  destruct (ofi_calculator.update sqrt calc (orderbook.get_snapshot m'))
    as [st calc'].
  fields. intros [= <-]. simpl. split_and!; [done| |].
  - exists m'. by rewrite lookup_insert_eq.
  - unfold orderbook.get_snapshot. intros b a Hb Ha Hb0 Ha0.
    unfold orderbook.crossed in Hcross. rewrite Hb, Ha in Hcross.
    unfold py.truthy_opt, py.truthy in Hcross.
    rewrite !bool_decide_eq_false_2 in Hcross by done. simpl in Hcross.
    apply bool_decide_eq_false in Hcross. by apply Qcnot_le_lt.
Qed.

End collector_messages.

(** * The further properties, on the worked inputs *)

Section worked_further.
Import orderbook book_spec book_facts.

#[local] Existing Instance py.exact.

Local Ltac by_compute := apply (bool_decide_unpack _); vm_compute; exact I.

Lemma _apply_update_nothing_witness :
  strictly_sorted true (bids (orderbook examples.manager))
  ∧ _apply_update [] (bids (orderbook examples.manager)) true
    = bids (orderbook examples.manager).
Proof.
  assert (strictly_sorted true (bids (orderbook examples.manager))) as H1.
  { repeat first [apply SSorted_nil | apply Forall_nil
                 | apply SSorted_cons | apply Forall_cons | by_compute]. }
  split; [exact H1|].
  exact (_apply_update_nothing (bids (orderbook examples.manager)) true H1).
Defined.

Lemma apply_event_keeps_best_witness :
  let m := examples.manager in
  let e := examples.first_event in
  let ob := orderbook (apply_event m e (py.lit 1001 1)) in
  (0 ≤ depth m)%Z
  ∧ (length (bids ob) ≤ Z.to_nat (depth m))%nat
  ∧ (length (asks ob) ≤ Z.to_nat (depth m))%nat
  ∧ (∀ k l, k ∈ bids ob →
            l ∈ _apply_update (ev_b e) (bids (orderbook m)) true →
            l ∉ bids ob → price l < price k)
  ∧ (∀ k l, k ∈ asks ob →
            l ∈ _apply_update (ev_a e) (asks (orderbook m)) false →
            l ∉ asks ob → price k < price l).
Proof.
  intros m e ob.
  assert (0 ≤ depth m)%Z as H1 by (by vm_compute).
  split; [exact H1|].
  exact (apply_event_keeps_best m e (py.lit 1001 1) H1).
Defined.

Lemma book_never_holds_zero_quantity_witness :
  let m := after_feed (initialize examples.fresh_manager examples.snapshot
                                  (py.lit 1000 1)) examples.feed in
  Forall (λ pq : Qc * Qc, pq.2 ≠ 0) (snap_bids examples.snapshot)
  ∧ Forall (λ pq : Qc * Qc, pq.2 ≠ 0) (snap_asks examples.snapshot)
  ∧ nonzero_quantities (bids (orderbook m))
  ∧ nonzero_quantities (asks (orderbook m)).
Proof.
  intros m.
  assert (Forall (λ pq : Qc * Qc, pq.2 ≠ 0) (snap_bids examples.snapshot))
    as H1 by by_compute.
  assert (Forall (λ pq : Qc * Qc, pq.2 ≠ 0) (snap_asks examples.snapshot))
    as H2 by by_compute.
  split_and!; [exact H1|exact H2|..];
    apply (book_never_holds_zero_quantity examples.fresh_manager
             examples.snapshot (py.lit 1000 1) examples.feed H1 H2).
Defined.

End worked_further.

Section worked_calculator.
Import ofi_calculator ofi_facts.

#[local] Existing Instance py.exact.

Local Ltac by_compute := apply (bool_decide_unpack _); vm_compute; exact I.

Lemma history_is_ring_witness :
  let results := run examples.sqrt3 examples.calculator more_examples.books in
  let third :=
    update examples.sqrt3
      (update examples.sqrt3
         (update examples.sqrt3 examples.calculator examples.wall_born).2
         examples.wall_grown).2
      examples.wall_thin in
  __init__ 10 20 100 = Some examples.calculator
  ∧ results !! 2%nat = Some third
  ∧ _history third.2 = keep_last (Z.to_nat 100) (raws (take 3 results))
  ∧ (length (_history third.2) ≤ Z.to_nat 100)%nat.
Proof.
  intros results third.
  assert (__init__ 10 20 100 = Some examples.calculator) as H1 by reflexivity.
  assert (results !! 2%nat = Some (third.1, third.2)) as H2 by reflexivity.
  split_and!; [exact H1|reflexivity|..];
    apply (history_is_ring examples.sqrt3 10 20 100 examples.calculator
             more_examples.books 2%nat third.1 third.2 H1 H2).
Defined.

Lemma reset_is_fresh_witness :
  let results := run examples.sqrt3 examples.calculator more_examples.books in
  let third :=
    update examples.sqrt3
      (update examples.sqrt3
         (update examples.sqrt3 examples.calculator examples.wall_born).2
         examples.wall_grown).2
      examples.wall_thin in
  __init__ 10 20 100 = Some examples.calculator
  ∧ results !! 2%nat = Some third
  ∧ reset third.2 = examples.calculator.
Proof.
  intros results third.
  assert (__init__ 10 20 100 = Some examples.calculator) as H1 by reflexivity.
  assert (results !! 2%nat = Some (third.1, third.2)) as H2 by reflexivity.
  split_and!; [exact H1|reflexivity|].
  exact (reset_is_fresh examples.sqrt3 10 20 100 examples.calculator
           more_examples.books 2%nat third.1 third.2 H1 H2).
Defined.

End worked_calculator.

Section worked_tracker.
Import wall_tracker walls_facts.

#[local] Existing Instance py.exact.

Local Ltac by_compute := apply (bool_decide_unpack _); vm_compute; exact I.

Lemma update_never_raises_witness :
  0 < py.lit 200000 1
  ∧ ∃ evs,
      (update (run (__init__ "BTCUSDT" (py.lit 200000 1))
                   [(examples.wall_born, py.lit 1 1)])
              examples.wall_grown (py.lit 2 1)).2
      = py.Ok evs.
Proof.
  assert (0 < py.lit 200000 1) as H1 by by_compute.
  split; [exact H1|].
  exact (update_never_raises "BTCUSDT" (py.lit 200000 1)
           [(examples.wall_born, py.lit 1 1)] examples.wall_grown
           (py.lit 2 1) H1).
Defined.

Lemma tracked_keys_in_book_witness :
  ∃ evs,
    (update more_examples.tracker examples.wall_born (py.lit 1 1)).2
    = py.Ok evs
    ∧ Forall (λ k, k ∈ all_prices examples.wall_born)
        (walls (update more_examples.tracker examples.wall_born
                       (py.lit 1 1)).1).*1.
Proof.
  eexists. split; [reflexivity|].
  eapply tracked_keys_in_book. reflexivity.
Defined.

Lemma wall_count_balance_witness :
  ∃ evs,
    (update more_examples.tracker examples.wall_born (py.lit 1 1)).2
    = py.Ok evs
    ∧ (length (walls (update more_examples.tracker examples.wall_born
                             (py.lit 1 1)).1)
       + count_type "WALL_REMOVED" evs
       = length (walls more_examples.tracker) + count_type "NEW_WALL" evs)%nat.
Proof.
  eexists. split; [reflexivity|].
  eapply wall_count_balance. reflexivity.
Defined.

Lemma real_walls_stay_real_witness :
  let t := run (__init__ "BTCUSDT" (py.lit 200000 1))
               [(examples.wall_born, py.lit 1 1)] in
  py.lit 3601 1 ≤ py.lit 7201 1
  ∧ get_real_walls t "15min" (py.lit 3601 1)
    `sublist_of` get_real_walls t "15min" (py.lit 7201 1).
Proof.
  intros t.
  assert (py.lit 3601 1 ≤ py.lit 7201 1) as H1 by by_compute.
  split; [exact H1|].
  exact (real_walls_stay_real "BTCUSDT" (py.lit 200000 1)
           [(examples.wall_born, py.lit 1 1)] "15min" (py.lit 3601 1)
           (py.lit 7201 1) H1).
Defined.

End worked_tracker.

Section worked_collector.
Import collector collector_facts.

#[local] Existing Instance py.exact.

Local Ltac by_compute := apply (bool_decide_unpack _); vm_compute; exact I.

Local Abbreviation handle := (_handle_message examples.sqrt3 more_examples.upper).

Lemma message_touches_one_symbol_witness :
  let c' := (handle more_examples.collector0 more_examples.stream
               examples.gap_event (py.lit 1000 1) (Some examples.snapshot)
               "2024-01-01T00:00:00").1 in
  "ETHUSDT" ≠ more_examples.upper (before_at more_examples.stream)
  ∧ managers c' !! "ETHUSDT" = managers more_examples.collector0 !! "ETHUSDT"
  ∧ wall_trackers c' !! "ETHUSDT"
    = wall_trackers more_examples.collector0 !! "ETHUSDT"
  ∧ ofi_calculators c' !! "ETHUSDT"
    = ofi_calculators more_examples.collector0 !! "ETHUSDT"
  ∧ symbols c' = symbols more_examples.collector0
  ∧ thresholds c' = thresholds more_examples.collector0
  ∧ _running c' = _running more_examples.collector0.
Proof.
  intros c'.
  assert ("ETHUSDT" ≠ more_examples.upper (before_at more_examples.stream))
    as H1 by by_compute.
  split; [exact H1|].
  exact (message_touches_one_symbol examples.sqrt3 more_examples.upper
           more_examples.collector0 more_examples.stream examples.gap_event
           (py.lit 1000 1) (Some examples.snapshot) "2024-01-01T00:00:00"
           "ETHUSDT" H1).
Defined.

Lemma record_iff_accepted_witness :
  let c := after_messages examples.sqrt3 more_examples.upper
             more_examples.collector0 [more_examples.first_message] in
  map_Forall (λ (_ : string) (thr : Qc), 0 < thr) (∅ : gmap string Qc)
  ∧ __init__ more_examples.rest_base ["BTCUSDT"] ∅
    = Some more_examples.collector0
  ∧ (is_Some (handle c more_examples.stream examples.first_event
                (py.lit 1001 1) None "2024-01-01T00:00:01").2
     ↔ ∃ m, managers c !! more_examples.upper
                            (before_at more_examples.stream) = Some m
            ∧ (orderbook.process_update m examples.first_event
                 (py.lit 1001 1)).1 = true).
Proof.
  intros c.
  assert (map_Forall (λ (_ : string) (thr : Qc), 0 < thr)
            (∅ : gmap string Qc)) as H1 by apply map_Forall_empty.
  assert (__init__ more_examples.rest_base ["BTCUSDT"] ∅
          = Some more_examples.collector0) as H2 by reflexivity.
  split_and!; [exact H1|exact H2|].
  exact (record_iff_accepted examples.sqrt3 more_examples.upper
           more_examples.rest_base ["BTCUSDT"] ∅ more_examples.collector0
           [more_examples.first_message] more_examples.stream
           examples.first_event (py.lit 1001 1) None "2024-01-01T00:00:01"
           H1 H2).
Defined.

Lemma rejected_message_resyncs_witness :
  let m := orderbook.__init__ more_examples.rest_base "BTCUSDT" 20 None in
  let r := handle more_examples.collector0 more_examples.stream
             examples.gap_event (py.lit 1000 1) (Some examples.snapshot)
             "2024-01-01T00:00:00" in
  managers more_examples.collector0
    !! more_examples.upper (before_at more_examples.stream) = Some m
  ∧ (orderbook.process_update m examples.gap_event (py.lit 1000 1)).1 = false
  ∧ r.2 = None
  ∧ (∃ m', managers r.1
             !! more_examples.upper (before_at more_examples.stream) = Some m'
           ∧ book_of_snapshot m' examples.snapshot
           ∧ orderbook.depth m' = orderbook.depth m
           ∧ orderbook.m_symbol m' = orderbook.m_symbol m)
  ∧ wall_trackers r.1 = wall_trackers more_examples.collector0
  ∧ ofi_calculators r.1 = ofi_calculators more_examples.collector0.
Proof.
  intros m r.
  assert (managers more_examples.collector0
            !! more_examples.upper (before_at more_examples.stream) = Some m)
    as H1 by reflexivity.
  assert ((orderbook.process_update m examples.gap_event (py.lit 1000 1)).1
          = false) as H2 by reflexivity.
  split_and!; [exact H1|exact H2|..];
    apply (rejected_message_resyncs examples.sqrt3 more_examples.upper
             more_examples.collector0 more_examples.stream examples.gap_event
             (py.lit 1000 1) examples.snapshot "2024-01-01T00:00:00" m H1 H2).
Defined.

Lemma record_is_uncrossed_witness :
  ∃ u,
    (handle more_examples.collector1 more_examples.stream
       examples.first_event (py.lit 1001 1) None "2024-01-01T00:00:01").2
    = Some u
    ∧ u_symbol u = more_examples.upper (before_at more_examples.stream)
    ∧ (∃ m', managers (handle more_examples.collector1 more_examples.stream
                         examples.first_event (py.lit 1001 1) None
                         "2024-01-01T00:00:01").1
               !! more_examples.upper (before_at more_examples.stream)
             = Some m'
             ∧ u_orderbook u = summary (orderbook.orderbook m'))
    ∧ ∀ b a, s_best_bid (u_orderbook u) = Some b →
             s_best_ask (u_orderbook u) = Some a →
             b ≠ 0 → a ≠ 0 → b < a.
Proof.
  eexists. split; [reflexivity|].
  eapply record_is_uncrossed. reflexivity.
Defined.

End worked_collector.


(** * The ordering test on the worked feed *)

Section worked_ordering.
Import orderbook book_spec book_facts.

#[local] Existing Instance py.exact.

Local Ltac by_compute := apply (bool_decide_unpack _); vm_compute; exact I.

(** C2.  The code at the failing input: after the snapshot (id 100) and
    the first event (ids 101 to 103, accepted), the event with ids 104 to
    106 carries a ["pu"] of 999, which is not the stored [_last_u] of 103;
    [process_update] answers [True] and writes its bid and its id into the
    book. *)
Lemma wrong_pu_event_applied :
  let m := more_examples.after_first in
  let r := process_update m more_examples.wrong_pu_event (py.lit 1002 1) in
  process_update examples.manager examples.first_event (py.lit 1001 1)
  = (true, m)
  ∧ _initialized m = true
  ∧ _last_u m = 103%Z
  ∧ ev_pu more_examples.wrong_pu_event = Some 999%Z
  ∧ r.1 = true
  ∧ bids (orderbook r.2) = [examples.level (py.lit 10 1) (py.lit 3 1)]
  ∧ bids (orderbook m) = [examples.level (py.lit 10 1) (py.lit 1 1)]
  ∧ last_update_id (orderbook r.2) = 106%Z
  ∧ _last_u r.2 = 106%Z.
Proof. by vm_compute. Qed.



(** C4 as stated fails: the snapshot has an ask priced zero; the event is
    in order and accepted, and it leaves both sides with a level, the best
    bid of 1 not below the best ask of 0. *)
Lemma zero_price_book_accepted_crossed :
  let r := process_update more_examples.zero_ask_manager
                          more_examples.quiet_event (py.lit 1001 1) in
  r.1 = true
  ∧ best_bid (orderbook r.2) = Some (py.lit 1 1)
  ∧ best_ask (orderbook r.2) = Some 0
  ∧ ¬ py.lit 1 1 < 0
  ∧ ¬ book_invariant (orderbook r.2).
Proof.
  split_and!; try reflexivity; [by_compute|].
  intros [_ _ _ _ Hx].
  specialize (Hx (py.lit 1 1) 0 eq_refl eq_refl). revert Hx. by_compute.
Qed.

(** C8 as stated fails: on the same book the event passes the ordering
    predicate and leaves both sides non-empty with [best_bid ≥ best_ask],
    and [process_update] returns [True]. *)
Lemma zero_price_cross_answered_true :
  let m := more_examples.zero_ask_manager in
  let r := process_update m more_examples.quiet_event (py.lit 1001 1) in
  _initialized m = true
  ∧ ordering_predicate m more_examples.quiet_event
  ∧ best_bid (orderbook r.2) = Some (py.lit 1 1)
  ∧ best_ask (orderbook r.2) = Some 0
  ∧ 0 ≤ py.lit 1 1
  ∧ r.1 = true.
Proof.
  split_and!; try reflexivity; by_compute.
Qed.

Lemma process_update_crossed_witness :
  let m := more_examples.shallow_manager in
  let e := examples.crossing_event in
  let r := process_update m e (py.lit 1001 1) in
  _initialized m = true
  ∧ ordering_predicate m e
  ∧ best_bid (orderbook r.2) = Some (py.lit 11 1)
  ∧ best_ask (orderbook r.2) = Some (py.lit 101 10)
  ∧ py.lit 11 1 ≠ 0 ∧ py.lit 101 10 ≠ 0 ∧ py.lit 101 10 ≤ py.lit 11 1
  ∧ r.1 = false
  ∧ r.2 ≠ m
  ∧ ∃ merged_bids merged_asks,
      written (ev_b e) (bids (orderbook m)) merged_bids true
      ∧ written (ev_a e) (asks (orderbook m)) merged_asks false
      ∧ bids (orderbook r.2)
        = take (kept (depth m) merged_bids) merged_bids
      ∧ asks (orderbook r.2)
        = take (kept (depth m) merged_asks) merged_asks
      ∧ last_update_id (orderbook r.2) = ev_u e
      ∧ _last_u r.2 = ev_u e
      ∧ timestamp (orderbook r.2) = py.lit 1001 1.
Proof.
  intros m e r.
  assert (ordering_predicate m e) as H1 by by_compute.
  assert (py.lit 11 1 ≠ 0) as H2 by by_compute.
  assert (py.lit 101 10 ≠ 0) as H3 by by_compute.
  assert (py.lit 101 10 ≤ py.lit 11 1) as H4 by by_compute.
  split_and!; [reflexivity|exact H1|reflexivity|reflexivity
              |exact H2|exact H3|exact H4|..];
    apply (process_update_crossed_mutates m e (py.lit 1001 1)
             (py.lit 11 1) (py.lit 101 10) eq_refl H1 eq_refl eq_refl
             H2 H3 H4).
Defined.

(** The book of depth 1 after the crossing event: one bid is kept of the
    two that the event leaves. *)
Example crossing_event_on_shallow_book :
  let r := process_update more_examples.shallow_manager
                          examples.crossing_event (py.lit 1001 1) in
  r.1 = false
  ∧ bids (orderbook r.2) = [examples.level (py.lit 11 1) (py.lit 1 1)]
  ∧ asks (orderbook r.2) = [examples.level (py.lit 101 10) (py.lit 15 10)].
Proof. by vm_compute. Qed.

End worked_ordering.
